(** * Cloudinary to R2 migration scripts: a shallow embedding

    The development embeds the scripts of the repository

      - [scripts/migrate-to-r2.js]        ([loadState], [saveState],
        [downloadFromCloudinary], [migrateFile], [main]),
      - [scripts/utils/db-helper.js]      ([DBHelper]),
      - [scripts/utils/backup-helper.js]  ([BackupHelper]),
      - [scripts/utils/r2-uploader.js]    ([R2Uploader]),
      - [scripts/restore-from-backup.js]  ([prompt], [main]),
      - [scripts/utils/logger.js]         ([createProgressBar]),

    and states the properties of the specification over them, then
    further properties of the functions around those.

    Conventions of the embedding.

      - The scripts are effectful: they talk to a database, to two object
        stores and to the file system, and they throw.  They are written
        in a state-and-exception monad [M] over a record [world] that
        holds the external stores, the mutable variables of [main] and a
        trace of the calls that left the process.
      - What the outside world answers (HTTP responses, transport and
        database errors) is not decided by the scripts; it is given by an
        [oracle], one [record_faults] per record.
      - [main] hands the records to [pLimit(3)], and the tasks share the
        variables of [main], the state file and the one connection to
        the database.  [downloadFromCloudinary], [migrateFile] and the
        task are therefore given twice: in [M], taken in one piece, and
        as [async] computations (module [Migrate.Async]) that [pool]
        interleaves call by call, in the order of the [turns] of the
        oracle.  Run alone, the second form is the first ([alone_task]).
        Whether a [BEGIN], a [COMMIT] or a [ROLLBACK] is accepted is an
        answer of the database, and comes from the oracle as well.
      - Clock readings ([Date.now], [new Date().toISOString()]), stack
        traces and the lines the logger prints are not part of the model;
        a script that needs the clock takes its reading as an argument.
        [fs.writeFileSync] of the state file is taken not to throw. *)

From stdpp Require Import base strings gmap list.
From Stdlib Require Import ZArith Lia Ascii DecimalString Permutation Sorted.

Open Scope string_scope.
Open Scope list_scope.
Open Scope Z_scope.

(* ================================================================= *)
(** ** JavaScript values *)

Module JS.

(** An [Error] object, with the fields the scripts inspect:
    [error.name], [error.message], axios' [error.response?.status] and
    the S3 client's [error.$metadata?.httpStatusCode]. *)
Record error := Error {
  name : string;
  message : string;
  response_status : option Z;
  http_status_code : option Z
}.

(** [new Error(msg)] *)
Definition new_Error (msg : string) : error :=
  {| name := "Error"; message := msg;
     response_status := None; http_status_code := None |}.

(** Truthiness of a possibly undefined string: [undefined] and the
    empty string are falsy. *)
Definition truthy (o : option string) : bool :=
  match o with
  | Some s => negb (String.eqb s EmptyString)
  | None => false
  end.

(** A possibly undefined string inside a template literal. *)
Definition to_string (o : option string) : string :=
  match o with
  | Some s => s
  | None => "undefined"
  end.

(** A number inside a template literal. *)
Definition nat_to_string (n : nat) : string :=
  NilEmpty.string_of_uint (Nat.to_uint n).

(** [s.startsWith(p)], and the rest of [s] after [p]. *)
Fixpoint strip_prefix (p s : string) : option string :=
  match p, s with
  | EmptyString, _ => Some s
  | String a p', String b s' =>
      if Ascii.eqb a b then strip_prefix p' s' else None
  | String _ _, EmptyString => None
  end.

Definition startsWith (s p : string) : bool :=
  match strip_prefix p s with Some _ => true | None => false end.

(** [xs.includes(x)] on integers *)
Definition includes (xs : list Z) (x : Z) : bool :=
  existsb (Z.eqb x) xs.

(** [args.includes(flag)] on strings *)
Definition includes_str (xs : list string) (x : string) : bool :=
  existsb (String.eqb x) xs.

(** [s.endsWith(p)]: the last [p.length] characters of [s] are [p]. *)
Definition endsWith (s p : string) : bool :=
  (String.length p <=? String.length s)%nat
  && String.eqb (String.substring (String.length s - String.length p)
                                  (String.length p) s) p.

(** The lower-case form of a character, for the letters A to Z. *)
Definition lower (c : ascii) : ascii :=
  if (65 <=? nat_of_ascii c)%nat && (nat_of_ascii c <=? 90)%nat
  then ascii_of_nat (nat_of_ascii c + 32) else c.

(** [s.toLowerCase()]. Only the letters A to Z are mapped; no other
    character has [y], [e] or [s] for its lower-case form, so the
    comparisons of [prompt] come out as in the script. *)
Fixpoint toLowerCase (s : string) : string :=
  match s with
  | EmptyString => EmptyString
  | String c s' => String (lower c) (toLowerCase s')
  end.

End JS.

(* ================================================================= *)
(** ** Data *)

(** A row of the table [files]. The column [updated_at] is set from the
    backend's clock and is left out. *)
Record File := mkFile {
  id : Z;
  name : string;
  hash : string;
  ext : string;
  mime : string;
  size : Z;
  url : string;
  provider : string;
  provider_metadata : option string;
  formats : option string
}.

(** A [Buffer]: the scripts only look at [buffer.length]. *)
Record Buffer := mkBuffer { buffer_length : Z }.

(** An object of the destination bucket. *)
Record Object := mkObject { object_length : Z; object_content_type : string }.

(** What [migrateFile] returns: [status] with the fields of each case. *)
Inductive migrate_result :=
| Success (original_url new_url : string) (file_size : Z)
| Failed (error : string) (retry_count : option nat)
| Skipped (reason : string).

Inductive outcome := success | failed | skipped.

Definition status (r : migrate_result) : outcome :=
  match r with
  | Success _ _ _ => success
  | Failed _ _ => failed
  | Skipped _ => skipped
  end.

(** An entry of one of the three collections of the migration state. *)
Record entry := mkEntry {
  entry_id : Z;
  entry_original_url : string;
  entry_result : migrate_result
}.

Inductive run_status := in_progress | completed | completed_with_errors.

Record Statistics := mkStatistics {
  total_files : nat;
  processed : nat;
  stat_success : nat;
  stat_failed : nat;
  stat_skipped : nat
}.

(** The migration state ([migration-state.json]); [migration_id],
    [start_time] and [end_time] are clock readings and are left out. *)
Record State := mkState {
  run_state : run_status;
  statistics : Statistics;
  processed_files : list entry;
  failed_files : list entry;
  skipped_files : list entry
}.

(* ================================================================= *)
(** ** The world and its trace *)

Inductive event :=
| EvHead (url : string) (timeout : Z)                    (* axios.head *)
| EvGet (url : string) (timeout maxContentLength : Z)    (* axios.get *)
| EvSleep (ms : Z)                                       (* setTimeout *)
| EvHeadObject (key : string)
| EvPutObject (key : string) (length : Z) (contentType : string)
| EvMultipart (key : string) (length : Z) (contentType : string)
              (partSize queueSize : Z)
| EvBegin
| EvCommit
| EvRollback
| EvUpdate (fileId : Z) (r2Url : string)                 (* UPDATE files *)
| EvSelect                                               (* SELECT ... cloudinary *)
| EvClose
| EvSaveState (s : State)                                 (* saveState *)
| EvCopyFile (src dst : string)                          (* fs.copyFileSync *)
| EvExec (cmd : string)                                  (* execSync *)
| EvExit (code : Z).                                     (* process.exit *)

Record world := mkWorld {
  (** the table [files] as seen on the connection *)
  w_rows : list File;
  (** the table at [BEGIN] while a transaction is open *)
  w_tx : option (list File);
  (** the destination bucket *)
  w_bucket : gmap string Object;
  (** [scripts/migration-state.json] *)
  w_state_file : option State;
  (** the object [state] of [main] *)
  w_state : State;
  (** the variable [processed] of [main] *)
  w_processed : nat;
  (** the files that backup and restore read and write, by path *)
  w_fs : gmap string string;
  (** the live PostgreSQL database, as the dump that reproduces it *)
  w_pg : string;
  (** the calls made so far, oldest first *)
  w_trace : list event
}.

Definition set_rows (v : list File) (w : world) : world :=
  mkWorld v (w_tx w) (w_bucket w) (w_state_file w) (w_state w)
          (w_processed w) (w_fs w) (w_pg w) (w_trace w).
Definition set_tx (v : option (list File)) (w : world) : world :=
  mkWorld (w_rows w) v (w_bucket w) (w_state_file w) (w_state w)
          (w_processed w) (w_fs w) (w_pg w) (w_trace w).
Definition set_bucket (v : gmap string Object) (w : world) : world :=
  mkWorld (w_rows w) (w_tx w) v (w_state_file w) (w_state w)
          (w_processed w) (w_fs w) (w_pg w) (w_trace w).
Definition set_state_file (v : option State) (w : world) : world :=
  mkWorld (w_rows w) (w_tx w) (w_bucket w) v (w_state w)
          (w_processed w) (w_fs w) (w_pg w) (w_trace w).
Definition set_state (v : State) (w : world) : world :=
  mkWorld (w_rows w) (w_tx w) (w_bucket w) (w_state_file w) v
          (w_processed w) (w_fs w) (w_pg w) (w_trace w).
Definition set_processed (v : nat) (w : world) : world :=
  mkWorld (w_rows w) (w_tx w) (w_bucket w) (w_state_file w) (w_state w)
          v (w_fs w) (w_pg w) (w_trace w).
Definition set_fs (v : gmap string string) (w : world) : world :=
  mkWorld (w_rows w) (w_tx w) (w_bucket w) (w_state_file w) (w_state w)
          (w_processed w) v (w_pg w) (w_trace w).
Definition set_pg (v : string) (w : world) : world :=
  mkWorld (w_rows w) (w_tx w) (w_bucket w) (w_state_file w) (w_state w)
          (w_processed w) (w_fs w) v (w_trace w).
Definition set_trace (v : list event) (w : world) : world :=
  mkWorld (w_rows w) (w_tx w) (w_bucket w) (w_state_file w) (w_state w)
          (w_processed w) (w_fs w) (w_pg w) v.

(* ================================================================= *)
(** ** The monad of the scripts *)

Inductive result (A : Type) :=
| Ok (a : A)
| Throw (e : JS.error).
Arguments Ok {A} a.
Arguments Throw {A} e.

Definition M (A : Type) : Type := world -> result A * world.

Definition ret {A} (a : A) : M A := fun w => (Ok a, w).

Definition bind {A B} (c : M A) (k : A -> M B) : M B :=
  fun w =>
    match c w with
    | (Ok a, w') => k a w'
    | (Throw e, w') => (Throw e, w')
    end.

Definition throw {A} (e : JS.error) : M A := fun w => (Throw e, w).

(** [try { c } catch (e) { h e }]: the effects of [c] up to the throw
    stay. *)
Definition try_catch {A} (c : M A) (h : JS.error -> M A) : M A :=
  fun w =>
    match c w with
    | (Ok a, w') => (Ok a, w')
    | (Throw e, w') => h e w'
    end.

Definition gets {A} (f : world -> A) : M A := fun w => (Ok (f w), w).
Definition modify (f : world -> world) : M unit := fun w => (Ok tt, f w).
Definition emit (e : event) : M unit :=
  modify (fun w => set_trace (w_trace w ++ [e]) w).

(** A call that the outside world may make fail. *)
Definition may_fail (fault : option JS.error) : M unit :=
  match fault with
  | Some e => throw e
  | None => ret tt
  end.

Declare Scope js_scope.
Delimit Scope js_scope with js.
Notation "x <- c ;; k" := (bind c (fun x => k))
  (at level 100, c at next level, right associativity) : js_scope.
Notation "c ;; k" := (bind c (fun _ => k))
  (at level 100, right associativity) : js_scope.
Notation "'TRY' c 'CATCH' e '=>' h" := (try_catch c (fun e => h))
  (at level 100, c at level 200, e name, h at level 200) : js_scope.
Open Scope js_scope.

(** [for (const x of xs) await body(x)] *)
Fixpoint for_each {A} (body : A -> M unit) (xs : list A) : M unit :=
  match xs with
  | [] => ret tt
  | x :: xs' => body x ;; for_each body xs'
  end.

(** *** Functions that wait

    An [async] function runs up to its next [await] and goes on when the
    awaited call has settled; what else is in flight runs in between.
    [Await c k] stands in front of the call [c]: when its turn comes the
    call takes effect in one piece, and [k] goes on with what the call
    gave or threw.  A piece of code between two awaits that touches the
    variables of [main] is a call of its own. *)
Inductive async (A : Type) : Type :=
| Settled (r : result A)
| Await {B : Type} (c : M B) (k : result B -> async A).
Arguments Settled {A} r.
Arguments Await {A B} c k.

Fixpoint bind_async {A B} (s : async A) (f : A -> async B) : async B :=
  match s with
  | Settled (Ok a) => f a
  | Settled (Throw e) => Settled (Throw e)
  | Await c k => Await c (fun r => bind_async (k r) f)
  end.

Fixpoint try_async {A} (s : async A) (h : JS.error -> async A) : async A :=
  match s with
  | Settled (Ok a) => Settled (Ok a)
  | Settled (Throw e) => h e
  | Await c k => Await c (fun r => try_async (k r) h)
  end.

(** [await c] *)
Definition await {A} (c : M A) : async A := Await c Settled.

Declare Scope async_scope.
Delimit Scope async_scope with async.
Bind Scope async_scope with async.
Notation "x <- c ;; k" := (bind_async c (fun x => k))
  (at level 100, c at next level, right associativity) : async_scope.
Notation "c ;; k" := (bind_async c (fun _ => k))
  (at level 100, right associativity) : async_scope.
Notation "'TRY' c 'CATCH' e '=>' h" := (try_async c (fun e => h))
  (at level 100, c at level 200, e name, h at level 200) : async_scope.

(** The function run from its call to its end with nothing in
    between. *)
Fixpoint alone {A} (s : async A) : M A :=
  match s with
  | Settled r => fun w => (r, w)
  | Await c k => fun w => let (r, w') := c w in alone (k r) w'
  end.

(** The call [c] as the function that awaits it sees it settle. *)
Definition observe {A} (c : M A) : M (result A) :=
  fun w => let (r, w') := c w in (Ok r, w').

(* ================================================================= *)
(** ** What the outside world answers *)

(** The answer of the source store to a [HEAD] or a [GET]: a response
    with a body of [len] bytes arriving after [ms] milliseconds, or a
    failure ([e] carries [response.status] when there was a response). *)
Inductive http_response :=
| Responds (len : Z) (ms : Z)
| Fails (e : JS.error).

Record record_faults := mkFaults {
  (** answer to [axios.head(file.url)] *)
  src_head : http_response;
  (** answer to the [i]-th [axios.get(file.url)], from 0 *)
  src_get : nat -> http_response;
  (** transport fault of [HeadObject]; [None]: the bucket answers *)
  r2_head_fault : option JS.error;
  (** transport fault of [PutObject] or of the multipart upload *)
  r2_put_fault : option JS.error;
  db_begin_fault : option JS.error;
  db_update_fault : option JS.error;
  db_commit_fault : option JS.error;
  db_rollback_fault : option JS.error
}.

(** Whose turn it is when the event loop resumes what waits: [main],
    which waits for [Promise.all], or the task of rank [i] among the
    tasks in flight. *)
Inductive turn :=
| main_turn
| task_turn (i : nat).

Record oracle := mkOracle {
  (** [connection.connect()] or opening the database file *)
  db_connect_fault : option JS.error;
  (** the [SELECT] of [getCloudinaryFiles] *)
  db_select_fault : option JS.error;
  faults_of : File -> record_faults;
  (** the order in which the awaited calls of the tasks settle; once
      the turns are used up the tasks still in flight are finished one
      after the other *)
  turns : list turn
}.

(* ================================================================= *)
(** ** axios *)

Module axios.

Definition timeout_error (timeout : Z) : JS.error :=
  {| JS.name := "AxiosError";
     JS.message := "timeout exceeded";
     JS.response_status := None; JS.http_status_code := None |}.

Definition too_large_error (maxContentLength : Z) : JS.error :=
  {| JS.name := "AxiosError";
     JS.message := "maxContentLength size exceeded";
     JS.response_status := None; JS.http_status_code := None |}.

(** How a request with the limits [timeout] and [maxContentLength]
    settles on the answer [r]: it is aborted when the answer takes
    longer than [timeout], and rejected when the body is longer than
    [maxContentLength]. *)
Definition respond (timeout : Z) (maxContentLength : option Z)
    (r : http_response) : result Buffer :=
  match r with
  | Fails e => Throw e
  | Responds len ms =>
      if timeout <? ms then Throw (timeout_error timeout)
      else match maxContentLength with
           | Some m =>
               if m <? len then Throw (too_large_error m)
               else Ok (mkBuffer len)
           | None => Ok (mkBuffer len)
           end
  end.

Definition settle {A} (r : result A) : M A := fun w => (r, w).

(** [axios.head(url, { timeout })] *)
Definition head (url : string) (timeout : Z) (r : http_response)
    : M Buffer :=
  emit (EvHead url timeout) ;;
  settle (respond timeout None r).

(** [axios.get(url, { responseType: 'arraybuffer', timeout,
    maxContentLength })] *)
Definition get (url : string) (timeout maxContentLength : Z)
    (r : http_response) : M Buffer :=
  emit (EvGet url timeout maxContentLength) ;;
  settle (respond timeout (Some maxContentLength) r).

End axios.

(* ================================================================= *)
(** ** scripts/utils/db-helper.js *)

Module DBHelper.

Inductive client := sqlite | postgres.

Record t := mk { db_client : client }.

(** The environment variables the scripts read. *)
Record Env := mkEnv {
  DATABASE_CLIENT : option string;
  DATABASE_FILENAME : option string;
  DATABASE_PRIVATE_URL : option string;
  DATABASE_URL : option string;
  AWS_BUCKET : option string;
  AWS_ENDPOINT : option string;
  R2_PUBLIC_URL : option string
}.

(** [env.X || fallback] *)
Definition or_else (o : option string) (fallback : string) : string :=
  if JS.truthy o then JS.to_string o else fallback.

(** [static async init(env)] *)
Definition init (env : Env) (O : oracle) : M t :=
  let client := or_else (DATABASE_CLIENT env) "sqlite" in
  if String.eqb client "sqlite" then
    may_fail (db_connect_fault O) ;;
    ret (mk sqlite)
  else if String.eqb client "postgres" then
    may_fail (db_connect_fault O) ;;
    ret (mk postgres)
  else
    throw (JS.new_Error ("Unsupported database client: " +:+ client)).

(** [BEGIN]: the database remembers the table as it is. *)
Definition beginTransaction (fl : record_faults) : M unit :=
  emit EvBegin ;;
  may_fail (db_begin_fault fl) ;;
  modify (fun w => set_tx (Some (w_rows w)) w).

(** [COMMIT]: the changes since [BEGIN] stay. *)
Definition commit (fl : record_faults) : M unit :=
  emit EvCommit ;;
  may_fail (db_commit_fault fl) ;;
  modify (set_tx None).

(** What [ROLLBACK] does to the database: the table is again what it
    was at [BEGIN]; nothing when no transaction is open. *)
Definition rolled_back (w : world) : world :=
  match w_tx w with
  | Some rows0 => set_tx None (set_rows rows0 w)
  | None => w
  end.

(** [ROLLBACK] *)
Definition rollback (fl : record_faults) : M unit :=
  emit EvRollback ;;
  may_fail (db_rollback_fault fl) ;;
  modify rolled_back.

Definition close : M unit := emit EvClose.

(** [ORDER BY id] *)
Fixpoint insert_by_id (f : File) (l : list File) : list File :=
  match l with
  | [] => [f]
  | g :: l' => if id f <=? id g then f :: l else g :: insert_by_id f l'
  end.

Definition order_by_id (l : list File) : list File :=
  foldr insert_by_id [] l.

(** [SELECT * FROM files WHERE provider = 'cloudinary' ORDER BY id] *)
Definition getCloudinaryFiles (O : oracle) : M (list File) :=
  emit EvSelect ;;
  may_fail (db_select_fault O) ;;
  rows <- gets w_rows ;;
  ret (order_by_id
         (List.filter (fun f => String.eqb (provider f) "cloudinary") rows)).

(** The [UPDATE] of [updateFileToR2] applied to one row. *)
Definition to_r2 (fileId : Z) (r2Url : string) (f : File) : File :=
  if id f =? fileId
  then mkFile (id f) (name f) (hash f) (ext f) (mime f) (size f)
              r2Url "aws-s3" None None
  else f.

(** [async updateFileToR2(fileId, r2Url)]; both backends run the same
    statement up to the spelling of the clock function. *)
Definition updateFileToR2 (fl : record_faults) (fileId : Z) (r2Url : string)
    : M unit :=
  emit (EvUpdate fileId r2Url) ;;
  may_fail (db_update_fault fl) ;;
  modify (fun w => set_rows (map (to_r2 fileId r2Url) (w_rows w)) w).

(** [SELECT COUNT( * ) FROM files WHERE provider = ?] *)
Definition getFileCountByProvider (p : string) : M nat :=
  rows <- gets w_rows ;;
  ret (length (List.filter (fun f => String.eqb (provider f) p) rows)).

(** [async getFileById(id)]: [SELECT * FROM files WHERE id = ?], the
    first row or [undefined]. *)
Definition getFileById (fileId : Z) : M (option File) :=
  rows <- gets w_rows ;;
  ret (List.find (fun f => id f =? fileId) rows).

End DBHelper.

(* ================================================================= *)
(** ** scripts/utils/r2-uploader.js *)

Module R2Uploader.

Record t := mk {
  bucket : option string;
  endpoint : option string;
  publicUrl : option string
}.

(** [static fromEnv(env)]: the constructor stores the configuration and
    builds the client; nothing is checked. *)
Definition fromEnv (env : DBHelper.Env) : t :=
  {| bucket := DBHelper.AWS_BUCKET env;
     endpoint := DBHelper.AWS_ENDPOINT env;
     publicUrl := DBHelper.R2_PUBLIC_URL env |}.

(** The longest prefix of [s] without a dot, and the rest. *)
Fixpoint span_not_dot (s : string) : string * string :=
  match s with
  | EmptyString => (EmptyString, EmptyString)
  | String c s' =>
      if Ascii.eqb c "."%char then (EmptyString, s)
      else let (a, b) := span_not_dot s' in (String c a, b)
  end.

(** The pattern [https:\/\/([^.]+)\.r2\.cloudflarestorage\.com] tried at
    the start of [s]. The group [[^.]+] is followed by a dot in the
    pattern, so the only run that can match is the longest one. *)
Definition account_here (s : string) : option string :=
  match JS.strip_prefix "https://" s with
  | None => None
  | Some r =>
      let (acct, rest) := span_not_dot r in
      if String.eqb acct EmptyString then None
      else if JS.startsWith rest ".r2.cloudflarestorage.com"
           then Some acct else None
  end.

(** [endpoint.match(/.../)]: the leftmost match; the value is the
    captured group. *)
Fixpoint account_match (s : string) : option string :=
  match account_here s with
  | Some a => Some a
  | None =>
      match s with
      | EmptyString => None
      | String _ s' => account_match s'
      end
  end.

Definition type_error_match : JS.error :=
  {| JS.name := "TypeError";
     JS.message := "Cannot read properties of undefined (reading 'match')";
     JS.response_status := None; JS.http_status_code := None |}.

(** [extractAccountId()] *)
Definition extractAccountId (u : t) : result string :=
  match endpoint u with
  | None => Throw type_error_match
  | Some e =>
      match account_match e with
      | Some a => Ok a
      | None => Throw (JS.new_Error "Invalid R2 endpoint format")
      end
  end.

(** [getPublicUrl(key)] *)
Definition getPublicUrl (u : t) (key : string) : result string :=
  if JS.truthy (publicUrl u) then
    Ok (JS.to_string (publicUrl u) +:+ "/" +:+ key)
  else
    match extractAccountId u with
    | Ok accountId =>
        Ok ("https://" +:+ JS.to_string (bucket u) +:+ "." +:+ accountId
            +:+ ".r2.cloudflarestorage.com/" +:+ key)
    | Throw e => Throw e
    end.

Definition lift {A} (r : result A) : M A := fun w => (r, w).

Definition part_size : Z := 5 * 1024 * 1024.

(** [async multipartUpload({ buffer, key, contentType })] *)
Definition multipartUpload (u : t) (fl : record_faults)
    (buffer : Buffer) (key contentType : string) : M string :=
  TRY
    emit (EvMultipart key (buffer_length buffer) contentType part_size 4) ;;
    may_fail (r2_put_fault fl) ;;
    modify (fun w =>
      set_bucket (<[key := mkObject (buffer_length buffer) contentType]>
                    (w_bucket w)) w) ;;
    lift (getPublicUrl u key)
  CATCH error =>
    throw (JS.new_Error
             ("Failed multipart upload to R2: " +:+ JS.message error)).

(** [async upload({ buffer, key, contentType })] *)
Definition upload (u : t) (fl : record_faults)
    (buffer : Buffer) (key contentType : string) : M string :=
  TRY
    if 5 * 1024 * 1024 <? buffer_length buffer then
      multipartUpload u fl buffer key contentType
    else
      emit (EvPutObject key (buffer_length buffer) contentType) ;;
      may_fail (r2_put_fault fl) ;;
      modify (fun w =>
        set_bucket (<[key := mkObject (buffer_length buffer) contentType]>
                      (w_bucket w)) w) ;;
      lift (getPublicUrl u key)
  CATCH error =>
    throw (JS.new_Error ("Failed to upload to R2: " +:+ JS.message error)).

Definition not_found_error : JS.error :=
  {| JS.name := "NotFound"; JS.message := "NotFound";
     JS.response_status := None; JS.http_status_code := Some 404 |}.

(** [HeadObject]: answered by the bucket unless the transport fails. *)
Definition send_head_object (fl : record_faults) (key : string) : M unit :=
  emit (EvHeadObject key) ;;
  may_fail (r2_head_fault fl) ;;
  b <- gets w_bucket ;;
  match b !! key with
  | Some _ => ret tt
  | None => throw not_found_error
  end.

Definition is_404 (o : option Z) : bool :=
  match o with Some s => s =? 404 | None => false end.

(** [async fileExists(key)] *)
Definition fileExists (fl : record_faults) (key : string) : M bool :=
  TRY
    send_head_object fl key ;;
    ret true
  CATCH error =>
    if String.eqb (JS.name error) "NotFound"
       || is_404 (JS.http_status_code error)
    then ret false
    else throw error.

End R2Uploader.

(* ================================================================= *)
(** ** scripts/migrate-to-r2.js *)

Module Migrate.

Definition CONCURRENCY : nat := 3.

Definition fresh_state : State :=
  {| run_state := in_progress;
     statistics := mkStatistics 0 0 0 0 0;
     processed_files := [];
     failed_files := [];
     skipped_files := [] |}.

(** [loadState()]: the state file when there is one, else a new state. *)
Definition loadState : M State :=
  sf <- gets w_state_file ;;
  match sf with
  | Some s => ret s
  | None => ret fresh_state
  end.

(** [saveState(state)] *)
Definition saveState (s : State) : M unit :=
  emit (EvSaveState s) ;;
  modify (set_state_file (Some s)).

(** The loop of [downloadFromCloudinary]: [i] is the loop variable and
    [n] the number of iterations left, [i + n = retries]. Falling out
    of the loop returns [undefined]. *)
Fixpoint download_loop (url : string) (answers : nat -> http_response)
    (retries i n : nat) : M (option Buffer) :=
  match n with
  | O => ret None
  | S n' =>
      TRY
        response <- axios.get url 60000 (100 * 1024 * 1024) (answers i) ;;
        ret (Some response)
      CATCH error =>
        if Nat.eqb i (retries - 1) then
          throw (JS.new_Error
                   ("Download failed after " +:+ JS.nat_to_string retries
                    +:+ " retries: " +:+ JS.message error))
        else
          emit (EvSleep (1000 * (Z.of_nat i + 1))) ;;
          download_loop url answers retries (S i) n'
  end.

(** [async function downloadFromCloudinary(url, retries = 3)] *)
Definition downloadFromCloudinary (url : string)
    (answers : nat -> http_response) (retries : nat) : M (option Buffer) :=
  download_loop url answers retries 0 retries.

Definition type_error_length : JS.error :=
  {| JS.name := "TypeError";
     JS.message := "Cannot read properties of undefined (reading 'length')";
     JS.response_status := None; JS.http_status_code := None |}.

(** [async function migrateFile(file, uploader, db, dryRun = false)] *)
Definition migrateFile (file : File) (uploader : R2Uploader.t)
    (fl : record_faults) (dryRun : bool) : M migrate_result :=
  TRY
    (* Check if file exists on Cloudinary *)
    returned <-
      (TRY
         axios.head (url file) 10000 (src_head fl) ;;
         ret None
       CATCH error =>
         if R2Uploader.is_404 (JS.response_status error)
         then ret (Some (Skipped "File not found on Cloudinary (404)"))
         else ret None) ;;
    match returned with
    | Some r => ret r
    | None =>
        (* Construct R2 key *)
        let key := hash file +:+ ext file in
        (* Check if already exists in R2 *)
        exists_ <- R2Uploader.fileExists fl key ;;
        r2Url <-
          (if negb dryRun && negb exists_ then
             buffer <- downloadFromCloudinary (url file) (src_get fl) 3 ;;
             match buffer with
             | Some b => R2Uploader.upload uploader fl b key (mime file)
             | None => throw type_error_length
             end
           else if exists_ then
             R2Uploader.lift (R2Uploader.getPublicUrl uploader key)
           else
             u <- R2Uploader.lift (R2Uploader.getPublicUrl uploader key) ;;
             ret ("[DRY-RUN] " +:+ u)) ;;
        (* Update database *)
        (if negb dryRun
         then DBHelper.updateFileToR2 fl (id file) r2Url
         else ret tt) ;;
        ret (Success (url file) r2Url (size file))
    end
  CATCH error =>
    ret (Failed (JS.message error) (Some 3%nat)).

Definition incr_success (st : Statistics) : Statistics :=
  mkStatistics (total_files st) (processed st) (S (stat_success st))
               (stat_failed st) (stat_skipped st).
Definition incr_failed (st : Statistics) : Statistics :=
  mkStatistics (total_files st) (processed st) (stat_success st)
               (S (stat_failed st)) (stat_skipped st).
Definition incr_skipped (st : Statistics) : Statistics :=
  mkStatistics (total_files st) (processed st) (stat_success st)
               (stat_failed st) (S (stat_skipped st)).
Definition with_processed (n : nat) (st : Statistics) : Statistics :=
  mkStatistics (total_files st) n (stat_success st)
               (stat_failed st) (stat_skipped st).
Definition with_total_files (n : nat) (st : Statistics) : Statistics :=
  mkStatistics n (processed st) (stat_success st)
               (stat_failed st) (stat_skipped st).

(** The branch on [result.status] after [commit]. *)
Definition update_state (file : File) (r : migrate_result) (s : State)
    : State :=
  let e := mkEntry (id file) (url file) r in
  match status r with
  | success =>
      mkState (run_state s) (incr_success (statistics s))
              (processed_files s ++ [e]) (failed_files s) (skipped_files s)
  | failed =>
      mkState (run_state s) (incr_failed (statistics s))
              (processed_files s) (failed_files s ++ [e]) (skipped_files s)
  | skipped =>
      mkState (run_state s) (incr_skipped (statistics s))
              (processed_files s) (failed_files s) (skipped_files s ++ [e])
  end.

Definition set_statistics (st : Statistics) (s : State) : State :=
  mkState (run_state s) st (processed_files s) (failed_files s)
          (skipped_files s).
Definition set_run_state (r : run_status) (s : State) : State :=
  mkState r (statistics s) (processed_files s) (failed_files s)
          (skipped_files s).

(** [processed++; state.statistics.processed = processed;
    saveState(state)] *)
Definition count_and_save : M unit :=
  modify (fun w => set_processed (S (w_processed w)) w) ;;
  modify (fun w =>
    set_state (set_statistics
                 (with_processed (w_processed w) (statistics (w_state w)))
                 (w_state w)) w) ;;
  s <- gets w_state ;;
  saveState s.

(** The task given to [limit] for one file. *)
Definition task (uploader : R2Uploader.t) (O : oracle) (dryRun : bool)
    (file : File) : M unit :=
  let fl := faults_of O file in
  TRY
    (if negb dryRun then DBHelper.beginTransaction fl else ret tt) ;;
    result <- migrateFile file uploader fl dryRun ;;
    (if negb dryRun then DBHelper.commit fl else ret tt) ;;
    (* Update state *)
    modify (fun w => set_state (update_state file result (w_state w)) w) ;;
    count_and_save
  CATCH error =>
    (if negb dryRun then DBHelper.rollback fl else ret tt) ;;
    modify (fun w =>
      set_state
        (update_state file (Failed (JS.message error) None) (w_state w))
        w) ;;
    count_and_save.

(** The same functions await by await, as the event loop runs them
    when several tasks are in flight.  The functions above are these
    ones when nothing runs between two of their calls (lemmas
    [alone_download_loop], [alone_migrateFile] and [alone_task]). *)
Module Async.

Fixpoint download_loop (url : string) (answers : nat -> http_response)
    (retries i n : nat) : async (option Buffer) :=
  match n with
  | O => Settled (Ok None)
  | S n' =>
      (TRY
         response <- await (axios.get url 60000 (100 * 1024 * 1024)
                                      (answers i)) ;;
         Settled (Ok (Some response))
       CATCH error =>
         if Nat.eqb i (retries - 1) then
           Settled (Throw (JS.new_Error
                     ("Download failed after " +:+ JS.nat_to_string retries
                      +:+ " retries: " +:+ JS.message error)))
         else
           await (emit (EvSleep (1000 * (Z.of_nat i + 1)))) ;;
           download_loop url answers retries (S i) n')%async
  end.

Definition downloadFromCloudinary (url : string)
    (answers : nat -> http_response) (retries : nat)
    : async (option Buffer) :=
  download_loop url answers retries 0 retries.

Definition migrateFile (file : File) (uploader : R2Uploader.t)
    (fl : record_faults) (dryRun : bool) : async migrate_result :=
  (TRY
     (* Check if file exists on Cloudinary *)
     returned <-
       (TRY
          await (axios.head (url file) 10000 (src_head fl)) ;;
          Settled (Ok None)
        CATCH error =>
          if R2Uploader.is_404 (JS.response_status error)
          then Settled (Ok (Some (Skipped "File not found on Cloudinary (404)")))
          else Settled (Ok None)) ;;
     match returned with
     | Some r => Settled (Ok r)
     | None =>
         (* Construct R2 key *)
         let key := hash file +:+ ext file in
         (* Check if already exists in R2 *)
         exists_ <- await (R2Uploader.fileExists fl key) ;;
         r2Url <-
           (if negb dryRun && negb exists_ then
              buffer <- downloadFromCloudinary (url file) (src_get fl) 3 ;;
              match buffer with
              | Some b =>
                  await (R2Uploader.upload uploader fl b key (mime file))
              | None => Settled (Throw type_error_length)
              end
            else if exists_ then
              Settled (R2Uploader.getPublicUrl uploader key)
            else
              u <- Settled (R2Uploader.getPublicUrl uploader key) ;;
              Settled (Ok ("[DRY-RUN] " +:+ u))) ;;
         (* Update database *)
         (if negb dryRun
          then await (DBHelper.updateFileToR2 fl (id file) r2Url)
          else Settled (Ok tt)) ;;
         Settled (Ok (Success (url file) r2Url (size file)))
     end
   CATCH error =>
     Settled (Ok (Failed (JS.message error) (Some 3%nat))))%async.

(** The task given to [limit] for one file. *)
Definition task (uploader : R2Uploader.t) (O : oracle) (dryRun : bool)
    (file : File) : async unit :=
  let fl := faults_of O file in
  (TRY
     (if negb dryRun then await (DBHelper.beginTransaction fl)
      else Settled (Ok tt)) ;;
     result <- migrateFile file uploader fl dryRun ;;
     (if negb dryRun then await (DBHelper.commit fl) else Settled (Ok tt)) ;;
     (* Update state *)
     Await (modify (fun w =>
              set_state (update_state file result (w_state w)) w) ;;
            count_and_save)%js Settled
   CATCH error =>
     (if negb dryRun then await (DBHelper.rollback fl) else Settled (Ok tt)) ;;
     Await (modify (fun w =>
              set_state
                (update_state file (Failed (JS.message error) None)
                              (w_state w))
                w) ;;
            count_and_save)%js Settled)%async.

End Async.

(** [await Promise.all(files.map((file) => limit(task)))] with
    [limit = pLimit(CONCURRENCY)]: [running] are the tasks in flight,
    [waiting] the tasks in the queue of [limit], [rejected] the error of
    the first task that rejected, with which [Promise.all] rejects.  On
    its turn a task in flight makes its next call, or, when it has
    settled, leaves its place to the first task of the queue; the rank
    of a turn is taken modulo the number of tasks in flight.  On its own
    turn [main] goes on when every task has settled or when one has
    rejected, and waits otherwise.  When no turn is left, [main] goes on
    if a task has rejected, and else the tasks are finished in their
    order, each one to its end. *)
Fixpoint pool (turns : list turn) (running waiting : list (async unit))
    (rejected : option JS.error) : M unit :=
  match turns with
  | [] =>
      match rejected with
      | Some e => throw e
      | None => for_each alone (running ++ waiting)
      end
  | main_turn :: turns' =>
      match rejected, running, waiting with
      | Some e, _, _ => throw e
      | None, [], [] => ret tt
      | None, _, _ => pool turns' running waiting rejected
      end
  | task_turn i :: turns' =>
      let j := Nat.modulo i (length running) in
      match running !! j with
      | None => pool turns' running waiting rejected
      | Some (Settled r) =>
          pool turns' (delete j running ++ take 1 waiting) (drop 1 waiting)
               (match rejected, r with
                | None, Throw e => Some e
                | _, _ => rejected
                end)
      | Some (Await c k) =>
          r <- observe c ;;
          pool turns' (<[j := k r]> running) waiting rejected
      end
  end.

(** The records still to migrate: those whose id is not among the ids
    of [state.processed_files]. *)
Definition outstanding (state : State) (allFiles : list File) : list File :=
  let processedIds := map entry_id (processed_files state) in
  List.filter (fun f => negb (JS.includes processedIds (id f))) allFiles.

Definition final_status (s : State) : run_status :=
  if (0 <? stat_failed (statistics s))%nat
  then completed_with_errors else completed.

(** [async function main()] *)
Definition main (args : list string) (env : DBHelper.Env) (O : oracle)
    : M unit :=
  TRY
    let dryRun := JS.includes_str args "--dry-run" in
    (* Initialize database *)
    db <- DBHelper.init env O ;;
    (* Initialize R2 uploader *)
    let uploader := R2Uploader.fromEnv env in
    (* Load migration state *)
    state <- loadState ;;
    modify (set_state state) ;;
    (* Get files to migrate *)
    allFiles <- DBHelper.getCloudinaryFiles O ;;
    let files := outstanding state allFiles in
    modify (fun w =>
      set_state (set_statistics
                   (with_total_files (length allFiles)
                                     (statistics (w_state w)))
                   (w_state w)) w) ;;
    if Nat.eqb (length files) 0 then
      DBHelper.close
    else
      modify (set_processed 0) ;;
      (let promises := map (Async.task uploader O dryRun) files in
       pool (turns O) (take CONCURRENCY promises)
            (drop CONCURRENCY promises) None) ;;
      (* Update final state *)
      modify (fun w =>
        set_state (set_run_state (final_status (w_state w)) (w_state w)) w) ;;
      s <- gets w_state ;;
      saveState s ;;
      (* Close database *)
      DBHelper.close
  CATCH error =>
    emit (EvExit 1).

End Migrate.

(* ================================================================= *)
(** ** scripts/utils/backup-helper.js *)

Module BackupHelper.

(** *** File names and time stamps *)

(** [s.replace(/[:.]/g, '-')] *)
Fixpoint replace_colon_dot (s : string) : string :=
  match s with
  | EmptyString => EmptyString
  | String c s' =>
      String (if Ascii.eqb c ":"%char || Ascii.eqb c "."%char
              then "-"%char else c)
             (replace_colon_dot s')
  end.

(** [s.split(c)] for a separator of one character *)
Fixpoint split (c : ascii) (s : string) : list string :=
  match s with
  | EmptyString => [EmptyString]
  | String a s' =>
      if Ascii.eqb a c then EmptyString :: split c s'
      else match split c s' with
           | h :: t => String a h :: t
           | [] => [String a EmptyString]
           end
  end.

(** [parts.join(sep)] *)
Definition join (sep : string) (parts : list string) : string :=
  String.concat sep parts.

(** [getTimestamp()], from the value [iso] of [now.toISOString()]:
    [iso.replace(/[:.]/g, '-').split('T').join('-').split('.')[0]] *)
Definition getTimestamp (iso : string) : string :=
  hd EmptyString
     (split "."%char (join "-" (split "T"%char (replace_colon_dot iso)))).

(** The names under which the artifacts of a backup are written. *)
Definition sqlite_backup_name (timestamp : string) : string :=
  "data.db.backup-" +:+ timestamp.
Definition postgres_backup_name (timestamp : string) : string :=
  "backup-" +:+ timestamp +:+ ".sql".
Definition json_backup_name (timestamp : string) : string :=
  "cloudinary-backup-" +:+ timestamp +:+ ".json".
Definition csv_mapping_name (timestamp : string) : string :=
  "migration-mapping-" +:+ timestamp +:+ ".csv".
Definition report_name (timestamp : string) : string :=
  "backup-report-" +:+ timestamp +:+ ".txt".

(** [s] between double quotes *)
Definition quoted (s : string) : string :=
  String (ascii_of_nat 34) s +:+ String (ascii_of_nat 34) EmptyString.

(** [path.join(dir, name)] *)
Definition path_join (dir name : string) : string := dir +:+ "/" +:+ name.

(** *** The file system *)

Definition enoent (p : string) : JS.error :=
  {| JS.name := "Error";
     JS.message := "ENOENT: no such file or directory, " +:+ p;
     JS.response_status := None; JS.http_status_code := None |}.

(** [fs.existsSync(p)] *)
Definition existsSync (p : string) : M bool :=
  fs <- gets w_fs ;;
  ret (match fs !! p with Some _ => true | None => false end).

(** [fs.copyFileSync(src, dst)] *)
Definition copyFileSync (src dst : string) : M unit :=
  emit (EvCopyFile src dst) ;;
  fs <- gets w_fs ;;
  match fs !! src with
  | Some c => modify (set_fs (<[dst := c]> fs))
  | None => throw (enoent src)
  end.

(** [fs.writeFileSync(p, content)] *)
Definition writeFileSync (p content : string) : M unit :=
  modify (fun w => set_fs (<[p := content]> (w_fs w)) w).

(** *** Backup *)

(** [static backupSQLite(dbPath, backupDir)] *)
Definition backupSQLite (iso dbPath backupDir : string) : M string :=
  let timestamp := getTimestamp iso in
  let backupPath := path_join backupDir (sqlite_backup_name timestamp) in
  copyFileSync dbPath backupPath ;;
  ret backupPath.

(** [static backupPostgreSQL(connectionString, backupDir)]: [pg_dump]
    writes the live database to [backupPath]. *)
Definition backupPostgreSQL (iso : string) (exec_fault : option JS.error)
    (connectionString backupDir : string) : M string :=
  let timestamp := getTimestamp iso in
  let backupPath := path_join backupDir (postgres_backup_name timestamp) in
  TRY
    emit (EvExec ("pg_dump " +:+ quoted connectionString +:+ " > "
                  +:+ quoted backupPath)) ;;
    may_fail exec_fault ;;
    pg <- gets w_pg ;;
    writeFileSync backupPath pg ;;
    ret backupPath
  CATCH error =>
    throw (JS.new_Error ("PostgreSQL backup failed: " +:+ JS.message error)).

Definition Z_to_string (z : Z) : string :=
  NilZero.string_of_int (Z.to_int z).

Definition newline : string := String (ascii_of_nat 10) EmptyString.

Definition csv_row (file : File) : string :=
  join "," [Z_to_string (id file);
            quoted (name file);
            hash file;
            url file;
            EmptyString;
            "pending";
            EmptyString;
            EmptyString].

(** [static async exportToCSV(db, backupDir)] *)
Definition exportToCSV (iso : string) (O : oracle) (backupDir : string)
    : M string :=
  let timestamp := getTimestamp iso in
  let backupPath := path_join backupDir (csv_mapping_name timestamp) in
  files <- DBHelper.getCloudinaryFiles O ;;
  let csvHeader :=
    "file_id,file_name,hash,original_url,new_url,status,migration_date,error_message"
    +:+ newline in
  let csvRows := map csv_row files in
  let csv := csvHeader +:+ join newline csvRows in
  writeFileSync backupPath csv ;;
  ret backupPath.

(** *** Listing the backups *)

Definition is_digit (c : ascii) : bool :=
  (48 <=? nat_of_ascii c)%nat && (nat_of_ascii c <=? 57)%nat.

Definition is_dash (c : ascii) : bool := Ascii.eqb c "-"%char.

(** [\d{4}-\d{2}-\d{2}-\d{2}-\d{2}-\d{2}], one class per character *)
Definition token_pattern : list (ascii -> bool) :=
  [is_digit; is_digit; is_digit; is_digit; is_dash;
   is_digit; is_digit; is_dash;
   is_digit; is_digit; is_dash;
   is_digit; is_digit; is_dash;
   is_digit; is_digit; is_dash;
   is_digit; is_digit].

(** The characters of [s] matched by the classes [p], when [s] starts
    with such characters. *)
Fixpoint match_classes (p : list (ascii -> bool)) (s : string)
    : option string :=
  match p with
  | [] => Some EmptyString
  | cl :: p' =>
      match s with
      | EmptyString => None
      | String c s' =>
          if cl c then
            match match_classes p' s' with
            | Some m => Some (String c m)
            | None => None
            end
          else None
      end
  end.

(** The pattern [backup-(\d{4}-...-\d{2})] tried at the start of [s]. *)
Definition token_here (s : string) : option string :=
  match JS.strip_prefix "backup-" s with
  | Some r => match_classes token_pattern r
  | None => None
  end.

(** [file.match(/backup-(...)/)]: the group of the leftmost match. *)
Fixpoint backup_token (s : string) : option string :=
  match token_here s with
  | Some t => Some t
  | None =>
      match s with
      | EmptyString => None
      | String _ s' => backup_token s'
      end
  end.

Record BackupSet := mkBackupSet {
  timestamp : string;
  files : list string
}.

(** [if (!backups.has(timestamp)) backups.set(timestamp, {...});
    backups.get(timestamp).files.push(file)] on a [Map], which keeps
    its keys in the order of their first [set]. *)
Fixpoint add_file (t file : string) (backups : list BackupSet)
    : list BackupSet :=
  match backups with
  | [] => [mkBackupSet t [file]]
  | b :: backups' =>
      if String.eqb (timestamp b) t
      then mkBackupSet (timestamp b) (files b ++ [file]) :: backups'
      else b :: add_file t file backups'
  end.

(** The body of [files.forEach]. *)
Definition visit (backups : list BackupSet) (file : string)
    : list BackupSet :=
  match backup_token file with
  | Some t => add_file t file backups
  | None => backups
  end.

(** [xs.sort(cmp)]: a stable sort; [x] goes after [y] when
    [cmp(x, y) > 0], and a comparison that yields [NaN] counts as 0. *)
Section Sort.
Context {A : Type} (cmp : A -> A -> option Z).

Definition goes_after (x y : A) : bool :=
  match cmp x y with
  | Some d => 0 <? d
  | None => false
  end.

Fixpoint insert_sorted (x : A) (l : list A) : list A :=
  match l with
  | [] => [x]
  | y :: l' =>
      if goes_after x y then y :: insert_sorted x l' else x :: l
  end.

Definition sort (l : list A) : list A := foldr insert_sorted [] l.
End Sort.

(** [(a, b) => new Date(b.timestamp) - new Date(a.timestamp)]; [date]
    is the time value the runtime gives to [new Date(s)], [None] for an
    invalid date. *)
Definition newest_first (date : string -> option Z) (a b : BackupSet)
    : option Z :=
  match date (timestamp b), date (timestamp a) with
  | Some tb, Some ta => Some (tb - ta)
  | _, _ => None
  end.

(** [static listBackups(backupDir)]; [entries] is [None] when the
    directory does not exist, else the result of [fs.readdirSync]. *)
Definition listBackups (date : string -> option Z)
    (entries : option (list string)) : list BackupSet :=
  match entries with
  | None => []
  | Some files => sort (newest_first date) (fold_left visit files [])
  end.

(** *** Restore *)

(** [static restoreSQLite(backupPath, dbPath)] *)
Definition restoreSQLite (backupPath dbPath : string) : M unit :=
  found <- existsSync backupPath ;;
  if negb found then
    throw (JS.new_Error ("Backup file not found: " +:+ backupPath))
  else
    (* Create backup of current database first *)
    live <- existsSync dbPath ;;
    (if live then
       let preRestoreBackup := dbPath +:+ ".pre-restore" in
       copyFileSync dbPath preRestoreBackup
     else ret tt) ;;
    (* Restore from backup *)
    copyFileSync backupPath dbPath.

(** [static restorePostgreSQL(backupPath, connectionString)]: [psql]
    replaces the live database by what the dump describes. *)
Definition restorePostgreSQL (exec_fault : option JS.error)
    (backupPath connectionString : string) : M unit :=
  found <- existsSync backupPath ;;
  if negb found then
    throw (JS.new_Error ("Backup file not found: " +:+ backupPath))
  else
    TRY
      emit (EvExec ("psql " +:+ quoted connectionString +:+ " < "
                    +:+ quoted backupPath)) ;;
      may_fail exec_fault ;;
      fs <- gets w_fs ;;
      match fs !! backupPath with
      | Some dump => modify (set_pg dump)
      | None => throw (enoent backupPath)
      end
    CATCH error =>
      throw (JS.new_Error
               ("PostgreSQL restore failed: " +:+ JS.message error)).

End BackupHelper.

(* ================================================================= *)
(** ** scripts/restore-from-backup.js *)

Module Restore.

(** The part of [main] that restores the database, once the backup
    [dbBackupPath] is chosen and the user has confirmed. *)
Definition restore_database (env : DBHelper.Env)
    (exec_fault : option JS.error) (dbBackupPath : string) : M unit :=
  let dbClient := DBHelper.or_else (DBHelper.DATABASE_CLIENT env) "sqlite" in
  if String.eqb dbClient "sqlite" then
    let dbPath :=
      DBHelper.or_else (DBHelper.DATABASE_FILENAME env) ".tmp/data.db" in
    BackupHelper.restoreSQLite dbBackupPath dbPath
  else
    let connectionString :=
      JS.to_string
        (if JS.truthy (DBHelper.DATABASE_PRIVATE_URL env)
         then DBHelper.DATABASE_PRIVATE_URL env
         else DBHelper.DATABASE_URL env) in
    BackupHelper.restorePostgreSQL exec_fault dbBackupPath connectionString.

(** [prompt(question)], from the line [answer] that the user types. *)
Definition prompt (answer : string) : bool :=
  String.eqb (JS.toLowerCase answer) "y"
  || String.eqb (JS.toLowerCase answer) "yes".

(** [backupArg ? backupArg.split('=')[1] : null] for
    [backupArg = args.find((arg) => arg.startsWith('--backup='))] *)
Definition requested_backup (args : list string) : option string :=
  match List.find (fun arg => JS.startsWith arg "--backup=") args with
  | Some backupArg => BackupHelper.split "="%char backupArg !! 1%nat
  | None => None
  end.

(** [f.startsWith('data.db.backup-') || f.endsWith('.sql')] *)
Definition is_db_backup (f : string) : bool :=
  JS.startsWith f "data.db.backup-" || JS.endsWith f ".sql".

Definition type_error_timestamp : JS.error :=
  {| JS.name := "TypeError";
     JS.message :=
       "Cannot read properties of undefined (reading 'timestamp')";
     JS.response_status := None; JS.http_status_code := None |}.

(** [main] from the point where [selectedBackup] is known.
    [process.exit] ends the process on the spot: the code after it is
    the other branch. *)
Definition restore_selected (env : DBHelper.Env) (O : oracle)
    (exec_fault : option JS.error) (BACKUP_DIR answer : string)
    (selectedBackup : BackupHelper.BackupSet) : M unit :=
  (* Find backup files *)
  match List.find is_db_backup (BackupHelper.files selectedBackup) with
  | None => emit (EvExit 1)
  | Some dbBackup =>
      let dbBackupPath := BackupHelper.path_join BACKUP_DIR dbBackup in
      if negb (prompt answer) then
        emit (EvExit 0)
      else
        restore_database env exec_fault dbBackupPath ;;
        (* Verify restoration *)
        db <- DBHelper.init env O ;;
        cloudinaryCount <- DBHelper.getFileCountByProvider "cloudinary" ;;
        r2Count <- DBHelper.getFileCountByProvider "aws-s3" ;;
        DBHelper.close
  end.

(** [async function main()]. [entries] is what the directory of the
    backups holds ([None] when it does not exist), [date] the time value
    the runtime gives to a time stamp, [answer] the line typed at the
    prompt. *)
Definition main (args : list string) (env : DBHelper.Env) (O : oracle)
    (exec_fault : option JS.error) (date : string -> option Z)
    (entries : option (list string)) (BACKUP_DIR answer : string)
    : M unit :=
  TRY
    (* Parse arguments *)
    let requestedBackup := requested_backup args in
    (* List available backups *)
    let backups := BackupHelper.listBackups date entries in
    if Nat.eqb (length backups) 0 then
      emit (EvExit 1)
    else
      (* Select backup *)
      if JS.truthy requestedBackup then
        match List.find
                (fun b => String.eqb (BackupHelper.timestamp b)
                                     (JS.to_string requestedBackup))
                backups with
        | None => emit (EvExit 1)
        | Some selectedBackup =>
            restore_selected env O exec_fault BACKUP_DIR answer
                             selectedBackup
        end
      else
        match backups with
        | selectedBackup :: _ =>
            restore_selected env O exec_fault BACKUP_DIR answer
                             selectedBackup
        | [] => throw type_error_timestamp
        end
  CATCH error =>
    emit (EvExit 1).

End Restore.

(* ================================================================= *)
(** ** scripts/utils/logger.js *)

Module Logger.

Definition range_error (count : Z) : JS.error :=
  {| JS.name := "RangeError";
     JS.message := "Invalid count value: " +:+ BackupHelper.Z_to_string count;
     JS.response_status := None; JS.http_status_code := None |}.

(** [s.repeat(count)] for an integer [count] *)
Definition repeat (s : string) (count : Z) : result string :=
  if count <? 0 then Throw (range_error count)
  else Ok (String.concat EmptyString (replicate (Z.to_nat count) s)).

(** [Math.round(a / b)] for integers [a] and [b] with [0 < b]: the
    nearest integer, a half going up. *)
Definition round_div (a b : Z) : Z := (2 * a + b) / (2 * b).

(** The full block of the bar, U+2588, as its three bytes. *)
Definition block : string :=
  String (ascii_of_nat 226)
    (String (ascii_of_nat 150) (String (ascii_of_nat 136) EmptyString)).

(** [createProgressBar(percentage)] for an integer [percentage] *)
Definition createProgressBar (percentage : Z) : result string :=
  let filled := round_div percentage 5 in
  let empty := 20 - filled in
  match repeat block filled with
  | Throw e => Throw e
  | Ok bar =>
      match repeat " " empty with
      | Throw e => Throw e
      | Ok gap => Ok ("[" +:+ bar +:+ gap +:+ "]")
      end
  end.

End Logger.

(* ================================================================= *)
(** ** Vocabulary of the statements *)

(** [w] after the calls [evs]. *)
Definition log (evs : list event) (w : world) : world :=
  set_trace (w_trace w ++ evs) w.

(** [w] after the calls [evs], with the table and the bucket replaced. *)
Definition touch (rows : list File) (bucket : gmap string Object)
    (evs : list event) (w : world) : world :=
  set_trace (w_trace w ++ evs) (set_bucket bucket (set_rows rows w)).

(** The destination key of a record. *)
Definition key_of (file : File) : string := hash file +:+ ext file.

(** How the source probe of [migrateFile] settles. *)
Definition probe (fl : record_faults) : result Buffer :=
  axios.respond 10000 None (src_head fl).

(** The probe says that the source object is absent. *)
Definition source_missing (fl : record_faults) : bool :=
  match probe fl with
  | Throw e => R2Uploader.is_404 (JS.response_status e)
  | Ok _ => false
  end.

(** How the [i]-th download attempt settles. *)
Definition attempt (fl : record_faults) (i : nat) : result Buffer :=
  axios.respond 60000 (Some (100 * 1024 * 1024)) (src_get fl i).

(** The calls of a download that needs all its attempts. *)
Definition download_schedule (url : string) : list event :=
  [EvGet url 60000 (100 * 1024 * 1024); EvSleep (1000 * 1);
   EvGet url 60000 (100 * 1024 * 1024); EvSleep (1000 * 2);
   EvGet url 60000 (100 * 1024 * 1024)].

Definition is_upload (e : event) : bool :=
  match e with
  | EvPutObject _ _ _ | EvMultipart _ _ _ _ _ => true
  | _ => false
  end.

Definition is_rewrite (e : event) : bool :=
  match e with EvUpdate _ _ => true | _ => false end.

Definition is_download (e : event) : bool :=
  match e with EvGet _ _ _ | EvSleep _ => true | _ => false end.

Definition is_transaction (e : event) : bool :=
  match e with EvBegin | EvCommit | EvRollback => true | _ => false end.

Definition is_save (e : event) : bool :=
  match e with EvSaveState _ => true | _ => false end.

(** The calls that only read: the two probes. *)
Definition is_probe (e : event) : bool :=
  match e with EvHead _ _ | EvHeadObject _ => true | _ => false end.

(** The calls [migrateFile] can make. *)
Definition is_transfer (e : event) : bool :=
  is_probe e || is_download e || is_upload e || is_rewrite e.

(** The states written to the state file by the calls [evs], in order. *)
Definition saved (evs : list event) : list State :=
  omap (fun e => match e with EvSaveState s => Some s | _ => None end) evs.

(** The state after the bookkeeping of a task that found the result [r]
    for [file] when [n] records were counted before. *)
Definition booked (file : File) (r : migrate_result) (n : nat) (s : State)
    : State :=
  let s1 := Migrate.update_state file r s in
  Migrate.set_statistics
    (Migrate.with_processed (S n) (statistics s1)) s1.

(** The world after that bookkeeping. *)
Definition book (file : File) (r : migrate_result) (w : world) : world :=
  let s := booked file r (w_processed w) (w_state w) in
  set_state_file (Some s)
    (log [EvSaveState s] (set_processed (S (w_processed w)) (set_state s w))).

(** The ids of a collection. *)
Definition ids (l : list entry) : list Z := map entry_id l.

(** The world at [BEGIN]. *)
Definition begun (w : world) : world :=
  set_tx (Some (w_rows w)) (log [EvBegin] w).

(** The state after the bookkeeping of the results [rs], in order, when
    [n] records were counted before. *)
Fixpoint replay (rs : list (File * migrate_result)) (n : nat) (s : State)
    : State :=
  match rs with
  | [] => s
  | (file, r) :: rs' => replay rs' (S n) (booked file r n s)
  end.

(** The states met on the way, one per result. *)
Fixpoint replays (rs : list (File * migrate_result)) (n : nat) (s : State)
    : list State :=
  match rs with
  | [] => []
  | (file, r) :: rs' =>
      booked file r n s :: replays rs' (S n) (booked file r n s)
  end.

(** The calls of a run that change nothing outside the process but the
    state file. *)
Definition is_quiet (e : event) : bool :=
  match e with
  | EvHead _ _ | EvHeadObject _ | EvSaveState _ | EvSelect | EvClose
  | EvExit _ => true
  | _ => false
  end.

Definition is_exit (e : event) : bool :=
  match e with EvExit _ => true | _ => false end.

(** The state [main] starts from in the world [w]. *)
Definition loaded (w : world) : State :=
  match w_state_file w with
  | Some s => s
  | None => Migrate.fresh_state
  end.

(** The result of [getCloudinaryFiles] in the world [w]. *)
Definition cloudinary_files (w : world) : list File :=
  DBHelper.order_by_id
    (List.filter (fun f => String.eqb (provider f) "cloudinary") (w_rows w)).

(** The state at the start of the loop of [main]. *)
Definition started (w : world) : State :=
  Migrate.set_statistics
    (Migrate.with_total_files (length (cloudinary_files w))
                              (statistics (loaded w)))
    (loaded w).

(** The state [main] writes at its end. *)
Definition finished (s : State) : State :=
  Migrate.set_run_state (Migrate.final_status s) s.

(** No id is in two collections. *)
Definition disjoint_ids (s : State) : Prop :=
  forall i,
    ~ (i ∈ ids (processed_files s) /\ i ∈ ids (failed_files s)) /\
    ~ (i ∈ ids (processed_files s) /\ i ∈ ids (skipped_files s)) /\
    ~ (i ∈ ids (failed_files s) /\ i ∈ ids (skipped_files s)).

(** The collections of [s'] extend those of [s]. *)
Definition extends (s s' : State) : Prop :=
  processed_files s `prefix_of` processed_files s' /\
  failed_files s `prefix_of` failed_files s' /\
  skipped_files s `prefix_of` skipped_files s'.

(** The sum of the three outcome counters. *)
Definition outcomes (st : Statistics) : nat :=
  (stat_success st + stat_failed st + stat_skipped st)%nat.

(** The world at the start of the loop of [main]. *)
Definition loop_world (w : world) : world :=
  set_processed 0 (set_state (started w) (log [EvSelect] w)).

(** What is known of the result [r] booked for [file]: it is [skipped]
    only when the source probe said that the object is absent, and it is
    a [success] only when the public URL of the destination could be
    built. *)
Definition result_of (u : R2Uploader.t) (O : oracle)
    (fr : File * migrate_result) : Prop :=
  (source_missing (faults_of O fr.1) = false -> status fr.2 <> skipped)
  /\ (forall e, R2Uploader.getPublicUrl u (key_of fr.1) = Throw e ->
        status fr.2 <> success).

(** No [ROLLBACK] fails on the records [files]. *)
Definition rollback_works (O : oracle) (files : list File) : Prop :=
  forall f, f ∈ files -> db_rollback_fault (faults_of O f) = None.

(** [i] is in none of the collections of [s]. *)
Definition unseen (i : Z) (s : State) : Prop :=
  (i ∉ ids (processed_files s)) /\ (i ∉ ids (failed_files s))
  /\ (i ∉ ids (skipped_files s)).

(** [fl] with another answer to the source probe. *)
Definition with_src_head (r : http_response) (fl : record_faults)
    : record_faults :=
  mkFaults r (src_get fl) (r2_head_fault fl) (r2_put_fault fl)
           (db_begin_fault fl) (db_update_fault fl) (db_commit_fault fl)
           (db_rollback_fault fl).

Definition is_rollback (e : event) : bool :=
  match e with EvRollback => true | _ => false end.

(** The result of [migrateFile] for a record whose source is absent. *)
Definition skipped_404 : migrate_result :=
  Skipped "File not found on Cloudinary (404)".

(** The endpoint of [env] cannot give a public URL: no public domain is
    configured and the endpoint is undefined or does not match the
    pattern of [extractAccountId]. *)
Definition endpoint_unusable (env : DBHelper.Env) : Prop :=
  JS.truthy (DBHelper.R2_PUBLIC_URL env) = false
  /\ match DBHelper.AWS_ENDPOINT env with
     | Some s => R2Uploader.account_match s = None
     | None => True
     end.

(** [c] occurs in [s]. *)
Fixpoint has_char (c : ascii) (s : string) : bool :=
  match s with
  | EmptyString => false
  | String a s' => Ascii.eqb a c || has_char c s'
  end.

(** The groups [gs] are those of the names [seen]: one group per token,
    holding the names with that token and no other. *)
Definition groups_of (seen : list string) (gs : list BackupHelper.BackupSet) : Prop :=
  NoDup (map BackupHelper.timestamp gs)
  /\ (forall g file, g ∈ gs -> file ∈ BackupHelper.files g ->
        file ∈ seen /\ BackupHelper.backup_token file = Some (BackupHelper.timestamp g))
  /\ (forall file t, file ∈ seen -> BackupHelper.backup_token file = Some t ->
        exists g, g ∈ gs /\ BackupHelper.timestamp g = t /\ file ∈ BackupHelper.files g)
  /\ (forall g, g ∈ gs -> BackupHelper.files g <> []).

Definition is_copy (e : event) : bool :=
  match e with EvCopyFile _ _ => true | _ => false end.

(** *** Downloads *)

(** How the request of rank [i] settles under the limits of
    [downloadFromCloudinary]. *)
Definition settles (answers : nat -> http_response) (i : nat)
    : result Buffer :=
  axios.respond 60000 (Some (100 * 1024 * 1024)) (answers i).

(** [k] rejected requests from the rank [i] on, each followed by its
    pause. *)
Definition pauses_from (url : string) (i k : nat) : list event :=
  flat_map (fun j => [EvGet url 60000 (100 * 1024 * 1024);
                      EvSleep (1000 * (Z.of_nat j + 1))]) (seq i k).

(** The calls of a download whose first [k] requests are rejected and
    whose request of rank [k] is the last one. *)
Definition backoff (url : string) (k : nat) : list event :=
  pauses_from url 0 k ++ [EvGet url 60000 (100 * 1024 * 1024)].

(** *** The database *)

(** The backend of [env] is one of the two the scripts know. *)
Definition known_client (env : DBHelper.Env) : bool :=
  String.eqb (DBHelper.or_else (DBHelper.DATABASE_CLIENT env) "sqlite")
             "sqlite"
  || String.eqb (DBHelper.or_else (DBHelper.DATABASE_CLIENT env) "sqlite")
                "postgres".

(** The rows are in the order of their ids. *)
Definition by_id (l : list File) : Prop :=
  StronglySorted (fun a b => id a <= id b) l.

(** The row [getFileById] finds for [fileId] in [w]. *)
Definition row_of (fileId : Z) (w : world) : option File :=
  List.find (fun f => id f =? fileId) (w_rows w).

(** The number [getFileCountByProvider] gives for [p] over [rows]. *)
Definition count_of (p : string) (rows : list File) : nat :=
  length (List.filter (fun f => String.eqb (provider f) p) rows).

(** The id of [f] is not [fileId]. *)
Definition other_than (fileId : Z) (f : File) : bool := negb (id f =? fileId).

(** *** The state and the stores *)

(** The outcome counters of [s] are the lengths of its collections. *)
Definition counted (s : State) : Prop :=
  stat_success (statistics s) = length (processed_files s)
  /\ stat_failed (statistics s) = length (failed_files s)
  /\ stat_skipped (statistics s) = length (skipped_files s).

(** *** Uploads *)

(** The one call an upload of [buffer] makes. *)
Definition upload_call (buffer : Buffer) (key contentType : string) : event :=
  if 5 * 1024 * 1024 <? buffer_length buffer
  then EvMultipart key (buffer_length buffer) contentType (5 * 1024 * 1024) 4
  else EvPutObject key (buffer_length buffer) contentType.

(** The error [upload] throws for the cause [e]. *)
Definition upload_failure (buffer : Buffer) (e : JS.error) : JS.error :=
  JS.new_Error
    ("Failed to upload to R2: "
     +:+ (if 5 * 1024 * 1024 <? buffer_length buffer
          then "Failed multipart upload to R2: " +:+ JS.message e
          else JS.message e)).

(** *** Backups *)

(** [s] with each character replaced by its image under [f]. *)
Fixpoint map_chars (f : ascii -> ascii) (s : string) : string :=
  match s with
  | EmptyString => EmptyString
  | String c s' => String (f c) (map_chars f s')
  end.

(** What [getTimestamp] makes of a character of the clock reading. *)
Definition dashed (c : ascii) : ascii :=
  if Ascii.eqb c ":"%char || Ascii.eqb c "."%char || Ascii.eqb c "T"%char
  then "-"%char else c.

(** The line feed. *)
Definition LF : ascii := ascii_of_nat 10.

(** The first line of the mapping table. *)
Definition csv_header : string :=
  "file_id,file_name,hash,original_url,new_url,status,migration_date,error_message".

(** No field of [f] that goes into the mapping table holds a line
    feed. *)
Definition one_line (f : File) : Prop :=
  has_char LF (name f) = false /\ has_char LF (hash f) = false
  /\ has_char LF (url f) = false.

(** The name [file] carries the token [t]. *)
Definition carries (t file : string) : bool :=
  match BackupHelper.backup_token file with
  | Some t' => String.eqb t' t
  | None => false
  end.

(** The group [g] holds the names of [seen] that carry its token, in the
    order of [seen]. *)
Definition filed (seen : list string) (g : BackupHelper.BackupSet) : Prop :=
  BackupHelper.files g
  = List.filter (carries (BackupHelper.timestamp g)) seen.

(** *** The progress bar *)

(** [count] copies of [s] in a row. *)
Definition cells (s : string) (count : Z) : string :=
  String.concat EmptyString (replicate (Z.to_nat count) s).

(** *** Tasks in flight *)

(** The calls of a task other than the writing of the state. *)
Definition is_work (e : event) : bool := is_transfer e || is_transaction e.

(** [w'] is [w] after calls of a task that leave the variables of
    [main] and the state file alone; on a dry run these calls are probes
    and the table, the bucket and the transaction are as they were. *)
Definition calm (d : bool) (w w' : world) : Prop :=
  w_state w' = w_state w
  /\ w_processed w' = w_processed w
  /\ w_state_file w' = w_state_file w
  /\ exists evs,
       w_trace w' = w_trace w ++ evs
       /\ forallb is_work evs = true
       /\ (d = true ->
           forallb is_probe evs = true
           /\ w_rows w' = w_rows w /\ w_bucket w' = w_bucket w
           /\ w_tx w' = w_tx w).

(** Every call of [s] is calm, whatever happens between its calls, and
    what [s] settles with satisfies [Q]. *)
Fixpoint calmly {A} (d : bool) (Q : result A -> Prop) (s : async A) : Prop :=
  match s with
  | Settled r => Q r
  | Await c k => forall w, calm d w (c w).2 /\ calmly d Q (k (c w).1)
  end.

(** [s] is what is left of the task of [file] before its bookkeeping:
    calm calls, then either the bookkeeping of a result that satisfies
    [P], after which the task is over, or a rejection, which [Rj]
    allows. *)
Fixpoint working (d : bool) (P : migrate_result -> Prop) (Rj : Prop)
    (file : File) (s : async unit) : Prop :=
  match s with
  | Settled (Ok _) => False
  | Settled (Throw _) => Rj
  | Await c k =>
      (forall w, calm d w (c w).2 /\ working d P Rj file (k (c w).1))
      \/ (exists r, P r /\
            forall w, (c w).2 = book file r w /\ k (c w).1 = Settled (Ok tt))
  end.

(** The task of [file] can reject: the run is a real one and the
    [ROLLBACK] of the record fails. *)
Definition may_reject (O : oracle) (d : bool) (file : File) : Prop :=
  d = false /\ db_rollback_fault (faults_of O file) <> None.

(** A task in flight: the task of the record [f] before its
    bookkeeping, or a task that is over. *)
Definition in_flight (u : R2Uploader.t) (O : oracle) (d : bool)
    (tag : option File) (s : async unit) : Prop :=
  match tag with
  | Some f => working d (fun r => result_of u O (f, r)) (may_reject O d f) f s
  | None => s = Settled (Ok tt)
  end.

(** The records of the tasks [tags] that are not booked yet. *)
Definition pending (tags : list (option File)) : list File :=
  omap (fun tag => tag) tags.

(** From [w] the calls [evs] lead to [w'], and the results [rs] are
    booked on the way, in this order. *)
Definition leads (d : bool) (w : world) (evs : list event)
    (rs : list (File * migrate_result)) (w' : world) : Prop :=
  w_trace w' = w_trace w ++ evs
  /\ (d = true ->
      forallb is_quiet evs = true
      /\ w_rows w' = w_rows w /\ w_bucket w' = w_bucket w
      /\ w_tx w' = w_tx w)
  /\ forallb (fun e => negb (is_exit e)) evs = true
  /\ w_state w' = replay rs (w_processed w) (w_state w)
  /\ w_processed w' = (w_processed w + length rs)%nat
  /\ saved evs = replays rs (w_processed w) (w_state w)
  /\ (rs = [] -> w_state_file w' = w_state_file w)
  /\ (rs <> [] -> w_state_file w' = Some (w_state w')).

(* ================================================================= *)
(** ** Sample data *)

Definition photo : File :=
  mkFile 1 "a.png" "abc" ".png" "image/png" 10 "http://src/abc.png"
         "cloudinary" None None.

Definition poster : File :=
  mkFile 2 "b.png" "def" ".png" "image/png" 20 "http://src/def.png"
         "cloudinary" None None.

(** An environment with a well-formed endpoint and no public domain. *)
Definition sample_env : DBHelper.Env :=
  DBHelper.mkEnv None None None None (Some "media")
                 (Some "https://acct.r2.cloudflarestorage.com") None.

(** An environment whose endpoint does not have the expected form. *)
Definition odd_env : DBHelper.Env :=
  DBHelper.mkEnv None None None None (Some "media")
                 (Some "https://acct.eu.r2.cloudflarestorage.com") None.

(** The PostgreSQL backend. *)
Definition pg_env : DBHelper.Env :=
  DBHelper.mkEnv (Some "postgres") None None (Some "postgres://db")
                 (Some "media")
                 (Some "https://acct.r2.cloudflarestorage.com") None.

Definition all_well : record_faults :=
  mkFaults (Responds 0 5) (fun _ => Responds 10 5)
           None None None None None None.

Definition no_download : record_faults :=
  mkFaults (Responds 0 5) (fun _ => Fails (JS.new_Error "socket hang up"))
           None None None None None None.

Definition source_gone : record_faults :=
  mkFaults (Fails (JS.Error "AxiosError"
                            "Request failed with status code 404"
                            (Some 404) None))
           (fun _ => Responds 10 5)
           None None None None None None.

Definition probe_times_out : record_faults :=
  mkFaults (Responds 0 20000) (fun _ => Responds 10 5)
           None None None None None None.

(** The outside world answers every record with [fl]. *)
Definition always (fl : record_faults) : oracle :=
  mkOracle None None (fun _ => fl) [].

(** A world with the table [rows], an empty bucket and no state file. *)
Definition new_world (rows : list File) : world :=
  mkWorld rows None ∅ None Migrate.fresh_state 0 ∅ EmptyString [].

(** The world after a first run in which everything works. *)
Definition after_first_run : world :=
  (Migrate.main [] sample_env (always all_well) (new_world [photo])).2.

(** The same world once a second record has been added to the table. *)
Definition second_batch : world :=
  set_rows (w_rows after_first_run ++ [poster]) after_first_run.

(** The world after a first run in which the download fails. *)
Definition after_failed_run : world :=
  (Migrate.main [] sample_env (always no_download) (new_world [photo])).2.

(** The world when that first run is stopped between the bookkeeping
    of its record and the writing of its final status: the table and the
    bucket are as the run left them, the state file is the one written
    by the bookkeeping. *)
Definition stopped_run : world :=
  set_state_file (head (saved (w_trace after_first_run))) after_first_run.

(** The world after a dry run over one record. *)
Definition after_dry_run : world :=
  (Migrate.main ["--dry-run"] sample_env (always all_well)
                (new_world [photo])).2.

(** A clock reading, and the directory of the backup made at that
    time. *)
Definition sample_iso : string := "2025-12-23T10:00:00.123Z".

Definition sample_dir : list string :=
  [BackupHelper.sqlite_backup_name (BackupHelper.getTimestamp sample_iso);
   BackupHelper.json_backup_name (BackupHelper.getTimestamp sample_iso);
   BackupHelper.csv_mapping_name (BackupHelper.getTimestamp sample_iso);
   BackupHelper.report_name (BackupHelper.getTimestamp sample_iso)].

(** The time value of [new Date(s)] for a token [s] of [listBackups]:
    the form YYYY-MM-DD-HH-MM-SS is not one that [new Date] reads, and
    the date is invalid. *)
Definition invalid_date (s : string) : option Z := None.

(** A world with a live SQLite database and a backup of it. *)
Definition sqlite_world : world :=
  mkWorld [] None ∅ None Migrate.fresh_state 0
    (<[".tmp/data.db" := "live rows"]>
       (<["backups/data.db.backup-2025-12-23-10-00-00-123Z"
          := "rows of 23 December"]> ∅))
    EmptyString [].

(** A world with a live PostgreSQL database and a dump of it. *)
Definition pg_world : world :=
  mkWorld [] None ∅ None Migrate.fresh_state 0
    (<["backups/backup-2025-12-23-10-00-00-123Z.sql"
       := "rows of 23 December"]> ∅)
    "live rows" [].

(** A source that refuses the connection. *)
Definition refused : http_response := Fails (JS.new_Error "socket hang up").

(** An environment that names a backend the scripts do not know. *)
Definition mongo_env : DBHelper.Env :=
  DBHelper.mkEnv (Some "mongo") None None None (Some "media")
                 (Some "https://acct.r2.cloudflarestorage.com") None.

(** The connection is lost before the record 2: its [BEGIN] and its
    [ROLLBACK] fail. *)
Definition connection_lost : JS.error := JS.new_Error "connection terminated".

(** The object of the record 2 is gone from the source. *)
Definition gone_at_second : oracle :=
  mkOracle None None (fun f => if id f =? 2 then source_gone else all_well) [].

Definition lost_at_second : oracle :=
  mkOracle None None
    (fun f => if id f =? 2
              then mkFaults (Responds 0 5) (fun _ => Responds 10 5) None None
                            (Some connection_lost) None None
                            (Some connection_lost)
              else all_well)
    [].

(** A directory with the snapshots of two days. *)
Definition two_backups : list string :=
  ["data.db.backup-2025-12-24-09-00-00-000Z";
   "cloudinary-backup-2025-12-23-10-00-00-123Z.json";
   "data.db.backup-2025-12-23-10-00-00-123Z"].

(** A directory with the snapshots of two days, as [readdirSync] lists
    them, and a world that holds them beside the live database. *)
Definition two_days : list string :=
  ["data.db.backup-2025-12-23-10-00-00-123Z";
   "data.db.backup-2025-12-24-09-00-00-000Z"].

Definition two_days_world : world :=
  mkWorld [] None ∅ None Migrate.fresh_state 0
    (<[".tmp/data.db" := "live rows"]>
       (<["backups/data.db.backup-2025-12-23-10-00-00-123Z"
          := "rows of 23 December"]>
          (<["backups/data.db.backup-2025-12-24-09-00-00-000Z"
             := "rows of 24 December"]> ∅)))
    EmptyString [].

(** What SQLite answers on the one connection of a run when the tasks
    of two records are in flight: the [BEGIN] of the record 2 is
    refused, a transaction being open; the [ROLLBACK] of its task closes
    that transaction; the [COMMIT] and the [ROLLBACK] of the record 1
    then find no transaction. The turns are those of the event loop: the
    two tasks start, the probe of the record 1 leaves, the task of the
    record 2 rolls back and books its failure, and the task of the
    record 1 goes on alone. *)
Definition one_connection : oracle :=
  mkOracle None None
    (fun f => if id f =? 2
              then mkFaults (Responds 0 5) (fun _ => Responds 10 5) None None
                     (Some (JS.new_Error
                        "cannot start a transaction within a transaction"))
                     None None None
              else mkFaults (Responds 0 5) (fun _ => Responds 10 5) None None
                     None None
                     (Some (JS.new_Error
                        "cannot commit - no transaction is active"))
                     (Some (JS.new_Error
                        "cannot rollback - no transaction is active")))
    [task_turn 0; task_turn 1; task_turn 0; task_turn 1; task_turn 1].

(** A directory in which the files of a backup are apart. *)
Definition crowded_dir : list string :=
  ["cloudinary-backup-2025-12-23-10-00-00-123Z.json";
   "data.db.backup-2025-12-24-09-00-00-000Z";
   "notes.txt";
   "data.db.backup-2025-12-23-10-00-00-123Z";
   "backup-2025-12-23-10-00-00-950Z.sql"].

(* ================================================================= *)
(** ** Running the monad *)

Ltac by_computation :=
  cbv zeta;
  repeat match goal with |- _ /\ _ => split end;
  vm_compute; reflexivity.

Ltac files_run :=
  repeat first
    [ progress cbn -[lookup insert]
    | progress unfold bind, ret, throw, try_catch, gets, modify, may_fail ].

Lemma emit_run e w : emit e w = (Ok tt, log [e] w).
Proof. reflexivity. Qed.

Section WorldAlgebra.
Context (w : world) (r r' : list File) (b b' : gmap string Object)
        (e e' : list event).

Lemma log_log : log e' (log e w) = log (e ++ e') w.
Proof. unfold log, set_trace; cbn. by rewrite app_assoc. Qed.
Lemma touch_log : touch r b e' (log e w) = touch r b (e ++ e') w.
Proof. unfold touch, log, set_trace, set_bucket, set_rows; cbn. by rewrite app_assoc. Qed.
Lemma log_touch : log e' (touch r b e w) = touch r b (e ++ e') w.
Proof. unfold touch, log, set_trace, set_bucket, set_rows; cbn. by rewrite app_assoc. Qed.
Lemma touch_touch : touch r' b' e' (touch r b e w) = touch r' b' (e ++ e') w.
Proof. unfold touch, log, set_trace, set_bucket, set_rows; cbn. by rewrite app_assoc. Qed.
Lemma touch_same : log e w = touch (w_rows w) (w_bucket w) e w.
Proof. reflexivity. Qed.
Lemma log_nil : log [] w = w.
Proof. destruct w. unfold log, set_trace. cbn. by rewrite app_nil_r. Qed.

Lemma set_bucket_touch : set_bucket b w = touch (w_rows w) b [] w.
Proof. destruct w. unfold touch, set_trace, set_bucket, set_rows; cbn. by rewrite app_nil_r. Qed.
Lemma set_rows_touch : set_rows r w = touch r (w_bucket w) [] w.
Proof. destruct w. unfold touch, set_trace, set_bucket, set_rows; cbn. by rewrite app_nil_r. Qed.

Lemma rows_log : w_rows (log e w) = w_rows w. Proof. reflexivity. Qed.
Lemma bucket_log : w_bucket (log e w) = w_bucket w. Proof. reflexivity. Qed.
Lemma trace_log : w_trace (log e w) = w_trace w ++ e. Proof. reflexivity. Qed.
Lemma rows_touch : w_rows (touch r b e w) = r. Proof. reflexivity. Qed.
Lemma bucket_touch : w_bucket (touch r b e w) = b. Proof. reflexivity. Qed.
Lemma trace_touch : w_trace (touch r b e w) = w_trace w ++ e. Proof. reflexivity. Qed.
End WorldAlgebra.

Create Rewrite HintDb world.
#[local] Hint Rewrite log_log touch_log log_touch touch_touch
  set_bucket_touch set_rows_touch
  rows_log bucket_log rows_touch bucket_touch : world.
#[local] Hint Rewrite app_nil_r : world.

Ltac run :=
  repeat first
    [ progress cbn -[Z.mul Z.ltb String.append lookup insert log touch emit]
    | progress unfold bind, ret, throw, try_catch, gets, modify, may_fail,
                      axios.settle, R2Uploader.lift
    | rewrite emit_run
    | progress autorewrite with world ].

(** *** The leaves *)

Lemma head_run url t r w :
  axios.head url t r w = (axios.respond t None r, log [EvHead url t] w).
Proof. reflexivity. Qed.

Lemma fileExists_run fl key w :
  exists res,
    R2Uploader.fileExists fl key w = (res, log [EvHeadObject key] w) /\
    (res = Ok true -> is_Some (w_bucket w !! key)) /\
    (r2_head_fault fl = None ->
     res = Ok (match w_bucket w !! key with Some _ => true | None => false end)).
Proof.
  unfold R2Uploader.fileExists, R2Uploader.send_head_object.
  run.
  destruct (r2_head_fault fl) as [e|]; run.
  - destruct (_ || _); eexists; (split; [reflexivity|]); split; congruence.
  - destruct (w_bucket w !! key) eqn:E; run;
      eexists; (split; [reflexivity|]); split; eauto; congruence.
Qed.

Lemma get_run url t m r w :
  axios.get url t m r w = (axios.respond t (Some m) r, log [EvGet url t m] w).
Proof. reflexivity. Qed.

Lemma download_run url fl w :
  exists k res,
    Migrate.downloadFromCloudinary url (src_get fl) 3 w
    = (res, log (take (2 * k - 1) (download_schedule url)) w) /\
    (1 <= k <= 3)%nat /\
    (forall i, (i < k - 1)%nat -> exists e, attempt fl i = Throw e) /\
    match attempt fl (k - 1) with
    | Ok b => res = Ok (Some b)
    | Throw e =>
        k = 3%nat /\
        res = Throw (JS.new_Error
                       ("Download failed after 3 retries: " +:+ JS.message e))
    end.
Proof.
  unfold Migrate.downloadFromCloudinary, Migrate.download_loop, attempt, axios.get.
  run.
  destruct (axios.respond _ _ (src_get fl 0%nat)) as [b|e] eqn:E0; run.
  { exists 1%nat. eexists. split; [reflexivity|]. split; [lia|].
    split; [intros; lia|]. cbn. rewrite E0. reflexivity. }
  destruct (axios.respond _ _ (src_get fl 1%nat)) as [b|e'] eqn:E1; run.
  { exists 2%nat. eexists. split; [reflexivity|]. split; [lia|].
    split; [|cbn; rewrite E1; reflexivity].
    intros i Hi. assert (i = 0%nat) as -> by lia. eauto. }
  exists 3%nat.
  destruct (axios.respond _ _ (src_get fl 2%nat)) as [b|e''] eqn:E2; run.
  all: eexists; split; [reflexivity|]; split; [lia|]; split;
    [|cbn; rewrite E2; auto].
  all: intros i Hi; assert (i = 0 \/ i = 1)%nat as [-> | ->] by lia; eauto.
Qed.

Lemma upload_run u fl b key ct w :
  exists res bucket ev,
    R2Uploader.upload u fl b key ct w = (res, touch (w_rows w) bucket [ev] w) /\
    is_upload ev = true /\
    (forall url, res = Ok url ->
       R2Uploader.getPublicUrl u key = Ok url /\ is_Some (bucket !! key)).
Proof.
  unfold R2Uploader.upload, R2Uploader.multipartUpload. run.
  destruct (_ <? buffer_length b); run.
  all: destruct (r2_put_fault fl); run.
  all: try destruct (R2Uploader.getPublicUrl u key) eqn:Eg; run.
  all: do 3 eexists; (split; [reflexivity|]); (split; [reflexivity|]).
  all: intros url [= <-] || (intros url Hu; discriminate Hu).
  all: split; [reflexivity|]; rewrite lookup_insert_eq; eauto.
Qed.

Lemma update_run fl i u w :
  DBHelper.updateFileToR2 fl i u w
  = match db_update_fault fl with
    | Some e => (Throw e, log [EvUpdate i u] w)
    | None => (Ok tt, touch (map (DBHelper.to_r2 i u) (w_rows w)) (w_bucket w)
                            [EvUpdate i u] w)
    end.
Proof.
  unfold DBHelper.updateFileToR2. run.
  destruct (db_update_fault fl); reflexivity.
Qed.

Lemma schedule_is_download n url :
  forallb is_download (take n (download_schedule url)) = true.
Proof. do 6 (destruct n as [|n]; [reflexivity|]). reflexivity. Qed.

Lemma schedule_is_transfer n url :
  forallb is_transfer (take n (download_schedule url)) = true.
Proof. do 6 (destruct n as [|n]; [reflexivity|]). reflexivity. Qed.

Lemma upload_is_transfer e : is_upload e = true -> is_transfer e = true.
Proof. destruct e; try discriminate; reflexivity. Qed.

(** *** [migrateFile] *)

Ltac step :=
  repeat first
    [ progress cbn -[Z.mul Z.ltb String.append lookup insert log touch emit Nat.mul Nat.sub
                     R2Uploader.fileExists Migrate.downloadFromCloudinary
                     R2Uploader.upload DBHelper.updateFileToR2 axios.head
                     R2Uploader.getPublicUrl]
    | progress unfold bind, ret, throw, try_catch, gets, modify, may_fail,
                      axios.settle, R2Uploader.lift
    | progress autorewrite with world ].

Ltac use_leaf :=
  match goal with
  | |- context [axios.head ?a ?b ?c ?w] => rewrite (head_run a b c w)
  | |- context [R2Uploader.fileExists ?fl ?k ?w] =>
      let res := fresh "found" in
      let E := fresh "Hexists" in
      destruct (fileExists_run fl k w) as (res & E & ? & ?);
      rewrite E; clear E;
      destruct res as [[|]|?]
  | |- context [Migrate.downloadFromCloudinary ?url (src_get ?fl) 3 ?w] =>
      let k := fresh "k" in
      let res := fresh "buffer" in
      let E := fresh "Hdl" in
      destruct (download_run url fl w) as (k & res & E & ? & ? & ?);
      rewrite E; clear E;
      destruct res as [[?|]|?]
  | |- context [R2Uploader.upload ?u ?fl ?b ?k ?c ?w] =>
      let res := fresh "uploaded" in
      let E := fresh "Hup" in
      destruct (upload_run u fl b k c w) as (res & ? & ? & E & ? & ?);
      rewrite E; clear E;
      destruct res as [?|?]
  | |- context [DBHelper.updateFileToR2 ?fl ?i ?u ?w] =>
      rewrite (update_run fl i u w);
      destruct (db_update_fault fl)
  end.

Ltac as_touch :=
  autorewrite with world in *;
  try match goal with
      | |- context [(_, log ?e ?w)] => rewrite (touch_same w e)
      end.

Lemma migrateFile_run file u fl dryRun w :
  exists r rows bucket evs,
    Migrate.migrateFile file u fl dryRun w = (Ok r, touch rows bucket evs w)
    /\ forallb is_transfer evs = true
    /\ (status r <> success -> rows = w_rows w)
    /\ (dryRun = true ->
        rows = w_rows w /\ bucket = w_bucket w /\ forallb is_probe evs = true)
    /\ (dryRun = false -> forall o nu sz, r = Success o nu sz ->
        rows = map (DBHelper.to_r2 (id file) nu) (w_rows w)
        /\ is_Some (bucket !! key_of file)
        /\ R2Uploader.getPublicUrl u (key_of file) = Ok nu)
    /\ (source_missing fl = true ->
        r = Skipped "File not found on Cloudinary (404)"
        /\ evs = [EvHead (url file) 10000]
        /\ rows = w_rows w /\ bucket = w_bucket w)
    /\ (source_missing fl = false -> status r <> skipped)
    /\ (forall e, R2Uploader.getPublicUrl u (key_of file) = Throw e ->
        status r <> success).
Proof.
  unfold Migrate.migrateFile, source_missing, probe, key_of.
  step. use_leaf. step.
  destruct (axios.respond 10000 None (src_head fl)) as [?|e] eqn:Eh; step.
  2: destruct (R2Uploader.is_404 (JS.response_status e)) eqn:E404; step.
  all: try (use_leaf; step).
  all: destruct dryRun; step.
  all: try (destruct (R2Uploader.getPublicUrl u (hash file +:+ ext file)) eqn:Eg; step).
  all: repeat (use_leaf; step).
  all: try match goal with
         | H : forall url, Ok ?x = Ok url -> _ |- _ =>
             destruct (H x eq_refl); clear H
         end.
  all: as_touch.
  all: do 4 eexists; (split; [reflexivity|]).
  all: repeat first
         [ progress cbn [forallb is_transfer is_probe is_download is_upload
                         is_rewrite orb andb status app]
         | rewrite forallb_app
         | rewrite schedule_is_transfer
         | match goal with
           | H : is_upload ?e = true |- _ =>
               rewrite (upload_is_transfer e H)
           end ].
  all: repeat split; intros; try congruence; try discriminate.
  all: try match goal with
         | H : Success _ _ _ = Success _ _ _ |- _ => injection H as <- <- <-
         end.
  all: try reflexivity; try assumption; try congruence; eauto.
Qed.

(** *** The task of a record and the loop *)

Lemma rollback_run fl w :
  DBHelper.rollback fl w =
  match db_rollback_fault fl with
  | Some e => (Throw e, log [EvRollback] w)
  | None => (Ok tt, DBHelper.rolled_back (log [EvRollback] w))
  end.
Proof. unfold DBHelper.rollback. run. destruct (db_rollback_fault fl); reflexivity. Qed.

(** The task of a dry run. *)
Lemma task_dry u O file w :
  exists r evs,
    Migrate.migrateFile file u (faults_of O file) true w = (Ok r, log evs w)
    /\ forallb is_probe evs = true
    /\ (source_missing (faults_of O file) = true ->
        r = Skipped "File not found on Cloudinary (404)"
        /\ evs = [EvHead (url file) 10000])
    /\ (source_missing (faults_of O file) = false -> status r <> skipped)
    /\ Migrate.task u O true file w = (Ok tt, book file r (log evs w)).
Proof.
  destruct (migrateFile_run file u (faults_of O file) true w)
    as (r & rows & bucket & evs & E & _ & _ & Hdry & _ & Hmiss & Hfound & _).
  destruct (Hdry eq_refl) as (-> & -> & Hprobe).
  rewrite <- touch_same in E.
  exists r, evs. split; [assumption|]. split; [assumption|].
  split; [intros H; destruct (Hmiss H) as (? & ? & _); auto|].
  split; [assumption|].
  unfold Migrate.task. cbn [negb]. 
  unfold try_catch, bind at 1 2. unfold ret at 1. unfold bind at 1. rewrite E.
  unfold ret at 1. unfold bind at 1.
  reflexivity.
Qed.

Lemma begin_run fl w :
  DBHelper.beginTransaction fl w =
  match db_begin_fault fl with
  | Some e => (Throw e, log [EvBegin] w)
  | None => (Ok tt, begun w)
  end.
Proof. unfold DBHelper.beginTransaction. run. destruct (db_begin_fault fl); reflexivity. Qed.

Lemma commit_run fl w :
  DBHelper.commit fl w =
  match db_commit_fault fl with
  | Some e => (Throw e, log [EvCommit] w)
  | None => (Ok tt, set_tx None (log [EvCommit] w))
  end.
Proof. unfold DBHelper.commit. run. destruct (db_commit_fault fl); reflexivity. Qed.

Lemma task_real u O file w :
  exists r rows bucket evs,
    Migrate.migrateFile file u (faults_of O file) false (begun w)
    = (Ok r, touch rows bucket evs (begun w))
    /\ forallb is_transfer evs = true
    /\ (status r <> success -> rows = w_rows w)
    /\ (forall o nu sz, r = Success o nu sz ->
        rows = map (DBHelper.to_r2 (id file) nu) (w_rows w)
        /\ is_Some (bucket !! key_of file)
        /\ R2Uploader.getPublicUrl u (key_of file) = Ok nu)
    /\ (source_missing (faults_of O file) = true ->
        r = Skipped "File not found on Cloudinary (404)"
        /\ evs = [EvHead (url file) 10000]
        /\ bucket = w_bucket w)
    /\ (source_missing (faults_of O file) = false -> status r <> skipped)
    /\ (forall e, R2Uploader.getPublicUrl u (key_of file) = Throw e ->
        status r <> success)
    /\ Migrate.task u O false file w =
       match db_begin_fault (faults_of O file) with
       | Some e =>
           match db_rollback_fault (faults_of O file) with
           | Some e' => (Throw e', log [EvBegin; EvRollback] w)
           | None =>
               (Ok tt, book file (Failed (JS.message e) None)
                         (DBHelper.rolled_back (log [EvBegin; EvRollback] w)))
           end
       | None =>
           let w2 := touch rows bucket evs (begun w) in
           match db_commit_fault (faults_of O file) with
           | None => (Ok tt, book file r (set_tx None (log [EvCommit] w2)))
           | Some e =>
               match db_rollback_fault (faults_of O file) with
               | Some e' => (Throw e', log [EvCommit; EvRollback] w2)
               | None =>
                   (Ok tt, book file (Failed (JS.message e) None)
                             (DBHelper.rolled_back
                                (log [EvCommit; EvRollback] w2)))
               end
           end
       end.
Proof.
  destruct (migrateFile_run file u (faults_of O file) false (begun w))
    as (r & rows & bucket & evs & E & Htr & Hns & _ & Hreal & Hmiss & Hfound & Hbad).
  exists r, rows, bucket, evs.
  split; [assumption|]. split; [assumption|]. split; [assumption|].
  split; [exact (Hreal eq_refl)|].
  split; [intros H; destruct (Hmiss H) as (? & ? & ? & ?); auto|].
  split; [assumption|]. split; [assumption|].
  unfold Migrate.task. cbn [negb].
  unfold try_catch at 1. unfold bind at 1. rewrite begin_run.
  destruct (db_begin_fault (faults_of O file)) as [e|].
  - unfold bind at 1. rewrite rollback_run.
    destruct (db_rollback_fault (faults_of O file)); [by rewrite log_log|].
    rewrite log_log. reflexivity.
  - unfold bind at 1. rewrite E.
    unfold bind at 1. rewrite commit_run.
    destruct (db_commit_fault (faults_of O file)) as [e|].
    + unfold bind at 1. rewrite rollback_run.
      destruct (db_rollback_fault (faults_of O file)); rewrite log_log; reflexivity.
    + reflexivity.
Qed.

Lemma saved_app a b : saved (a ++ b) = saved a ++ saved b.
Proof. unfold saved. apply omap_app. Qed.

Lemma probe_is_quiet evs :
  forallb is_probe evs = true -> forallb is_quiet evs = true.
Proof.
  induction evs as [|e evs IH]; [reflexivity|].
  cbn [forallb]. intros [He Hr]%andb_true_iff.
  rewrite (IH Hr). destruct e; try discriminate He; reflexivity.
Qed.

(** *** Calm calls *)

Lemma work_no_save evs : forallb is_work evs = true -> saved evs = [].
Proof.
  induction evs as [|e evs IH]; [reflexivity|].
  cbn [forallb]. intros [He Hr]%andb_true_iff.
  destruct e; try discriminate He; cbn; auto.
Qed.

Lemma work_no_exit evs :
  forallb is_work evs = true ->
  forallb (fun e => negb (is_exit e)) evs = true.
Proof.
  induction evs as [|e evs IH]; [reflexivity|].
  cbn [forallb]. intros [He Hr]%andb_true_iff.
  rewrite (IH Hr). destruct e; try discriminate He; reflexivity.
Qed.

Lemma probe_is_work evs :
  forallb is_probe evs = true -> forallb is_work evs = true.
Proof.
  induction evs as [|e evs IH]; [reflexivity|].
  cbn [forallb]. intros [He Hr]%andb_true_iff.
  rewrite (IH Hr). destruct e; try discriminate He; reflexivity.
Qed.

Lemma calm_probe d evs w :
  forallb is_probe evs = true -> calm d w (log evs w).
Proof.
  intros Hp. repeat split. exists evs. split; [reflexivity|].
  split; [by apply probe_is_work|]. done.
Qed.

Lemma calm_real w w' evs :
  w_state w' = w_state w -> w_processed w' = w_processed w ->
  w_state_file w' = w_state_file w ->
  w_trace w' = w_trace w ++ evs -> forallb is_work evs = true ->
  calm false w w'.
Proof.
  intros. repeat split; try assumption. exists evs. repeat split; try done.
Qed.

Lemma calmly_await {A} d (Q : result A -> Prop) (c : M A) :
  (forall w, calm d w (c w).2 /\ Q (c w).1) -> calmly d Q (await c).
Proof. intros H w. apply H. Qed.

Lemma calmly_weaken {A} d (Q Q' : result A -> Prop) (s : async A) :
  (forall r, Q r -> Q' r) -> calmly d Q s -> calmly d Q' s.
Proof.
  intros HQ. induction s as [r|B c k IH]; cbn [calmly]; [apply HQ|].
  intros H w. destruct (H w) as [Hc Hk]. split; [exact Hc|]. by apply IH.
Qed.

Lemma calmly_bind {A B} d (Q : result A -> Prop) (Q' : result B -> Prop)
    (s : async A) (f : A -> async B) :
  calmly d Q s ->
  (forall a, Q (Ok a) -> calmly d Q' (f a)) ->
  (forall e, Q (Throw e) -> Q' (Throw e)) ->
  calmly d Q' (bind_async s f).
Proof.
  intros Hs Hf He. induction s as [[a|e]|C c k IH]; cbn [bind_async calmly] in *.
  - by apply Hf.
  - by apply He.
  - intros w. destruct (Hs w) as [Hc Hk]. split; [exact Hc|]. by apply IH.
Qed.

Lemma calmly_try {A} d (Q Q' : result A -> Prop)
    (s : async A) (h : JS.error -> async A) :
  calmly d Q s ->
  (forall a, Q (Ok a) -> Q' (Ok a)) ->
  (forall e, Q (Throw e) -> calmly d Q' (h e)) ->
  calmly d Q' (try_async s h).
Proof.
  intros Hs Hok Hh. induction s as [[a|e]|C c k IH]; cbn [try_async calmly] in *.
  - by apply Hok.
  - by apply Hh.
  - intros w. destruct (Hs w) as [Hc Hk]. split; [exact Hc|]. by apply IH.
Qed.

Lemma working_bind {A} d P Rj file (Q : result A -> Prop)
    (s : async A) (f : A -> async unit) :
  calmly d Q s ->
  (forall a, Q (Ok a) -> working d P Rj file (f a)) ->
  (forall e, Q (Throw e) -> Rj) ->
  working d P Rj file (bind_async s f).
Proof.
  intros Hs Hf He.
  induction s as [[a|e]|C c k IH]; cbn [bind_async calmly working] in *.
  - by apply Hf.
  - by apply (He e).
  - left. intros w. destruct (Hs w) as [Hc Hk]. split; [exact Hc|]. by apply IH.
Qed.

Lemma working_try d P Rj file (s : async unit) (h : JS.error -> async unit) :
  working d P True file s ->
  (forall e, working d P Rj file (h e)) ->
  working d P Rj file (try_async s h).
Proof.
  intros Hs Hh.
  induction s as [[a|e]|C c k IH]; cbn [try_async working] in *.
  - done.
  - apply Hh.
  - destruct Hs as [Hs | (r & Hr & Hs)].
    + left. intros w. destruct (Hs w) as [Hc Hk]. split; [exact Hc|]. by apply IH.
    + right. exists r. split; [exact Hr|]. intros w.
      destruct (Hs w) as [Hw Hk]. split; [exact Hw|]. by rewrite Hk.
Qed.

(** *** The calls of a task *)

Lemma head_calm d url fl :
  calmly d (fun r => r = probe fl) (await (axios.head url 10000 (src_head fl))).
Proof.
  apply calmly_await. intros w. rewrite head_run. cbn [fst snd].
  split; [by apply calm_probe|reflexivity].
Qed.

Lemma exists_calm d fl key :
  calmly d (fun _ => True) (await (R2Uploader.fileExists fl key)).
Proof.
  apply calmly_await. intros w.
  destruct (fileExists_run fl key w) as (res & -> & _).
  split; [by apply calm_probe|exact I].
Qed.

Lemma download_calm url answers retries : forall n i,
  calmly false (fun _ => True) (Migrate.Async.download_loop url answers retries i n).
Proof.
  induction n as [|n IH]; intros i; cbn [Migrate.Async.download_loop]; [exact I|].
  cbn [await bind_async try_async calmly].
  intros w. rewrite get_run. cbn [fst snd].
  split; [by eapply calm_real|].
  destruct (axios.respond _ _ _) as [b|e]; cbn [bind_async try_async calmly];
    [exact I|].
  destruct (Nat.eqb _ _); cbn [bind_async try_async calmly]; [exact I|].
  intros w'. split; [by eapply calm_real|]. apply IH.
Qed.

Lemma upload_calm u fl b key ct :
  calmly false
    (fun r => forall nu, r = Ok nu -> R2Uploader.getPublicUrl u key = Ok nu)
    (await (R2Uploader.upload u fl b key ct)).
Proof.
  apply calmly_await. intros w.
  destruct (upload_run u fl b key ct w) as (res & bucket & ev & -> & Hev & Hres).
  cbn [fst snd]. split.
  - eapply calm_real; try reflexivity. cbn [forallb].
    unfold is_work. by rewrite (upload_is_transfer _ Hev).
  - intros nu Hnu. by destruct (Hres nu Hnu).
Qed.

Lemma update_calm fl i nu :
  calmly false (fun _ => True) (await (DBHelper.updateFileToR2 fl i nu)).
Proof.
  apply calmly_await. intros w. rewrite update_run.
  destruct (db_update_fault fl); (split; [by eapply calm_real|exact I]).
Qed.

Lemma begin_calm fl :
  calmly false (fun _ => True) (await (DBHelper.beginTransaction fl)).
Proof.
  apply calmly_await. intros w. rewrite begin_run.
  destruct (db_begin_fault fl); (split; [by eapply calm_real|exact I]).
Qed.

Lemma commit_calm fl :
  calmly false (fun _ => True) (await (DBHelper.commit fl)).
Proof.
  apply calmly_await. intros w. rewrite commit_run.
  destruct (db_commit_fault fl); (split; [by eapply calm_real|exact I]).
Qed.

Lemma rollback_calm fl :
  calmly false (fun r => forall e, r = Throw e -> db_rollback_fault fl <> None)
         (await (DBHelper.rollback fl)).
Proof.
  apply calmly_await. intros w. rewrite rollback_run.
  destruct (db_rollback_fault fl) as [e|].
  - split; [by eapply calm_real|]. done.
  - split; [|done]. unfold DBHelper.rolled_back.
    destruct (w_tx _); by eapply calm_real.
Qed.

(** *** [migrateFile] and the task, call by call *)

Lemma migrateFile_calm file u O d :
  calmly d (fun r => exists v, r = Ok v /\ result_of u O (file, v))
         (Migrate.Async.migrateFile file u (faults_of O file) d).
Proof.
  unfold Migrate.Async.migrateFile.
  apply calmly_try
    with (Q := fun r => match r with
                        | Ok v => result_of u O (file, v)
                        | Throw _ => True
                        end).
  2: { intros a Ha. eauto. }
  2: { intros e _. cbn [calmly]. eexists. split; [reflexivity|].
       split; cbn; intros; discriminate. }
  apply calmly_bind
    with (Q := fun r => exists ret, r = Ok ret /\
                 (ret = None \/
                  (ret = Some (Skipped "File not found on Cloudinary (404)")
                   /\ source_missing (faults_of O file) = true))).
  3: { by intros e (ret & [=] & _). }
  { apply calmly_try with (Q := fun r => match r with
                                         | Ok ret => ret = None
                                         | Throw e => probe (faults_of O file) = Throw e
                                         end).
    - eapply calmly_bind; [apply head_calm| |].
      + intros a _. reflexivity.
      + intros e He. by rewrite He.
    - intros a ->. eauto.
    - intros e He. unfold source_missing. rewrite He.
      destruct (R2Uploader.is_404 _); cbn [calmly]; eauto. }
  intros ret (ret' & [= <-] & Hret).
  destruct Hret as [-> | [-> Hmiss]].
  2: { cbn [calmly]. split; cbn; intros; [congruence|discriminate]. }
  eapply calmly_bind; [apply exists_calm| |done].
  intros found _.
  apply calmly_bind
    with (Q := fun r => forall nu, r = Ok nu ->
                 exists v, R2Uploader.getPublicUrl u (key_of file) = Ok v).
  3: { done. }
  { destruct d, found; cbn [negb andb].
    - cbn [calmly]. intros nu Hnu. unfold key_of. eauto.
    - destruct (R2Uploader.getPublicUrl u (hash file +:+ ext file)) as [v|e] eqn:Eg;
        cbn [bind_async calmly]; [|done].
      intros nu _. unfold key_of. eauto.
    - cbn [calmly]. intros nu Hnu. unfold key_of. eauto.
    - eapply calmly_bind; [apply download_calm| |done].
      intros [b|] _; [|done].
      eapply calmly_weaken; [|apply upload_calm].
      intros r Hr nu Hnu. unfold key_of. eauto. }
  intros nu Hnu. destruct (Hnu nu eq_refl) as [v Hv].
  eapply calmly_bind with (Q := fun _ => True).
  - destruct d; cbn [negb]; [exact I|apply update_calm].
  - intros _ _. cbn [calmly]. split; cbn; intros; [discriminate|congruence].
  - done.
Qed.

Lemma task_working u O d file :
  in_flight u O d (Some file) (Migrate.Async.task u O d file).
Proof.
  unfold in_flight, Migrate.Async.task. cbn zeta.
  apply working_try.
  - eapply working_bind with (Q := fun _ => True); [|intros _ _|done].
    { destruct d; cbn [negb]; [exact I|apply begin_calm]. }
    eapply working_bind; [apply migrateFile_calm| |done].
    intros r (v & [= <-] & Hr).
    eapply working_bind with (Q := fun _ => True); [|intros _ _|done].
    { destruct d; cbn [negb]; [exact I|apply commit_calm]. }
    cbn [working]. right. exists r. split; [exact Hr|].
    intros w. split; reflexivity.
  - intros e.
    eapply working_bind
      with (Q := fun r => forall e', r = Throw e' -> may_reject O d file).
    + destruct d; cbn [negb]; [done|].
      eapply calmly_weaken; [|apply rollback_calm].
      intros r Hr e' He'. split; [reflexivity|]. by eapply Hr.
    + intros _ _. cbn [working]. right.
      exists (Failed (JS.message e) None). split.
      * split; cbn; intros; discriminate.
      * intros w. split; reflexivity.
    + intros e' He'. by eapply He'.
Qed.

(** *** What the tasks leave behind *)

Lemma replay_app rs1 : forall rs2 n s,
  replay (rs1 ++ rs2) n s = replay rs2 (n + length rs1) (replay rs1 n s).
Proof.
  induction rs1 as [|[f r] rs1 IH]; intros rs2 n s; cbn [app replay length].
  - by rewrite Nat.add_0_r.
  - rewrite IH. f_equal. lia.
Qed.

Lemma replays_app rs1 : forall rs2 n s,
  replays (rs1 ++ rs2) n s
  = replays rs1 n s ++ replays rs2 (n + length rs1) (replay rs1 n s).
Proof.
  induction rs1 as [|[f r] rs1 IH]; intros rs2 n s;
    cbn [app replay replays length].
  - by rewrite Nat.add_0_r.
  - rewrite IH. do 3 f_equal. lia.
Qed.

Lemma leads_refl d w : leads d w [] [] w.
Proof.
  unfold leads. cbn. rewrite app_nil_r, Nat.add_0_r. repeat split; done.
Qed.

Lemma leads_calm d w w' : calm d w w' -> exists evs, leads d w evs [] w'.
Proof.
  intros (Hs & Hp & Hf & evs & Htr & Hw & Hd). exists evs.
  unfold leads. cbn [replay replays length]. rewrite Nat.add_0_r.
  split; [exact Htr|]. split.
  { intros H. destruct (Hd H) as (Hq & ? & ? & ?).
    split; [by apply probe_is_quiet|]. done. }
  split; [by apply work_no_exit|].
  split; [exact Hs|]. split; [exact Hp|].
  split; [by apply work_no_save|]. split; [done|]. done.
Qed.

Lemma leads_book d file r w :
  leads d w [EvSaveState (booked file r (w_processed w) (w_state w))]
        [(file, r)] (book file r w).
Proof.
  unfold leads. cbn. repeat split; try done. lia.
Qed.

Lemma leads_trans d w evs1 rs1 w1 evs2 rs2 w2 :
  leads d w evs1 rs1 w1 -> leads d w1 evs2 rs2 w2 ->
  leads d w (evs1 ++ evs2) (rs1 ++ rs2) w2.
Proof.
  intros (Ht1 & Hd1 & Hx1 & Hs1 & Hp1 & Hv1 & Hn1 & Hc1)
         (Ht2 & Hd2 & Hx2 & Hs2 & Hp2 & Hv2 & Hn2 & Hc2).
  unfold leads.
  split; [by rewrite Ht2, Ht1, app_assoc|].
  split.
  { intros H. destruct (Hd1 H) as (? & ? & ? & ?).
    destruct (Hd2 H) as (? & ? & ? & ?).
    rewrite forallb_app. split; [by apply andb_true_iff|].
    repeat split; congruence. }
  split; [rewrite forallb_app; by apply andb_true_iff|].
  split; [by rewrite replay_app, Hs2, Hp1, Hs1|].
  split; [rewrite Hp2, Hp1, length_app; lia|].
  split; [by rewrite saved_app, replays_app, Hv1, Hv2, Hp1, Hs1|].
  split.
  - intros [-> ->]%app_eq_nil. by rewrite (Hn2 eq_refl), (Hn1 eq_refl).
  - intros Hne. destruct rs2 as [|x rs2].
    + rewrite app_nil_r in Hne. rewrite (Hn2 eq_refl), (Hc1 Hne).
      cbn in Hs2. by rewrite Hs2.
    + by apply Hc2.
Qed.

(** A task in flight that is finished without interruption. *)
Lemma alone_in_flight u O d tag s :
  in_flight u O d tag s -> forall w,
  exists res w' evs rs,
    alone s w = (res, w')
    /\ leads d w evs rs w'
    /\ match res with
       | Ok _ => map fst rs = from_option (fun f => [f]) [] tag
       | Throw _ => rs = [] /\ exists f, tag = Some f /\ may_reject O d f
       end
    /\ Forall (result_of u O) rs.
Proof.
  destruct tag as [f|]; cbn [in_flight].
  2: { intros -> w. exists (Ok tt), w, [], [].
       split; [reflexivity|]. split; [apply leads_refl|]. done. }
  induction s as [[a|e]|B c k IH]; cbn [working]; intros Hs w.
  - done.
  - exists (Throw e), w, [], [].
    split; [reflexivity|]. split; [apply leads_refl|]. split; [eauto|done].
  - cbn [alone]. destruct Hs as [Hs | (r & Hr & Hs)].
    + destruct (Hs w) as [Hc Hk]. destruct (c w) as [r w1]. cbn [fst snd] in *.
      destruct (leads_calm _ _ _ Hc) as (evs1 & H1).
      destruct (IH r Hk w1) as (res & w' & evs & rs & -> & H2 & Hres & Hall).
      exists res, w', (evs1 ++ evs), rs.
      split; [reflexivity|].
      split; [exact (leads_trans _ _ _ _ _ _ _ _ H1 H2)|]. done.
    + destruct (Hs w) as [Hw Hk]. destruct (c w) as [r' w1]. cbn [fst snd] in *.
      subst w1. rewrite Hk. cbn [alone].
      exists (Ok tt), (book f r w). do 2 eexists.
      split; [reflexivity|]. split; [apply leads_book|].
      split; [reflexivity|]. by constructor.
Qed.

(** The tasks finished one after the other. *)
Lemma drain_summary u O d tags threads :
  Forall2 (in_flight u O d) tags threads -> forall w,
  exists res w' evs rs,
    for_each alone threads w = (res, w')
    /\ leads d w evs rs w'
    /\ map fst rs ⊆+ pending tags
    /\ (res = Ok tt -> map fst rs = pending tags)
    /\ ((forall f, f ∈ pending tags -> ~ may_reject O d f) -> res = Ok tt)
    /\ Forall (result_of u O) rs.
Proof.
  induction 1 as [|tag s tags threads Hs Hrest IH]; intros w.
  - exists (Ok tt), w, [], []. split; [reflexivity|].
    split; [apply leads_refl|]. done.
  - cbn [for_each]. unfold bind at 1.
    destruct (alone_in_flight _ _ _ _ _ Hs w)
      as (res1 & w1 & evs1 & rs1 & -> & H1 & Hres1 & Hall1).
    destruct res1 as [[]|e].
    + destruct (IH w1) as (res & w' & evs & rs & -> & H2 & Hsub & Hok & Hno & Hall).
      exists res, w', (evs1 ++ evs), (rs1 ++ rs).
      split; [reflexivity|].
      split; [exact (leads_trans _ _ _ _ _ _ _ _ H1 H2)|].
      assert (Hhead : pending (tag :: tags)
                      = from_option (fun f => [f]) [] tag ++ pending tags)
        by (by destruct tag).
      rewrite Hhead, map_app, Hres1.
      split; [by apply submseteq_app|].
      split; [intros H; by rewrite (Hok H)|].
      split; [|by apply Forall_app].
      intros Hnone. apply Hno. intros f Hf. apply Hnone.
      apply elem_of_app. by right.
    + destruct Hres1 as (-> & f & -> & Hrj).
      exists (Throw e), w1, evs1, [].
      split; [reflexivity|]. split; [exact H1|].
      split; [apply submseteq_nil_l|]. split; [done|].
      split; [|constructor].
      intros Hnone. exfalso. apply (Hnone f); [|exact Hrj]. cbn. by left.
Qed.

(** *** The pool *)

Lemma pending_app a b : pending (a ++ b) = pending a ++ pending b.
Proof. apply omap_app. Qed.

Lemma pending_delete_none tags : forall j,
  tags !! j = Some None -> pending (delete j tags) = pending tags.
Proof.
  induction tags as [|t tags IH]; intros [|j] Hj; try done.
  - cbn in Hj. injection Hj as ->. reflexivity.
  - cbn in Hj. change (delete (S j) (t :: tags)) with (t :: delete j tags).
    unfold pending in *. cbn [omap list_omap]. by rewrite (IH j Hj).
Qed.

Lemma pending_delete_some tags : forall j f,
  tags !! j = Some (Some f) -> pending tags ≡ₚ f :: pending (delete j tags).
Proof.
  induction tags as [|t tags IH]; intros [|j] f Hj; try done.
  - cbn in Hj. injection Hj as ->. reflexivity.
  - cbn in Hj. change (delete (S j) (t :: tags)) with (t :: delete j tags).
    specialize (IH j f Hj). unfold pending in *. cbn [omap list_omap].
    destruct t as [g|]; cbn; [|exact IH].
    rewrite IH. apply perm_swap.
Qed.

Lemma pending_insert_none tags : forall j f,
  tags !! j = Some (Some f) ->
  pending tags ≡ₚ f :: pending (<[j := None]> tags).
Proof.
  induction tags as [|t tags IH]; intros [|j] f Hj; try done.
  - cbn in Hj. injection Hj as ->. reflexivity.
  - cbn in Hj.
    change (<[S j := None]> (t :: tags)) with (t :: <[j := None]> tags).
    specialize (IH j f Hj). unfold pending in *. cbn [omap list_omap].
    destruct t as [g|]; cbn; [|exact IH].
    rewrite IH. apply perm_swap.
Qed.

Lemma pool_summary u O d turns : forall running waiting rejected tags wtags w,
  Forall2 (in_flight u O d) tags running ->
  Forall2 (in_flight u O d) wtags waiting ->
  exists res w' evs rs,
    Migrate.pool turns running waiting rejected w = (res, w')
    /\ leads d w evs rs w'
    /\ map fst rs ⊆+ pending (tags ++ wtags)
    /\ (res = Ok tt ->
        rejected = None /\ map fst rs ≡ₚ pending (tags ++ wtags))
    /\ (rejected = None ->
        (forall f, f ∈ pending (tags ++ wtags) -> ~ may_reject O d f) ->
        res = Ok tt)
    /\ Forall (result_of u O) rs.
Proof.
  induction turns as [|t turns IH];
    intros running waiting rejected tags wtags w Hrun Hwait.
  - cbn [Migrate.pool]. destruct rejected as [e|].
    + exists (Throw e), w, [], []. split; [reflexivity|].
      split; [apply leads_refl|]. split; [apply submseteq_nil_l|]. done.
    + destruct (drain_summary u O d _ _ (Forall2_app Hrun Hwait) w)
        as (res & w' & evs & rs & Hd & Hl & Hsub & Hok & Hno & Hall).
      exists res, w', evs, rs. split; [exact Hd|]. split; [exact Hl|].
      split; [exact Hsub|]. split; [|by split].
      intros H. split; [reflexivity|]. by rewrite (Hok H).
  - destruct t as [|i]; cbn [Migrate.pool].
    + destruct rejected as [e|].
      { exists (Throw e), w, [], []. split; [reflexivity|].
        split; [apply leads_refl|]. split; [apply submseteq_nil_l|]. done. }
      destruct running as [|s running].
      * destruct waiting as [|s waiting]; [|by apply IH].
        apply Forall2_nil_inv_r in Hrun as ->.
        apply Forall2_nil_inv_r in Hwait as ->.
        exists (Ok tt), w, [], []. split; [reflexivity|].
        split; [apply leads_refl|]. done.
      * by apply IH.
    + set (j := Nat.modulo i (length running)).
      destruct (running !! j) as [s|] eqn:Ej; [|by apply IH].
      destruct (Forall2_lookup_r _ _ _ _ _ Hrun Ej) as (tag & Htag & Hs).
      destruct s as [r|B c k].
      * (* the task has settled *)
        assert (Hnext : Forall2 (in_flight u O d)
                          (delete j tags ++ take 1 wtags)
                          (delete j running ++ take 1 waiting))
          by (apply Forall2_app; [by apply Forall2_delete|by apply Forall2_take]).
        assert (Hqueue : Forall2 (in_flight u O d) (drop 1 wtags)
                                 (drop 1 waiting))
          by (by apply Forall2_drop).
        assert (Hfiles : pending ((delete j tags ++ take 1 wtags)
                                  ++ drop 1 wtags)
                         = pending (delete j tags ++ wtags))
          by (by rewrite <- app_assoc, take_drop).
        destruct tag as [f|]; cbn [in_flight] in Hs.
        -- destruct r as [a|e]; cbn [working] in Hs; [done|].
           destruct (IH _ _ (match rejected with
                             | Some e0 => Some e0
                             | None => Some e
                             end) _ _ w Hnext Hqueue)
             as (res & w' & evs & rs & Hp & Hl & Hsub & Hok & _ & Hall).
           exists res, w', evs, rs.
           split; [by destruct rejected|]. split; [exact Hl|].
           rewrite Hfiles in Hsub.
           assert (Hperm := pending_delete_some _ _ _ Htag).
           split.
           { etrans; [exact Hsub|]. rewrite !pending_app, Hperm.
             by apply submseteq_cons. }
           split; [intros H; destruct (Hok H) as [Hr _]; by destruct rejected|].
           split; [|exact Hall].
           intros _ Hno. exfalso. apply (Hno f); [|exact Hs].
           rewrite pending_app, Hperm. apply elem_of_app. left. by left.
        -- injection Hs as ->.
           destruct (IH _ _ rejected _ _ w Hnext Hqueue)
             as (res & w' & evs & rs & Hp & Hl & Hsub & Hok & Hno & Hall).
           exists res, w', evs, rs.
           split; [by destruct rejected|]. split; [exact Hl|].
           rewrite Hfiles, pending_app, (pending_delete_none _ _ Htag),
             <- pending_app in Hsub, Hok, Hno.
           done.
      * (* the task makes a call *)
        destruct tag as [f|]; cbn [in_flight] in Hs; [|discriminate].
        cbn [working] in Hs. unfold bind at 1, observe.
        destruct Hs as [Hs | (r0 & Hr0 & Hs)].
        -- destruct (Hs w) as [Hc Hk]. destruct (c w) as [r w1].
           cbn [fst snd] in *.
           assert (Hnext : Forall2 (in_flight u O d) (<[j := Some f]> tags)
                                   (<[j := k r]> running))
             by (by apply Forall2_insert).
           rewrite (list_insert_id _ _ _ Htag) in Hnext.
           destruct (leads_calm _ _ _ Hc) as (evs1 & H1).
           destruct (IH _ _ rejected _ _ w1 Hnext Hwait)
             as (res & w' & evs & rs & Hp & Hl & Hsub & Hok & Hno & Hall).
           exists res, w', (evs1 ++ evs), rs.
           split; [exact Hp|].
           split; [exact (leads_trans _ _ _ _ _ _ _ _ H1 Hl)|]. done.
        -- destruct (Hs w) as [Hw Hk]. destruct (c w) as [r w1].
           cbn [fst snd] in *. subst w1. rewrite Hk.
           assert (Hnext : Forall2 (in_flight u O d) (<[j := None]> tags)
                                   (<[j := Settled (Ok tt)]> running))
             by (by apply Forall2_insert).
           destruct (IH _ _ rejected _ _ (book f r0 w) Hnext Hwait)
             as (res & w' & evs & rs & Hp & Hl & Hsub & Hok & Hno & Hall).
           exists res, w', ([EvSaveState (booked f r0 (w_processed w)
                                                 (w_state w))] ++ evs),
                  ([(f, r0)] ++ rs).
           split; [exact Hp|].
           split; [exact (leads_trans _ _ _ _ _ _ _ _ (leads_book d f r0 w) Hl)|].
           assert (Hperm := pending_insert_none _ _ _ Htag).
           rewrite pending_app in Hsub, Hok, Hno. rewrite pending_app, Hperm.
           cbn [app map fst].
           split; [by apply submseteq_skip|].
           split; [intros H; destruct (Hok H) as [? Hq]; split; [done|];
                   by rewrite Hq|].
           split; [|by constructor].
           intros Hr Hnone. apply Hno; [exact Hr|].
           intros g Hg. apply Hnone. rewrite Hperm. by right.
Qed.

Lemma pending_tasks (files : list File) : pending (map Some files) = files.
Proof.
  induction files as [|f files IH]; [reflexivity|].
  unfold pending in *. cbn. by rewrite IH.
Qed.

Lemma tasks_in_flight u O d (files : list File) :
  Forall2 (in_flight u O d) (map Some files)
          (map (Migrate.Async.task u O d) files).
Proof.
  induction files as [|f files IH]; cbn [map]; constructor; [|exact IH].
  apply task_working.
Qed.

Lemma init_run env O w :
  exists res, DBHelper.init env O w = (res, w)
    /\ (db_connect_fault O = None ->
        DBHelper.or_else (DBHelper.DATABASE_CLIENT env) "sqlite" = "sqlite"
        \/ DBHelper.or_else (DBHelper.DATABASE_CLIENT env) "sqlite"
           = "postgres" ->
        exists db, res = Ok db).
Proof.
  unfold DBHelper.init.
  destruct (String.eqb _ "sqlite") eqn:E1;
    [|destruct (String.eqb _ "postgres") eqn:E2].
  all: run.
  1,2: destruct (db_connect_fault O);
    (eexists; split; [reflexivity|]); intros; try discriminate; eauto.
  eexists; split; [reflexivity|]. intros _ [H | H]; rewrite H in *; discriminate.
Qed.

Lemma select_run O w :
  DBHelper.getCloudinaryFiles O w =
  match db_select_fault O with
  | Some e => (Throw e, log [EvSelect] w)
  | None => (Ok (cloudinary_files w), log [EvSelect] w)
  end.
Proof.
  unfold DBHelper.getCloudinaryFiles. run.
  destruct (db_select_fault O); reflexivity.
Qed.

Lemma loadState_run w : Migrate.loadState w = (Ok (loaded w), w).
Proof.
  unfold Migrate.loadState, loaded. run. destruct (w_state_file w); reflexivity.
Qed.

(** The loop of [main], whatever the order of the turns. *)
Lemma loop_summary u O d files w :
  let promises := map (Migrate.Async.task u O d) files in
  exists res w' evs rs,
    Migrate.pool (turns O) (take Migrate.CONCURRENCY promises)
                 (drop Migrate.CONCURRENCY promises) None w = (res, w')
    /\ leads d w evs rs w'
    /\ map fst rs ⊆+ files
    /\ (res = Ok tt -> map fst rs ≡ₚ files)
    /\ (d = true \/ rollback_works O files -> res = Ok tt)
    /\ Forall (result_of u O) rs.
Proof.
  intros promises.
  pose proof (tasks_in_flight u O d files) as Hall. fold promises in Hall.
  destruct (pool_summary u O d (turns O) _ _ None _ _ w
              (Forall2_take _ _ _ Migrate.CONCURRENCY Hall)
              (Forall2_drop _ _ _ Migrate.CONCURRENCY Hall))
    as (res & w' & evs & rs & Hp & Hl & Hsub & Hok & Hno & Hprov).
  rewrite take_drop, pending_tasks in Hsub, Hok, Hno.
  exists res, w', evs, rs. split; [exact Hp|]. split; [exact Hl|].
  split; [exact Hsub|]. split; [intros H; by destruct (Hok H)|].
  split; [|exact Hprov].
  intros H. apply Hno; [reflexivity|].
  intros f Hf [Hd Hr]. destruct H as [H | H]; [congruence|].
  by apply Hr, H.
Qed.

(** The three ways [main] can end. *)
Lemma main_run args env O w :
  let d := JS.includes_str args "--dry-run" in
  let files := Migrate.outstanding (loaded w) (cloudinary_files w) in
  exists w' evs rs,
    Migrate.main args env O w = (Ok tt, w')
    /\ w_trace w' = w_trace w ++ evs
    /\ (d = true ->
        forallb is_quiet evs = true
        /\ w_rows w' = w_rows w /\ w_bucket w' = w_bucket w
        /\ w_tx w' = w_tx w)
    /\ map fst rs ⊆+ files
    /\ Forall (result_of (R2Uploader.fromEnv env) O) rs
    /\ (db_connect_fault O = None ->
        DBHelper.or_else (DBHelper.DATABASE_CLIENT env) "sqlite" = "sqlite"
        \/ DBHelper.or_else (DBHelper.DATABASE_CLIENT env) "sqlite"
           = "postgres" ->
        db_select_fault O = None ->
        d = true \/ rollback_works O files ->
        forallb (fun e => negb (is_exit e)) evs = true)
    /\ ((* a fatal error *)
        (exists evs0, evs = evs0 ++ [EvExit 1])
        /\ saved evs = replays rs 0 (started w)
        /\ (rs = [] -> w_state_file w' = w_state_file w)
        /\ (rs <> [] -> w_state_file w' = Some (replay rs 0 (started w)))
        \/
        (* nothing to migrate *)
        files = [] /\ evs = [EvSelect; EvClose]
        /\ w_state_file w' = w_state_file w
        /\ w_rows w' = w_rows w /\ w_bucket w' = w_bucket w
        \/
        (* the run reaches its end *)
        files <> [] /\ map fst rs ≡ₚ files
        /\ forallb (fun e => negb (is_exit e)) evs = true
        /\ saved evs =
             replays rs 0 (started w) ++ [finished (replay rs 0 (started w))]
        /\ w_state_file w' = Some (finished (replay rs 0 (started w)))).
Proof.
  intros d files.
  unfold Migrate.main. fold d.
  unfold try_catch at 1. unfold bind at 1.
  destruct (init_run env O w) as (res & -> & Hinit).
  destruct res as [db|e].
  2: { exists (log [EvExit 1] w), [EvExit 1], [].
       split; [reflexivity|]. split; [reflexivity|]. split; [done|].
       split; [apply submseteq_nil_l|]. split; [constructor|].
       split.
       { intros Hc Hcl _ _. destruct (Hinit Hc Hcl) as [? [=]]. }
       left. split; [by exists []|]. done. }
  unfold bind at 1. rewrite loadState_run.
  unfold bind at 1. unfold modify at 1.
  unfold bind at 1. rewrite select_run.
  destruct (db_select_fault O) as [e|].
  { exists (log [EvExit 1] (log [EvSelect] (set_state (loaded w) w))),
           [EvSelect; EvExit 1], [].
    split; [reflexivity|]. split; [cbn; by rewrite <- app_assoc|].
    split; [done|]. split; [apply submseteq_nil_l|]. split; [constructor|].
    split; [intros; discriminate|].
    left. split; [by exists [EvSelect]|]. done. }
  change (cloudinary_files (set_state (loaded w) w)) with (cloudinary_files w).
  fold files.
  unfold bind at 1. unfold modify at 1.
  destruct files as [|f files'] eqn:Efiles.
  { cbn [length Nat.eqb].
    eexists. exists [EvSelect; EvClose], [].
    split; [reflexivity|]. split; [cbn; by rewrite <- app_assoc|].
    split; [done|]. split; [apply submseteq_nil_l|]. split; [constructor|].
    split; [reflexivity|].
    right. left. done. }
  cbn [length Nat.eqb].
  unfold bind at 1. unfold modify at 1.
  unfold bind at 1. cbv zeta.
  match goal with
  | |- context [Migrate.pool _ _ _ _ ?w0] =>
      change w0 with (loop_world w);
      destruct (loop_summary (R2Uploader.fromEnv env) O d (f :: files')
                             (loop_world w))
        as (res & w1 & evs & rs & -> & Hl & Hsub & Hall & Hok & Hprov)
  end.
  destruct Hl as (Htr & Hq & Hx & Hs & Hp & Hsv & Hf0 & Hf).
  cbn [w_processed w_state loop_world set_processed set_state] in Hs, Hp, Hsv.
  destruct res as [[]|e].
  - eexists.
    exists (EvSelect :: evs
            ++ [EvSaveState (finished (replay rs 0 (started w))); EvClose]), rs.
    split; [run; rewrite Hs; reflexivity|].
    split; [cbn; rewrite Htr; cbn; by rewrite <- !app_assoc|].
    split.
    { intros Hd. destruct (Hq Hd) as (Hq' & Hr & Hb & Ht).
      split; [cbn; by rewrite forallb_app, Hq'|].
      cbn. rewrite Hr, Hb, Ht. done. }
    split; [assumption|]. split; [assumption|].
    split; [intros; cbn; by rewrite forallb_app, Hx|].
    right. right.
    split; [discriminate|]. split; [auto|].
    split; [cbn; by rewrite forallb_app, Hx|].
    split; [cbn; rewrite saved_app, Hsv; reflexivity|].
    reflexivity.
  - exists (log [EvExit 1] w1), (EvSelect :: evs ++ [EvExit 1]), rs.
    split; [reflexivity|].
    split; [cbn; rewrite Htr; cbn; by rewrite <- !app_assoc|].
    split.
    { intros Hd. destruct (Hq Hd) as (Hq' & Hr & Hb & Ht).
      split; [cbn; by rewrite forallb_app, Hq'|].
      cbn. rewrite Hr, Hb, Ht. done. }
    split; [assumption|]. split; [assumption|].
    split; [intros _ _ _ H; discriminate (Hok H)|].
    left. split; [by exists (EvSelect :: evs)|].
    split; [cbn; rewrite saved_app, Hsv; cbn; by rewrite app_nil_r|].
    split; [intros H; cbn; by rewrite (Hf0 H)|].
    intros H. cbn. by rewrite (Hf H), Hs.
Qed.

(** *** A task alone *)

Lemma bind_ext {A B} (c c' : M A) (k k' : A -> M B) w :
  (forall w0, c w0 = c' w0) -> (forall a w0, k a w0 = k' a w0) ->
  bind c k w = bind c' k' w.
Proof.
  intros Hc Hk. unfold bind. rewrite Hc. by destruct (c' w) as [[a|e] w1].
Qed.

Lemma try_catch_ext {A} (c c' : M A) (h h' : JS.error -> M A) w :
  (forall w0, c w0 = c' w0) -> (forall e w0, h e w0 = h' e w0) ->
  try_catch c h w = try_catch c' h' w.
Proof.
  intros Hc Hh. unfold try_catch. rewrite Hc.
  by destruct (c' w) as [[a|e] w1].
Qed.

Lemma alone_await {A} (c : M A) w : alone (await c) w = c w.
Proof. cbn. by destruct (c w). Qed.

Lemma alone_bind {A B} (s : async A) (f : A -> async B) : forall w,
  alone (bind_async s f) w = bind (alone s) (fun a => alone (f a)) w.
Proof.
  induction s as [[a|e]|C c k IH]; intros w; try reflexivity.
  cbn [bind_async alone]. unfold bind. destruct (c w) as [r w1].
  rewrite IH. reflexivity.
Qed.

Lemma alone_try {A} (s : async A) (h : JS.error -> async A) : forall w,
  alone (try_async s h) w = try_catch (alone s) (fun e => alone (h e)) w.
Proof.
  induction s as [[a|e]|C c k IH]; intros w; try reflexivity.
  cbn [try_async alone]. unfold try_catch. destruct (c w) as [r w1].
  rewrite IH. reflexivity.
Qed.

(** Run from its call to its end with nothing in between, each function
    is the one of the same name taken in one piece. *)
Lemma alone_download_loop url answers retries : forall n i w,
  alone (Migrate.Async.download_loop url answers retries i n) w
  = Migrate.download_loop url answers retries i n w.
Proof.
  induction n as [|n IH]; intros i w; [reflexivity|].
  cbn [Migrate.Async.download_loop Migrate.download_loop].
  rewrite alone_try. apply try_catch_ext.
  - intros w0. rewrite alone_bind. apply bind_ext; [apply alone_await|done].
  - intros e w0. destruct (Nat.eqb _ _); [reflexivity|].
    rewrite alone_bind. apply bind_ext; [apply alone_await|].
    intros _ w1. apply IH.
Qed.

Lemma alone_migrateFile file u fl d w :
  alone (Migrate.Async.migrateFile file u fl d) w
  = Migrate.migrateFile file u fl d w.
Proof.
  unfold Migrate.Async.migrateFile, Migrate.migrateFile. cbv zeta.
  rewrite alone_try. apply try_catch_ext; [|done].
  intros w0. rewrite alone_bind. apply bind_ext.
  { intros w1. rewrite alone_try. apply try_catch_ext.
    - intros w2. rewrite alone_bind. apply bind_ext; [apply alone_await|done].
    - intros e w2. by destruct (R2Uploader.is_404 _). }
  intros [r|] w1; [reflexivity|].
  rewrite alone_bind. apply bind_ext; [apply alone_await|].
  intros found w2. rewrite alone_bind. apply bind_ext.
  { intros w3. destruct (negb d && negb found); [|destruct found].
    - rewrite alone_bind. apply bind_ext.
      + intros w4. apply alone_download_loop.
      + intros [b|] w4; [apply alone_await|reflexivity].
    - reflexivity.
    - unfold bind, R2Uploader.lift, ret.
      by destruct (R2Uploader.getPublicUrl u _). }
  intros nu w3. rewrite alone_bind. apply bind_ext; [|done].
  intros w4. destruct (negb d); [apply alone_await|reflexivity].
Qed.

Lemma alone_task u O d file w :
  alone (Migrate.Async.task u O d file) w = Migrate.task u O d file w.
Proof.
  unfold Migrate.Async.task, Migrate.task. cbv zeta.
  rewrite alone_try. apply try_catch_ext.
  - intros w0. rewrite alone_bind. apply bind_ext.
    { intros w1. destruct (negb d); [apply alone_await|reflexivity]. }
    intros _ w1. rewrite alone_bind. apply bind_ext.
    { intros w2. apply alone_migrateFile. }
    intros r w2. rewrite alone_bind. apply bind_ext.
    { intros w3. destruct (negb d); [apply alone_await|reflexivity]. }
    intros _ w3. apply alone_await.
  - intros e w0. rewrite alone_bind. apply bind_ext.
    { intros w1. destruct (negb d); [apply alone_await|reflexivity]. }
    intros _ w1. apply alone_await.
Qed.

(** With no turn given, the loop of [main] runs the tasks in the order
    of the records, each one to its end. *)
Lemma pool_in_order u O d files w :
  Migrate.pool [] (take Migrate.CONCURRENCY
                     (map (Migrate.Async.task u O d) files))
               (drop Migrate.CONCURRENCY
                     (map (Migrate.Async.task u O d) files)) None w
  = for_each (Migrate.task u O d) files w.
Proof.
  cbn [Migrate.pool]. rewrite take_drop. revert w.
  induction files as [|f files IH]; intros w; [reflexivity|].
  cbn [map for_each]. apply bind_ext; [apply alone_task|]. intros _. apply IH.
Qed.

(* ================================================================= *)
(** ** The download of a record *)

(** C6. A record that passes the source probe and whose destination
    object is absent is, on a real run, fetched with at most three GET
    requests, each with the timeout of 60000 ms and the ceiling of
    100 MiB; a rejected request is followed by a pause of 1000 ms times
    its rank before the next one; an answer that breaks the timeout or
    the ceiling counts as a rejected request; and when the three requests
    are rejected the record is [failed], the cause being the message
    "Download failed after 3 retries: ..." of the exhausted download. *)
Theorem download_three_attempts
    (file : File) (u : R2Uploader.t) (fl : record_faults) (w : world) :
  source_missing fl = false ->
  r2_head_fault fl = None ->
  w_bucket w !! key_of file = None ->
  exists r w' k rest,
    Migrate.migrateFile file u fl false w = (Ok r, w')
    /\ (1 <= k <= 3)%nat
    /\ w_trace w' =
         w_trace w
         ++ [EvHead (url file) 10000; EvHeadObject (key_of file)]
         ++ take (2 * k - 1) (download_schedule (url file))
         ++ rest
    /\ forallb (fun e => negb (is_download e)) rest = true
    /\ (forall i, (i < k - 1)%nat -> exists e, attempt fl i = Throw e)
    /\ ((k < 3)%nat -> exists b, attempt fl (k - 1) = Ok b)
    /\ (forall i len ms, src_get fl i = Responds len ms ->
          60000 < ms \/ 100 * 1024 * 1024 < len ->
          exists e, attempt fl i = Throw e)
    /\ (forall e0 e1 e2,
          attempt fl 0 = Throw e0 -> attempt fl 1 = Throw e1 ->
          attempt fl 2 = Throw e2 ->
          k = 3%nat /\ rest = [] /\
          r = Failed ("Download failed after 3 retries: " +:+ JS.message e2)
                     (Some 3%nat)).
Proof.
  intros Hsrc Hfault Habsent.
  assert (Hlimits : forall i len ms, src_get fl i = Responds len ms ->
            60000 < ms \/ 100 * 1024 * 1024 < len ->
            exists e, attempt fl i = Throw e).
  { intros i len ms E [Hms | Hlen]; unfold attempt, axios.respond; rewrite E.
    - apply Z.ltb_lt in Hms. rewrite Hms. eauto.
    - destruct (60000 <? ms); [eauto|].
      apply Z.ltb_lt in Hlen. rewrite Hlen. eauto. }
  revert Hsrc Habsent.
  unfold Migrate.migrateFile, source_missing, probe, key_of.
  step. use_leaf. step.
  intros Hsrc Habsent.
  destruct (axios.respond 10000 None (src_head fl)) as [?|e] eqn:Eh; step.
  2: rewrite Hsrc; step.
  all: use_leaf; step;
    match goal with
    | H : r2_head_fault _ = None -> _ |- _ =>
        specialize (H Hfault); autorewrite with world in H;
        rewrite Habsent in H; try discriminate H
    end.
  all: use_leaf; step.
  all: repeat (use_leaf; step).
  all: rewrite <- ?app_assoc; cbn [app].
  all: do 2 eexists; exists k;
    match goal with
    | |- context [(_, ?mk (_ :: _ :: take _ _ ++ ?rest) _)] => exists rest
    | |- context [(_, ?mk (_ :: _ :: take _ _) _)] => exists []
    end.
  all: split; [reflexivity|]; split; [assumption|].
  all: split; [cbn [w_trace touch log set_trace app];
               rewrite ?app_nil_r; reflexivity|].
  all: split;
    [cbn [forallb is_download negb andb app];
     repeat match goal with
       | H : is_upload ?x = true |- _ =>
           destruct x; try discriminate H; clear H
       end; reflexivity|].
  all: split; [assumption|].
  all: split;
    [intros Hk;
     match goal with
     | H : match attempt ?f ?j with _ => _ end |- _ =>
         destruct (attempt f j); [eauto | destruct H; lia]
     end|].
  all: split; [assumption|].
  all: intros ? ? ? Ha0 Ha1 Ha2.
  all: match goal with
       | H : match attempt _ _ with _ => _ end |- _ =>
           assert (k = 1 \/ k = 2 \/ k = 3)%nat as [-> | [-> | ->]] by lia;
           cbn [Nat.sub] in H;
           rewrite ?Ha0, ?Ha1, ?Ha2 in H;
           try discriminate H;
           try (destruct H as [Hk3 H];
                try discriminate Hk3; try discriminate H)
       end.
  all: try match goal with H : Throw _ = Throw _ |- _ => injection H as -> end.
  all: auto.
Qed.

Lemma download_three_attempts_witness :
  exists w',
    Migrate.migrateFile photo (R2Uploader.fromEnv sample_env) no_download
                        false (new_world [photo])
    = (Ok (Failed "Download failed after 3 retries: socket hang up"
                  (Some 3%nat)), w').
Proof.
  destruct (download_three_attempts photo (R2Uploader.fromEnv sample_env)
              no_download (new_world [photo]))
    as (r & w' & k & rest & Hrun & _ & _ & _ & _ & _ & _ & Hall);
    [reflexivity | reflexivity | reflexivity |].
  destruct (Hall (JS.new_Error "socket hang up")
                 (JS.new_Error "socket hang up")
                 (JS.new_Error "socket hang up"))
    as (_ & _ & Hr); [reflexivity | reflexivity | reflexivity |].
  exists w'. rewrite Hrun, Hr. reflexivity.
Defined.

(* ================================================================= *)
(** ** The state of a run *)

Lemma finished_statistics s : statistics (finished s) = statistics s.
Proof. reflexivity. Qed.

Lemma finished_run_state s :
  run_state (finished s)
  = if Nat.eqb (stat_failed (statistics s)) 0
    then completed else completed_with_errors.
Proof.
  unfold finished, Migrate.final_status. cbn.
  destruct (stat_failed (statistics s)); reflexivity.
Qed.

Lemma booked_run_state file r n s : run_state (booked file r n s) = run_state s.
Proof. destruct r; reflexivity. Qed.

Lemma replay_run_state rs : forall n s,
  run_state (replay rs n s) = run_state s.
Proof.
  induction rs as [|[file r] rs IH]; intros n s; cbn [replay]; [reflexivity|].
  by rewrite IH, booked_run_state.
Qed.

Lemma replays_run_state rs : forall n s0 s,
  s ∈ replays rs n s0 -> run_state s = run_state s0.
Proof.
  induction rs as [|[file r] rs IH]; intros n s0 s Hin; cbn [replays] in Hin.
  - by apply elem_of_nil in Hin.
  - apply elem_of_cons in Hin as [-> | Hin]; [apply booked_run_state|].
    rewrite (IH _ _ _ Hin). apply booked_run_state.
Qed.

Lemma known_client_spec env :
  known_client env = true ->
  DBHelper.or_else (DBHelper.DATABASE_CLIENT env) "sqlite" = "sqlite"
  \/ DBHelper.or_else (DBHelper.DATABASE_CLIENT env) "sqlite" = "postgres".
Proof.
  unfold known_client. intros [H | H]%orb_true_iff;
    apply String.eqb_eq in H; auto.
Qed.

Lemma exit_or_not evs :
  forallb (fun e => negb (is_exit e)) evs = negb (existsb is_exit evs).
Proof.
  induction evs as [|e evs IH]; [reflexivity|].
  cbn [forallb existsb]. rewrite IH. by destruct (is_exit e).
Qed.

(** C5, as amended. A run ends in one of three ways. It leaves the
    process with the code 1: then no final status is written, every
    state the run wrote and the state file, when there is one, have the
    status of the state the run started from. Or it finds no record to
    migrate: then it reads the table, closes the database and leaves the
    state file, with whatever status it holds, the table and the bucket
    as they are; a run ends in this way whenever the database answers
    and no record of the source is left outside the processed ones. Or
    it has records to migrate and does not leave the process: then the
    last state written has the status [completed] exactly when its
    counter of failures is zero and [completed_with_errors] exactly when
    it is not. *)
Theorem final_status_binary
    (args : list string) (env : DBHelper.Env) (O : oracle) (w : world) :
  exists w' evs,
    Migrate.main args env O w = (Ok tt, w')
    /\ w_trace w' = w_trace w ++ evs
    /\ ((existsb is_exit evs = true
         /\ (forall s, s ∈ saved evs -> run_state s = run_state (loaded w))
         /\ (forall sf, w_state_file w' = Some sf ->
               run_state sf = run_state (loaded w)))
        \/
        (Migrate.outstanding (loaded w) (cloudinary_files w) = []
         /\ evs = [EvSelect; EvClose]
         /\ w_state_file w' = w_state_file w
         /\ w_rows w' = w_rows w
         /\ w_bucket w' = w_bucket w)
        \/
        (Migrate.outstanding (loaded w) (cloudinary_files w) <> []
         /\ existsb is_exit evs = false
         /\ exists sf,
              w_state_file w' = Some sf
              /\ last (saved evs) = Some sf
              /\ (run_state sf = completed
                  <-> stat_failed (statistics sf) = 0%nat)
              /\ (run_state sf = completed_with_errors
                  <-> stat_failed (statistics sf) <> 0%nat)))
    /\ (known_client env = true ->
        db_connect_fault O = None ->
        db_select_fault O = None ->
        Migrate.outstanding (loaded w) (cloudinary_files w) = [] ->
        evs = [EvSelect; EvClose]
        /\ w_state_file w' = w_state_file w
        /\ w_rows w' = w_rows w
        /\ w_bucket w' = w_bucket w).
Proof.
  destruct (main_run args env O w)
    as (w' & evs & rs & Hmain & Htr & _ & _ & _ & Hlive & Hend).
  exists w', evs. split; [assumption|]. split; [assumption|].
  split.
  - destruct Hend as [((evs0 & ->) & Hsv & Hnil & Hcons)
                      | [(Hnone & Hevs & Hsf & Hrows & Hb)
                        | (Hsome & _ & Hx & Hsv & Hsf)]].
    + left. split; [by rewrite existsb_app, orb_true_r|].
      split.
      { intros s Hs. rewrite Hsv in Hs.
        by rewrite (replays_run_state _ _ _ _ Hs). }
      intros sf Hsf. destruct (decide (rs = [])) as [Hrs | Hrs].
      * rewrite (Hnil Hrs) in Hsf. unfold loaded. by rewrite Hsf.
      * rewrite (Hcons Hrs) in Hsf. injection Hsf as <-.
        by rewrite replay_run_state.
    + right. left. done.
    + right. right. split; [exact Hsome|].
      split; [rewrite exit_or_not in Hx; by destruct (existsb is_exit evs)|].
      eexists. split; [exact Hsf|].
      split; [rewrite Hsv; apply last_snoc|].
      rewrite finished_run_state, finished_statistics.
      destruct (stat_failed _); cbn; split; split; intros; try done.
  - intros Hk Hc Hs Hnone.
    assert (Hx : forallb (fun e => negb (is_exit e)) evs = true).
    { apply Hlive; [exact Hc|by apply known_client_spec|exact Hs|].
      right. rewrite Hnone. intros f Hf. by apply elem_of_nil in Hf. }
    destruct Hend as [((evs0 & ->) & _) | [(_ & Hevs) | (Hsome & _)]].
    + rewrite forallb_app in Hx. cbn in Hx. by rewrite andb_false_r in Hx.
    + exact Hevs.
    + done.
Qed.

Lemma final_status_binary_witness :
  exists sf,
    w_state_file after_failed_run = Some sf
    /\ run_state sf = completed_with_errors.
Proof.
  destruct (final_status_binary [] sample_env (always no_download)
                                (new_world [photo]))
    as (w' & evs & Hmain & Htr & H & _).
  assert (Hw' : w' = after_failed_run)
    by (unfold after_failed_run; by rewrite Hmain).
  assert (Hevs : evs = drop (length (w_trace (new_world [photo])))
                            (w_trace w'))
    by (rewrite Htr; by rewrite drop_app_length).
  rewrite <- Hw'.
  destruct H as [[Hexit _] | [(Hnone & _) | (_ & _ & sf & Hsf & _ & _ & Herr)]].
  - exfalso. rewrite Hevs, Hw' in Hexit. vm_compute in Hexit. discriminate.
  - exfalso. vm_compute in Hnone. discriminate.
  - exists sf. split; [exact Hsf|].
    apply Herr. rewrite Hw' in Hsf. vm_compute in Hsf.
    injection Hsf as <-. vm_compute. discriminate.
Defined.

(** C5 as stated fails on a run that finds no record to migrate after a
    run that was stopped between the bookkeeping of its last record and
    the writing of its final status: the run succeeds and writes
    nothing, and the state file keeps the status [in_progress], which is
    not [completed] although the counter of failures is zero. *)
Lemma stopped_run_stays_in_progress :
  let w' := (Migrate.main [] sample_env (always all_well) stopped_run).2 in
  Migrate.outstanding (loaded stopped_run) (cloudinary_files stopped_run) = []
  /\ w_trace w' = w_trace stopped_run ++ [EvSelect; EvClose]
  /\ exists sf,
       w_state_file w' = Some sf
       /\ run_state sf = in_progress
       /\ stat_failed (statistics sf) = 0%nat.
Proof.
  cbv zeta. split; [vm_compute; reflexivity|].
  split; [vm_compute; reflexivity|].
  eexists. split; [vm_compute; reflexivity|].
  split; vm_compute; reflexivity.
Qed.

(** *** Counters *)

Lemma booked_outcomes file r n s :
  outcomes (statistics (booked file r n s)) = S (outcomes (statistics s)).
Proof. destruct r; cbn; unfold outcomes; cbn; lia. Qed.

Lemma booked_processed file r n s :
  processed (statistics (booked file r n s)) = S n.
Proof. destruct r; reflexivity. Qed.

Lemma booked_counters_grow file r n s :
  (stat_success (statistics s) <= stat_success (statistics (booked file r n s))
   /\ stat_failed (statistics s) <= stat_failed (statistics (booked file r n s))
   /\ stat_skipped (statistics s)
      <= stat_skipped (statistics (booked file r n s)))%nat.
Proof. destruct r; cbn; lia. Qed.

Lemma replay_outcomes rs : forall n s,
  outcomes (statistics (replay rs n s))
  = (outcomes (statistics s) + length rs)%nat.
Proof.
  induction rs as [|[file r] rs IH]; intros n s; cbn [replay length].
  - lia.
  - rewrite IH, booked_outcomes. lia.
Qed.

Lemma replay_processed rs : forall n s,
  rs <> [] ->
  processed (statistics (replay rs n s)) = (n + length rs)%nat.
Proof.
  induction rs as [|[file r] rs IH]; intros n s Hne; [done|].
  cbn [replay length]. destruct rs as [|x rs'].
  - cbn [replay length]. rewrite booked_processed. lia.
  - rewrite IH by discriminate. cbn [length]. lia.
Qed.

Lemma replay_counters_grow rs : forall n s,
  (stat_success (statistics s) <= stat_success (statistics (replay rs n s))
   /\ stat_failed (statistics s) <= stat_failed (statistics (replay rs n s))
   /\ stat_skipped (statistics s)
      <= stat_skipped (statistics (replay rs n s)))%nat.
Proof.
  induction rs as [|[file r] rs IH]; intros n s; cbn [replay]; [lia|].
  specialize (IH (S n) (booked file r n s)).
  pose proof (booked_counters_grow file r n s). lia.
Qed.

(** C10, as amended. A run that starts from a state file, has records
    to migrate and is not aborted leaves a state file in which [processed]
    is the number of records of this run, while the three outcome counters
    are those of the state file it started from plus, together, the
    number of records of this run; so [processed] differs from the sum of
    the outcome counters as soon as that sum exceeds the records of this
    run. *)
Theorem resumed_processed_counter
    (args : list string) (env : DBHelper.Env) (O : oracle) (w : world)
    (s0 : State) :
  w_state_file w = Some s0 ->
  Migrate.outstanding s0 (cloudinary_files w) <> [] ->
  exists w' evs,
    Migrate.main args env O w = (Ok tt, w')
    /\ w_trace w' = w_trace w ++ evs
    /\ (forallb (fun e => negb (is_exit e)) evs = true ->
        exists sf,
          w_state_file w' = Some sf
          /\ processed (statistics sf)
             = length (Migrate.outstanding s0 (cloudinary_files w))
          /\ (stat_success (statistics s0) <= stat_success (statistics sf))%nat
          /\ (stat_failed (statistics s0) <= stat_failed (statistics sf))%nat
          /\ (stat_skipped (statistics s0) <= stat_skipped (statistics sf))%nat
          /\ outcomes (statistics sf)
             = (outcomes (statistics s0)
                + length (Migrate.outstanding s0 (cloudinary_files w)))%nat
          /\ ((length (Migrate.outstanding s0 (cloudinary_files w))
               < outcomes (statistics sf))%nat ->
              processed (statistics sf) <> outcomes (statistics sf))).
Proof.
  intros Hfile Hsome.
  destruct (main_run args env O w)
    as (w' & evs & rs & Hmain & Htr & _ & _ & _ & _ & Hend).
  assert (Hloaded : loaded w = s0) by (unfold loaded; by rewrite Hfile).
  rewrite Hloaded in Hend.
  exists w', evs. split; [assumption|]. split; [assumption|].
  intros Hx.
  destruct Hend as [((evs0 & ->) & _) | [(Hnone & _)
                    | (_ & Hall & _ & _ & Hsf)]].
  - rewrite forallb_app in Hx. cbn in Hx. by rewrite andb_false_r in Hx.
  - done.
  - eexists. split; [exact Hsf|].
    rewrite finished_statistics.
    assert (Hlen : length rs
                   = length (Migrate.outstanding s0 (cloudinary_files w)))
      by (by rewrite <- (Permutation_length Hall), length_map).
    assert (Hrs : rs <> []).
    { intros ->. cbn in Hall. by apply Permutation_nil in Hall. }
    rewrite replay_processed, replay_outcomes, Hlen by assumption.
    pose proof (replay_counters_grow rs 0 (started w)) as Hgrow.
    unfold started in *. rewrite Hloaded in *. cbn in Hgrow.
    unfold outcomes at 2 4. cbn.
    repeat split; try lia.
Qed.

Lemma resumed_processed_counter_witness :
  exists sf,
    w_state_file (Migrate.main [] sample_env (always all_well)
                               second_batch).2 = Some sf
    /\ processed (statistics sf) = 1%nat
    /\ outcomes (statistics sf) = 2%nat.
Proof.
  destruct (resumed_processed_counter [] sample_env (always all_well)
              second_batch (loaded second_batch))
    as (w' & evs & Hmain & Htr & H).
  { vm_compute. reflexivity. }
  { vm_compute. discriminate. }
  rewrite Hmain. cbn [snd].
  assert (Hw' : w' = (Migrate.main [] sample_env (always all_well)
                                   second_batch).2)
    by (by rewrite Hmain).
  destruct H as (sf & Hsf & Hp & _ & _ & _ & Ho & _).
  { assert (Hevs : evs = drop (length (w_trace second_batch)) (w_trace w'))
      by (rewrite Htr; by rewrite drop_app_length).
    rewrite Hevs, Hw'. vm_compute. reflexivity. }
  exists sf. split; [assumption|]. split; [exact Hp|exact Ho].
Defined.

(** C10 as stated fails on a resumed run that finds no record to
    migrate: the run handles no record, and the state file keeps the
    [processed] of the earlier run, which is not zero and is equal to the
    sum of the outcome counters. *)
Lemma resumed_noop_keeps_processed :
  exists s0 sf,
    w_state_file after_first_run = Some s0
    /\ Migrate.outstanding s0 (cloudinary_files after_first_run) = []
    /\ w_state_file (Migrate.main [] sample_env (always all_well)
                                  after_first_run).2 = Some sf
    /\ processed (statistics sf) <> 0%nat
    /\ (0 < outcomes (statistics sf))%nat
    /\ processed (statistics sf) = outcomes (statistics sf).
Proof.
  do 2 eexists.
  split; [vm_compute; reflexivity|].
  split; [vm_compute; reflexivity|].
  split; [vm_compute; reflexivity|].
  vm_compute. repeat split; try discriminate. lia.
Qed.

(** *** Collections *)


Lemma ids_snoc l e : ids (l ++ [e]) = ids l ++ [entry_id e].
Proof. unfold ids. by rewrite map_app. Qed.

Lemma extends_refl s : extends s s.
Proof. repeat split; reflexivity. Qed.

Lemma extends_trans s1 s2 s3 : extends s1 s2 -> extends s2 s3 -> extends s1 s3.
Proof.
  intros (? & ? & ?) (? & ? & ?). repeat split; by etrans.
Qed.

Lemma booked_extends file r n s : extends s (booked file r n s).
Proof.
  destruct r; repeat split; cbn; try reflexivity; by apply prefix_app_r.
Qed.

Lemma replays_extends rs : forall n s s',
  s' ∈ replays rs n s -> extends s s'.
Proof.
  induction rs as [|[file r] rs IH]; intros n s s'; cbn [replays].
  - by intros ?%elem_of_nil.
  - intros [-> | Hin]%elem_of_cons; [apply booked_extends|].
    eapply extends_trans; [apply booked_extends|]. eapply IH, Hin.
Qed.

Lemma replay_extends rs : forall n s, extends s (replay rs n s).
Proof.
  induction rs as [|[file r] rs IH]; intros n s; cbn [replay].
  - apply extends_refl.
  - eapply extends_trans; [apply booked_extends|apply IH].
Qed.

Lemma finished_extends s : extends s (finished s).
Proof. repeat split; reflexivity. Qed.

Lemma started_extends w : extends (loaded w) (started w).
Proof. repeat split; reflexivity. Qed.

Lemma booked_ids file r n s :
  ids (processed_files (booked file r n s))
  = ids (processed_files s)
    ++ match status r with success => [id file] | _ => [] end
  /\ ids (failed_files (booked file r n s))
     = ids (failed_files s)
       ++ match status r with failed => [id file] | _ => [] end
  /\ ids (skipped_files (booked file r n s))
     = ids (skipped_files s)
       ++ match status r with skipped => [id file] | _ => [] end.
Proof.
  destruct r; cbn [booked Migrate.update_state status processed_files
                   failed_files skipped_files Migrate.set_statistics];
    rewrite ?ids_snoc, ?app_nil_r; done.
Qed.

Ltac membership :=
  repeat match goal with
    | H : _ ∈ _ ++ _ |- _ => apply elem_of_app in H as [H | H]
    | H : _ ∈ [_] |- _ => apply list_elem_of_singleton in H; subst
    | H : _ ∈ [] |- _ => by apply elem_of_nil in H
    end.

Lemma booked_disjoint file r n s :
  disjoint_ids s -> unseen (id file) s -> disjoint_ids (booked file r n s).
Proof.
  intros Hd (Hp & Hf & Hs) i. specialize (Hd i). destruct Hd as (H1 & H2 & H3).
  destruct (booked_ids file r n s) as (-> & -> & ->).
  destruct (status r); repeat split; intros [Ha Hb]; membership; tauto.
Qed.

Lemma booked_unseen file r n s i :
  unseen i s -> i <> id file -> unseen i (booked file r n s).
Proof.
  intros (Hp & Hf & Hs) Hne. unfold unseen.
  destruct (booked_ids file r n s) as (-> & -> & ->).
  destruct (status r); repeat split; intros Ha; membership; tauto.
Qed.

Lemma replays_disjoint rs : forall n s,
  disjoint_ids s ->
  NoDup (map id (map fst rs)) ->
  Forall (fun f => unseen (id f) s) (map fst rs) ->
  forall s', s' ∈ replays rs n s \/ s' = replay rs n s -> disjoint_ids s'.
Proof.
  induction rs as [|[file r] rs IH]; intros n s Hd Hnd Hun s';
    cbn [replays replay map fst] in *.
  - intros [?%elem_of_nil | ->]; done.
  - apply NoDup_cons in Hnd as [Hnotin Hnd].
    apply Forall_cons in Hun as [Hu Hun].
    assert (Hd' : disjoint_ids (booked file r n s))
      by (by apply booked_disjoint).
    assert (Hun' : Forall (fun f => unseen (id f) (booked file r n s))
                          (map fst rs)).
    { rewrite Forall_forall in Hun |- *. intros f Hf.
      apply booked_unseen; [by apply Hun|].
      intros Heq. apply Hnotin. rewrite <- Heq.
      apply list_elem_of_In, in_map, list_elem_of_In, Hf. }
    intros [[-> | Hin]%elem_of_cons | ->]; [assumption| |];
      eapply (IH (S n) (booked file r n s)); eauto.
Qed.

Lemma replay_in_replays rs : forall n s,
  rs <> [] -> replay rs n s ∈ replays rs n s.
Proof.
  induction rs as [|[file r] rs IH]; intros n s Hne; [done|].
  cbn [replay replays]. destruct rs as [|x rs'].
  - by left.
  - right. by apply IH.
Qed.

Lemma includes_spec xs x : JS.includes xs x = true <-> x ∈ xs.
Proof.
  unfold JS.includes. rewrite existsb_exists, list_elem_of_In. split.
  - intros (y & Hy & Heq). apply Z.eqb_eq in Heq. by subst.
  - intros H. exists x. split; [assumption|apply Z.eqb_refl].
Qed.

Lemma outstanding_spec s all f :
  f ∈ Migrate.outstanding s all ->
  f ∈ all /\ (id f ∉ ids (processed_files s)).
Proof.
  unfold Migrate.outstanding.
  intros [Hin Hp]%list_elem_of_In%filter_In.
  split; [by apply list_elem_of_In|].
  intros Hc%includes_spec. unfold ids in Hc. by rewrite Hc in Hp.
Qed.

Lemma submseteq_NoDup {A} (l k : list A) : l ⊆+ k -> NoDup k -> NoDup l.
Proof.
  intros [rest Hperm]%submseteq_Permutation Hk. rewrite Hperm in Hk.
  by apply NoDup_app in Hk as (? & _).
Qed.

(** C4, as amended. Along every run, whatever the order in which the
    tasks are resumed, each state written to the state file extends the
    collections of the state the run started from, so the ids of a
    collection only grow, also across a restart. When the run starts
    from a state in which no id is in two collections, the records it
    has to migrate have distinct ids, and none of them is in the failed
    or skipped collection of the starting state (as on a first run),
    then no id is in two collections of any state written. *)
Theorem collections_grow_disjoint
    (args : list string) (env : DBHelper.Env) (O : oracle) (w : world) :
  exists w' evs,
    Migrate.main args env O w = (Ok tt, w')
    /\ w_trace w' = w_trace w ++ evs
    /\ (forall sf, w_state_file w' = Some sf ->
          sf ∈ saved evs \/ w_state_file w = Some sf)
    /\ (forall s, s ∈ saved evs -> extends (loaded w) s)
    /\ (disjoint_ids (loaded w) ->
        NoDup (map id (Migrate.outstanding (loaded w) (cloudinary_files w))) ->
        (forall f, f ∈ Migrate.outstanding (loaded w) (cloudinary_files w) ->
           (id f ∉ ids (failed_files (loaded w)))
           /\ (id f ∉ ids (skipped_files (loaded w)))) ->
        forall s, s ∈ saved evs -> disjoint_ids s).
Proof.
  destruct (main_run args env O w)
    as (w' & evs & rs & Hmain & Htr & _ & Hpre & _ & _ & Hend).
  exists w', evs. split; [assumption|]. split; [assumption|].
  assert (Hsaved : forall s, s ∈ saved evs ->
            s ∈ replays rs 0 (started w)
            \/ s = finished (replay rs 0 (started w))).
  { intros s Hs.
    destruct Hend as [(_ & Hsv & _) | [(_ & -> & _) | (_ & _ & _ & Hsv & _)]].
    - rewrite Hsv in Hs. by left.
    - cbn in Hs. by apply elem_of_nil in Hs.
    - rewrite Hsv in Hs. apply elem_of_app in Hs as [Hs | Hs]; [by left|].
      apply list_elem_of_singleton in Hs. by right. }
  split.
  { intros sf Hsf.
    destruct Hend as [(_ & Hsv & Hnil & Hcons) | [(_ & _ & Hsame & _)
                      | (_ & _ & _ & Hsv & Hlast)]].
    - destruct (decide (rs = [])) as [Hrs | Hrs].
      + right. by rewrite <- (Hnil Hrs).
      + left. rewrite (Hcons Hrs) in Hsf.
        assert (sf = replay rs 0 (started w)) as -> by congruence.
        rewrite Hsv. by apply replay_in_replays.
    - right. by rewrite <- Hsame.
    - left. rewrite Hlast in Hsf.
      assert (sf = finished (replay rs 0 (started w))) as -> by congruence.
      rewrite Hsv. apply elem_of_app. right. by apply list_elem_of_singleton. }
  split.
  - intros s [Hs | ->]%Hsaved.
    + eapply extends_trans; [apply started_extends|].
      eapply replays_extends, Hs.
    + eapply extends_trans; [apply started_extends|].
      eapply extends_trans; [apply replay_extends|apply finished_extends].
  - intros Hd Hnd Hother s Hs.
    assert (Hnd' : NoDup (map id (map fst rs))).
    { eapply submseteq_NoDup; [|exact Hnd]. by apply fmap_submseteq. }
    assert (Hun : Forall (fun f => unseen (id f) (started w)) (map fst rs)).
    { apply Forall_forall. intros f Hf.
      assert (Hin : f ∈ Migrate.outstanding (loaded w) (cloudinary_files w))
        by (by eapply elem_of_submseteq).
      destruct (Hother f Hin).
      apply outstanding_spec in Hin as [Hin Hp]. by repeat split. }
    pose proof (replays_disjoint rs 0 (started w) Hd Hnd' Hun) as Hall.
    apply Hsaved in Hs as [Hs | ->].
    + apply Hall. by left.
    + intros i. apply (Hall (replay rs 0 (started w))). by right.
Qed.

Lemma collections_grow_disjoint_witness :
  exists sf,
    w_state_file (Migrate.main ["--dry-run"] sample_env gone_at_second
                               (new_world [photo; poster])).2 = Some sf
    /\ ids (processed_files sf) = [1]
    /\ ids (skipped_files sf) = [2]
    /\ disjoint_ids sf.
Proof.
  destruct (collections_grow_disjoint ["--dry-run"] sample_env gone_at_second
                                      (new_world [photo; poster]))
    as (w' & evs & Hmain & Htr & Hfile & _ & Hdisjoint).
  rewrite Hmain. cbn [snd].
  assert (Hw' : w' = (Migrate.main ["--dry-run"] sample_env gone_at_second
                                   (new_world [photo; poster])).2)
    by (by rewrite Hmain).
  assert (Hsf : exists sf, w_state_file w' = Some sf)
    by (rewrite Hw'; vm_compute; eauto).
  destruct Hsf as (sf & Hsf). exists sf. split; [assumption|].
  assert (Hids : ids (processed_files sf) = [1]
                 /\ ids (skipped_files sf) = [2]).
  { rewrite Hw' in Hsf. vm_compute in Hsf. injection Hsf as <-.
    split; reflexivity. }
  split; [apply Hids|]. split; [apply Hids|].
  destruct (Hfile sf Hsf) as [Hin | Hold]; [|discriminate Hold].
  apply Hdisjoint; [| | |assumption].
  - intros i. vm_compute. repeat split; intros [H _]; inversion H.
  - vm_compute. repeat constructor; intros H; inversion H; subst;
      try discriminate;
      match goal with H' : _ ∈ [] |- _ => inversion H' end.
  - intros f _. vm_compute. split; intros H; inversion H.
Defined.

(** C4 as stated fails on a resumed run: a record that failed in an
    earlier run is tried again, and when it then succeeds its id is in
    the processed collection and still in the failed one. *)
Lemma retried_id_in_two_collections :
  exists s0 sf,
    w_state_file after_failed_run = Some s0
    /\ disjoint_ids s0
    /\ w_state_file (Migrate.main [] sample_env (always all_well)
                                  after_failed_run).2 = Some sf
    /\ 1 ∈ ids (processed_files sf)
    /\ 1 ∈ ids (failed_files sf)
    /\ ~ disjoint_ids sf.
Proof.
  do 2 eexists.
  split; [vm_compute; reflexivity|].
  split.
  { intros i. vm_compute. repeat split; intros [H1 H2]; inversion H1; inversion H2. }
  split; [vm_compute; reflexivity|].
  assert (H1 : 1 ∈ [1]) by (by left).
  split; [vm_compute; exact H1|]. split; [vm_compute; exact H1|].
  intros Hd. destruct (Hd 1) as (Hpf & _). apply Hpf.
  split; vm_compute; exact H1.
Qed.

Lemma probe_failure_ignored file u fl d w e :
  probe fl = Throw e ->
  R2Uploader.is_404 (JS.response_status e) = false ->
  Migrate.migrateFile file u fl d w
  = Migrate.migrateFile file u (with_src_head (Responds 0 0) fl) d w.
Proof.
  unfold probe. intros Hp H404.
  unfold Migrate.migrateFile.
  unfold try_catch at 1 3. unfold bind at 1. unfold bind at 7.
  unfold try_catch at 1 2. unfold bind at 1. unfold bind at 6.
  rewrite !head_run.
  cbn [src_head with_src_head].
  rewrite Hp. cbn [axios.respond Z.ltb Z.compare]. rewrite H404.
  reflexivity.
Qed.

(* ================================================================= *)
(** ** The transaction of a record *)

(** C1. The task of a record does not roll the transaction back when a
    step of the transfer fails. On a table of one record whose download
    is refused at each of the three attempts, [migrateFile] catches the
    error and returns the result [failed]; the task then closes the
    transaction of the record with [COMMIT] and books the failure.
    [ROLLBACK] is not sent. The row is as it was, and the run ends with
    errors. *)
Theorem failed_step_is_committed :
  List.filter is_download (w_trace after_failed_run)
  = download_schedule (url photo)
  /\ List.filter is_transaction (w_trace after_failed_run)
     = [EvBegin; EvCommit]
  /\ existsb is_rollback (w_trace after_failed_run) = false
  /\ w_rows after_failed_run = [photo]
  /\ exists sf,
       w_state_file after_failed_run = Some sf
       /\ run_state sf = completed_with_errors
       /\ map entry_result (failed_files sf)
          = [Failed "Download failed after 3 retries: socket hang up"
                    (Some 3%nat)].
Proof.
  split; [vm_compute; reflexivity|].
  split; [vm_compute; reflexivity|].
  split; [vm_compute; reflexivity|].
  split; [vm_compute; reflexivity|].
  eexists. split; [vm_compute; reflexivity|].
  split; vm_compute; reflexivity.
Qed.

(** What else holds of C1: the transactions of the records are not
    apart. The tasks in flight send their [BEGIN], [COMMIT] and
    [ROLLBACK] on the one connection of the run. With two records on
    SQLite the [ROLLBACK] of the second task closes the transaction the
    first task opened; the row of the first record is then rewritten
    outside any transaction, its [COMMIT] and its [ROLLBACK] are refused,
    and the run leaves the process with the row rewritten and the record
    booked nowhere. *)
Lemma transactions_share_the_connection :
  let w' := (Migrate.main [] sample_env one_connection
                          (new_world [photo; poster])).2 in
  List.filter (fun e => is_transaction e || is_rewrite e || is_save e
                        || is_exit e)
              (map (fun e => match e with
                             | EvSaveState _ => EvSaveState Migrate.fresh_state
                             | _ => e
                             end) (w_trace w'))
  = [EvBegin; EvBegin; EvRollback; EvSaveState Migrate.fresh_state;
     EvUpdate 1 "https://media.acct.r2.cloudflarestorage.com/abc.png";
     EvCommit; EvRollback; EvExit 1]
  /\ map provider (w_rows w') = ["aws-s3"; "cloudinary"]
  /\ exists sf,
       w_state_file w' = Some sf
       /\ run_state sf = in_progress
       /\ ids (processed_files sf) = []
       /\ ids (failed_files sf) = [2].
Proof.
  cbv zeta. split; [vm_compute; reflexivity|].
  split; [vm_compute; reflexivity|].
  eexists. split; [vm_compute; reflexivity|].
  repeat split; vm_compute; reflexivity.
Qed.

(* ================================================================= *)
(** ** The source probe *)

(** C3, as amended. When the source probe answers 404, [migrateFile]
    returns [skipped] after the probe alone: nothing is downloaded,
    uploaded or rewritten. On a dry run no transaction is opened for the
    record; on a real run the transaction opened before the probe is
    committed with nothing in it. Every other failure of the probe is
    dropped: [migrateFile] goes on exactly as after a probe that
    succeeded, and the later steps decide the outcome. *)
Theorem source_probe_outcomes
    (u : R2Uploader.t) (O : oracle) (file : File) (w : world) :
  (source_missing (faults_of O file) = true ->
     (forall d,
        Migrate.migrateFile file u (faults_of O file) d w
        = (Ok skipped_404, log [EvHead (url file) 10000] w))
     /\ Migrate.task u O true file w
        = (Ok tt, book file skipped_404 (log [EvHead (url file) 10000] w))
     /\ (db_begin_fault (faults_of O file) = None ->
         db_commit_fault (faults_of O file) = None ->
         exists w',
           Migrate.task u O false file w = (Ok tt, w')
           /\ w_trace w' =
                w_trace w ++ [EvBegin; EvHead (url file) 10000; EvCommit;
                              EvSaveState (w_state w')]
           /\ w_rows w' = w_rows w
           /\ w_bucket w' = w_bucket w
           /\ w_state w'
              = booked file skipped_404 (w_processed w) (w_state w)))
  /\ (forall e d,
        probe (faults_of O file) = Throw e ->
        R2Uploader.is_404 (JS.response_status e) = false ->
        Migrate.migrateFile file u (faults_of O file) d w
        = Migrate.migrateFile file u
            (with_src_head (Responds 0 0) (faults_of O file)) d w).
Proof.
  split; [|intros e d; apply probe_failure_ignored].
  intros Hmiss. split; [|split].
  - intros d.
    destruct (migrateFile_run file u (faults_of O file) d w)
      as (r & rows & bucket & evs & -> & _ & _ & _ & _ & H & _).
    destruct (H Hmiss) as (-> & -> & -> & ->). by rewrite <- touch_same.
  - destruct (task_dry u O file w) as (r & evs & _ & _ & H & _ & ->).
    by destruct (H Hmiss) as (-> & ->).
  - intros Hb Hc.
    destruct (task_real u O file w)
      as (r & rows & bucket & evs & _ & _ & Hns & _ & H & _ & _ & Htask).
    destruct (H Hmiss) as (-> & -> & ->).
    rewrite Hb, Hc in Htask. cbn zeta in Htask.
    eexists. split; [exact Htask|].
    split; [cbn; by rewrite <- !app_assoc|].
    split; [cbn; apply Hns; discriminate|]. done.
Qed.

Lemma source_probe_outcomes_witness :
  Migrate.migrateFile photo (R2Uploader.fromEnv sample_env) source_gone
                      false (new_world [photo])
  = (Ok skipped_404, log [EvHead (url photo) 10000] (new_world [photo]))
  /\ Migrate.migrateFile photo (R2Uploader.fromEnv sample_env)
                         probe_times_out false (new_world [photo])
     = Migrate.migrateFile photo (R2Uploader.fromEnv sample_env)
                           (with_src_head (Responds 0 0) probe_times_out)
                           false (new_world [photo]).
Proof.
  split.
  - destruct (source_probe_outcomes (R2Uploader.fromEnv sample_env)
                (always source_gone) photo (new_world [photo]))
      as [Hmissing _].
    destruct (Hmissing eq_refl) as (H & _). apply H.
  - destruct (source_probe_outcomes (R2Uploader.fromEnv sample_env)
                (always probe_times_out) photo (new_world [photo]))
      as [_ Hother].
    exact (Hother (axios.timeout_error 10000) false eq_refl eq_refl).
Defined.

(** C3 as stated fails for a probe that times out: the failure of the
    probe is not recorded, the record is downloaded, uploaded and
    rewritten, and its outcome is [success]. *)
Lemma probe_timeout_is_not_failed :
  let run := Migrate.migrateFile photo (R2Uploader.fromEnv sample_env)
                                 probe_times_out false (new_world [photo]) in
  probe probe_times_out = Throw (axios.timeout_error 10000)
  /\ R2Uploader.is_404 (JS.response_status (axios.timeout_error 10000))
     = false
  /\ run.1 = Ok (Success "http://src/abc.png"
                         "https://media.acct.r2.cloudflarestorage.com/abc.png"
                         10)
  /\ map provider (w_rows run.2) = ["aws-s3"].
Proof. by_computation. Qed.


(* ================================================================= *)
(** ** Dry runs *)

(** What holds of C2: a dry run makes no call that uploads, rewrites the
    table or opens a transaction. *)
Lemma dry_run_calls (args : list string) (env : DBHelper.Env) (O : oracle)
    (w : world) :
  JS.includes_str args "--dry-run" = true ->
  exists w' evs,
    Migrate.main args env O w = (Ok tt, w')
    /\ w_trace w' = w_trace w ++ evs
    /\ forallb is_quiet evs = true.
Proof.
  intros Hd.
  destruct (main_run args env O w)
    as (w' & evs & rs & Hmain & Htr & Hq & _).
  exists w', evs. split; [exact Hmain|]. split; [exact Htr|].
  by destruct (Hq Hd).
Qed.

(** C2 on a table of one record. The dry run writes the state file, with
    the record among the processed ones and its placeholder URL; a second
    dry run then finds nothing to migrate and probes nothing, and so does
    a real run, which leaves the record at the source. *)
Theorem dry_run_persists_state :
  (exists sf,
     w_state_file after_dry_run = Some sf
     /\ map entry_result (processed_files sf)
        = [Success "http://src/abc.png"
             "[DRY-RUN] https://media.acct.r2.cloudflarestorage.com/abc.png"
             10])
  /\ map is_save (w_trace after_dry_run)
     = [false; false; false; true; true; false]
  /\ w_trace (Migrate.main ["--dry-run"] sample_env (always all_well)
                           after_dry_run).2
     = w_trace after_dry_run ++ [EvSelect; EvClose]
  /\ w_trace (Migrate.main [] sample_env (always all_well) after_dry_run).2
     = w_trace after_dry_run ++ [EvSelect; EvClose]
  /\ map provider
         (w_rows (Migrate.main [] sample_env (always all_well)
                               after_dry_run).2)
     = ["cloudinary"].
Proof.
  split; [eexists; split; vm_compute; reflexivity|].
  by_computation.
Qed.

(* ================================================================= *)
(** ** The endpoint of the destination *)


Lemma unusable_no_url env key :
  endpoint_unusable env ->
  exists e, R2Uploader.getPublicUrl (R2Uploader.fromEnv env) key = Throw e.
Proof.
  intros [Hpub Hend]. unfold R2Uploader.getPublicUrl, R2Uploader.fromEnv.
  cbn [R2Uploader.publicUrl]. rewrite Hpub.
  unfold R2Uploader.extractAccountId. cbn [R2Uploader.endpoint].
  destruct (DBHelper.AWS_ENDPOINT env); [rewrite Hend|]; eauto.
Qed.

Lemma unusable_never_success env O fr :
  endpoint_unusable env ->
  result_of (R2Uploader.fromEnv env) O fr -> status fr.2 <> success.
Proof.
  intros Hbad [_ Hno].
  destruct (unusable_no_url env (key_of fr.1) Hbad) as (e & He).
  eapply Hno, He.
Qed.

Lemma booked_no_success file r n s :
  status r <> success ->
  processed_files (booked file r n s) = processed_files s.
Proof. destruct r; [done| |]; reflexivity. Qed.

Lemma replay_no_success rs : forall n s,
  Forall (fun fr => status fr.2 <> success) rs ->
  processed_files (replay rs n s) = processed_files s.
Proof.
  induction rs as [|[file r] rs IH]; intros n s Hall; [reflexivity|].
  apply Forall_cons in Hall as [Hr Hall]. cbn [replay].
  rewrite IH by assumption. by apply booked_no_success.
Qed.

Lemma replay_failed rs : forall n s fr,
  fr ∈ rs -> status fr.2 = failed ->
  stat_failed (statistics (replay rs n s)) <> 0%nat.
Proof.
  induction rs as [|[file r] rs IH]; intros n s fr Hin Hfr.
  - by apply elem_of_nil in Hin.
  - cbn [replay]. apply elem_of_cons in Hin as [-> | Hin].
    + pose proof (replay_counters_grow rs (S n) (booked file r n s)) as Hgrow.
      cbn [snd] in Hfr. destruct r; try discriminate Hfr.
      cbn in Hgrow. lia.
    + by eapply IH.
Qed.

(** C7, as amended. When no public domain is configured and the
    endpoint does not match the expected pattern, nothing is checked at
    startup. The error is raised each time a public URL is built and is
    caught by [migrateFile]: no record is ever a [success], a record that
    passes the source probe is [failed], and [migrateFile] does not
    rewrite the table. The run itself is not aborted for it: when the
    database works, the process does not exit; the state file never
    gains a processed record; and a run that reaches its end with a
    record to migrate that passed the source probe ends with the status
    [completed_with_errors]. *)
Theorem invalid_endpoint_is_per_record
    (args : list string) (env : DBHelper.Env) (O : oracle) (w : world) :
  endpoint_unusable env ->
  (forall file d w0,
     exists r w1,
       Migrate.migrateFile file (R2Uploader.fromEnv env) (faults_of O file)
                           d w0 = (Ok r, w1)
       /\ status r <> success
       /\ (source_missing (faults_of O file) = false -> status r = failed)
       /\ w_rows w1 = w_rows w0)
  /\ exists w' evs,
       Migrate.main args env O w = (Ok tt, w')
       /\ w_trace w' = w_trace w ++ evs
       /\ (db_connect_fault O = None ->
           DBHelper.or_else (DBHelper.DATABASE_CLIENT env) "sqlite" = "sqlite"
           \/ DBHelper.or_else (DBHelper.DATABASE_CLIENT env) "sqlite"
              = "postgres" ->
           db_select_fault O = None ->
           rollback_works O
             (Migrate.outstanding (loaded w) (cloudinary_files w)) ->
           forallb (fun e => negb (is_exit e)) evs = true)
       /\ (forall sf, w_state_file w' = Some sf ->
             processed_files sf = processed_files (loaded w))
       /\ (forallb (fun e => negb (is_exit e)) evs = true ->
           (exists f,
              f ∈ Migrate.outstanding (loaded w) (cloudinary_files w)
              /\ source_missing (faults_of O f) = false) ->
           exists sf,
             w_state_file w' = Some sf
             /\ run_state sf = completed_with_errors).
Proof.
  intros Hbad. split.
  - intros file d w0.
    destruct (unusable_no_url env (key_of file) Hbad) as (e & He).
    destruct (migrateFile_run file (R2Uploader.fromEnv env)
                              (faults_of O file) d w0)
      as (r & rows & bucket & evs & Hrun & _ & Hns & _ & _ & _ & Hfound & Hno).
    exists r. eexists. split; [exact Hrun|].
    specialize (Hno e He).
    split; [assumption|]. split.
    + intros Hsrc. specialize (Hfound Hsrc). by destruct (status r).
    + cbn. by apply Hns.
  - destruct (main_run args env O w)
      as (w' & evs & rs & Hmain & Htr & _ & _ & Hprov & Hlive & Hend).
    exists w', evs. split; [assumption|]. split; [assumption|].
    split; [intros Hc Hcl Hs Hr; apply Hlive; auto|].
    assert (Hnone : Forall (fun fr => status fr.2 <> success) rs).
    { eapply Forall_impl; [exact Hprov|].
      intros fr. by apply unusable_never_success. }
    split.
    + intros sf Hsf.
      destruct Hend as [(_ & _ & Hnil & Hcons) | [(_ & _ & Hsame & _)
                        | (_ & _ & _ & _ & Hlast)]].
      * destruct (decide (rs = [])) as [Hrs | Hrs].
        -- rewrite (Hnil Hrs) in Hsf. unfold loaded. by rewrite Hsf.
        -- rewrite (Hcons Hrs) in Hsf.
           assert (sf = replay rs 0 (started w)) as -> by congruence.
           by rewrite replay_no_success.
      * rewrite Hsame in Hsf. unfold loaded. by rewrite Hsf.
      * rewrite Hlast in Hsf.
        assert (sf = finished (replay rs 0 (started w))) as -> by congruence.
        cbn [finished Migrate.set_run_state processed_files].
        by rewrite replay_no_success.
    + intros Hx (f & Hf & Hsrc).
      destruct Hend as [((evs0 & ->) & _) | [(Hnil & _)
                        | (_ & Hall & _ & _ & Hlast)]].
      * rewrite forallb_app in Hx. cbn in Hx. by rewrite andb_false_r in Hx.
      * rewrite Hnil in Hf. by apply elem_of_nil in Hf.
      * eexists. split; [exact Hlast|].
        rewrite finished_run_state.
        rewrite <- Hall in Hf.
        apply list_elem_of_fmap in Hf as (fr & -> & Hfr).
        assert (Hfailed : status fr.2 = failed).
        { apply Forall_forall with (x := fr) in Hprov as Hres; [|exact Hfr].
          apply Forall_forall with (x := fr) in Hnone; [|exact Hfr].
          destruct Hres as [Hskip _]. specialize (Hskip Hsrc).
          by destruct (status fr.2). }
        pose proof (replay_failed rs 0 (started w) fr Hfr Hfailed) as Hpos.
        by destruct (stat_failed _).
Qed.

Lemma invalid_endpoint_is_per_record_witness :
  (exists r w1,
     Migrate.migrateFile photo (R2Uploader.fromEnv odd_env) all_well false
                         (new_world [photo]) = (Ok r, w1)
     /\ status r = failed)
  /\ exists sf,
       w_state_file (Migrate.main [] odd_env (always all_well)
                                  (new_world [photo])).2 = Some sf
       /\ run_state sf = completed_with_errors.
Proof.
  destruct (invalid_endpoint_is_per_record [] odd_env (always all_well)
              (new_world [photo]))
    as [Hrecord (w' & evs & Hmain & Htr & _ & _ & Hend)].
  { split; [reflexivity|]. vm_compute. reflexivity. }
  split.
  - destruct (Hrecord photo false (new_world [photo]))
      as (r & w1 & Hrun & _ & Hfailed & _).
    exists r, w1. split; [exact Hrun|]. apply Hfailed. reflexivity.
  - rewrite Hmain. cbn [snd]. apply Hend.
    + assert (Hevs : evs = drop (length (w_trace (new_world [photo])))
                                (w_trace w'))
        by (rewrite Htr; by rewrite drop_app_length).
      assert (Hw' : w' = (Migrate.main [] odd_env (always all_well)
                                       (new_world [photo])).2)
        by (by rewrite Hmain).
      rewrite Hevs, Hw'. vm_compute. reflexivity.
    + exists photo. split; [vm_compute; by left|reflexivity].
Defined.

(** C7 as stated fails: with an endpoint that does not have the
    expected form the run is not aborted. The record is probed,
    downloaded and put in the bucket, the error is raised when the public
    URL is built and is recorded as the failure of the record, and the
    run ends with errors, without leaving the process. *)
Lemma invalid_endpoint_not_fatal :
  let w' := (Migrate.main [] odd_env (always all_well)
                          (new_world [photo])).2 in
  R2Uploader.extractAccountId (R2Uploader.fromEnv odd_env)
  = Throw (JS.new_Error "Invalid R2 endpoint format")
  /\ existsb is_exit (w_trace w') = false
  /\ existsb is_upload (w_trace w') = true
  /\ exists sf,
       w_state_file w' = Some sf
       /\ run_state sf = completed_with_errors
       /\ map entry_result (failed_files sf)
          = [Failed "Failed to upload to R2: Invalid R2 endpoint format"
                    (Some 3%nat)].
Proof.
  split; [vm_compute; reflexivity|].
  split; [vm_compute; reflexivity|].
  split; [vm_compute; reflexivity|].
  eexists. split; [vm_compute; reflexivity|].
  split; vm_compute; reflexivity.
Qed.

(* ================================================================= *)
(** ** Backups *)

Import BackupHelper.

(** *** Tokens *)

Lemma append_cons c s r : String c s +:+ r = String c (s +:+ r).
Proof. reflexivity. Qed.

Lemma append_nil r : EmptyString +:+ r = r.
Proof. reflexivity. Qed.

Ltac spell := rewrite ?append_cons, ?append_nil.

Lemma match_classes_app p : forall s r t,
  match_classes p s = Some t -> match_classes p (s +:+ r) = Some t.
Proof.
  induction p as [|cl p IH]; intros s r t.
  - by destruct s.
  - destruct s as [|c s]; [done|]. spell. cbn [match_classes].
    destruct (cl c); [|done].
    destruct (match_classes p s) as [m|] eqn:E; [|done].
    intros [= <-]. by rewrite (IH s r m E).
Qed.

Lemma token_needs_b s : has_char "b" s = false -> backup_token s = None.
Proof.
  induction s as [|a s IH]; [reflexivity|].
  cbn [has_char]. intros [Ha Hs]%orb_false_elim.
  cbn [backup_token]. unfold token_here. cbn [JS.strip_prefix].
  assert (Ascii.eqb "b" a = false) as -> by (by rewrite Ascii.eqb_sym).
  by apply IH.
Qed.

Lemma has_char_app c s r :
  has_char c (s +:+ r) = has_char c s || has_char c r.
Proof.
  induction s as [|a s IH]; [reflexivity|].
  spell. cbn [has_char]. by rewrite IH, orb_assoc.
Qed.

Lemma sqlite_name_token ts t :
  match_classes token_pattern ts = Some t ->
  backup_token (sqlite_backup_name ts) = Some t.
Proof.
  intros H. unfold sqlite_backup_name. spell.
  cbn -[match_classes token_pattern]. by rewrite H.
Qed.

Lemma postgres_name_token ts t :
  match_classes token_pattern ts = Some t ->
  backup_token (postgres_backup_name ts) = Some t.
Proof.
  intros H. unfold postgres_backup_name. spell.
  cbn -[match_classes token_pattern].
  by rewrite (match_classes_app _ _ _ _ H).
Qed.

Lemma json_name_token ts t :
  match_classes token_pattern ts = Some t ->
  backup_token (json_backup_name ts) = Some t.
Proof.
  intros H. unfold json_backup_name. spell.
  cbn -[match_classes token_pattern].
  by rewrite (match_classes_app _ _ _ _ H).
Qed.

Lemma csv_name_no_token ts :
  has_char "b" ts = false -> backup_token (csv_mapping_name ts) = None.
Proof.
  intros H. apply token_needs_b. unfold csv_mapping_name.
  rewrite !has_char_app, H. reflexivity.
Qed.

Lemma report_name_no_token ts :
  has_char "b" ts = false -> backup_token (report_name ts) = None.
Proof.
  intros H. unfold report_name. spell.
  cbn [backup_token]. unfold token_here at 1.
  cbn -[backup_token].
  change (is_digit "r") with false. cbn match.
  apply token_needs_b. rewrite has_char_app, H. reflexivity.
Qed.

(** *** Time stamps *)

Lemma replace_keeps_b s :
  has_char "b" (replace_colon_dot s) = has_char "b" s.
Proof.
  induction s as [|a s IH]; [reflexivity|].
  cbn [replace_colon_dot has_char]. rewrite IH.
  destruct (Ascii.eqb_spec a ":") as [-> | _]; [reflexivity|].
  destruct (Ascii.eqb_spec a ".") as [-> | _]; reflexivity.
Qed.

Lemma split_parts c s :
  has_char "b" s = false ->
  Forall (fun p => has_char "b" p = false) (split c s).
Proof.
  induction s as [|a s IH]; cbn [split has_char].
  - intros _. by constructor.
  - intros [Ha Hs]%orb_false_elim. specialize (IH Hs).
    destruct (Ascii.eqb a c).
    + by constructor.
    + destruct (split c s) as [|h t]; [by repeat constructor; cbn; rewrite Ha|].
      apply Forall_cons in IH as [Hh Ht].
      constructor; [|assumption]. cbn [has_char]. by rewrite Ha, Hh.
Qed.

Lemma join_parts sep parts :
  has_char "b" sep = false ->
  Forall (fun p => has_char "b" p = false) parts ->
  has_char "b" (join sep parts) = false.
Proof.
  intros Hsep. unfold join.
  induction parts as [|p parts IH]; [reflexivity|].
  intros [Hp Hparts]%Forall_cons. cbn [String.concat].
  destruct parts as [|q parts]; [assumption|].
  rewrite !has_char_app, Hp, Hsep, (IH Hparts). reflexivity.
Qed.

Lemma getTimestamp_no_b iso :
  has_char "b" iso = false -> has_char "b" (getTimestamp iso) = false.
Proof.
  intros H. unfold getTimestamp.
  assert (Hparts : Forall (fun p => has_char "b" p = false)
            (split "." (join "-" (split "T" (replace_colon_dot iso))))).
  { apply split_parts, join_parts; [reflexivity|].
    apply split_parts. by rewrite replace_keeps_b. }
  destruct (split "." _) as [|h t]; [reflexivity|].
  by apply Forall_cons in Hparts as [Hh _].
Qed.


(** *** Groups *)

Lemma add_file_timestamps t file gs :
  map timestamp (add_file t file gs)
  = if bool_decide (t ∈ map timestamp gs)
    then map timestamp gs else map timestamp gs ++ [t].
Proof.
  induction gs as [|g gs IH]; [reflexivity|].
  cbn [add_file map].
  destruct (String.eqb_spec (timestamp g) t) as [Heq | Hne].
  - cbn [map timestamp]. rewrite bool_decide_eq_true_2; [done|].
    rewrite Heq. by left.
  - cbn [map]. rewrite IH.
    destruct (bool_decide_reflect (t ∈ map timestamp gs)) as [Hin | Hnin].
    + rewrite bool_decide_eq_true_2; [done|]. by right.
    + rewrite bool_decide_eq_false_2; [done|].
      intros [Heq | Hin]%elem_of_cons; [by symmetry in Heq|done].
Qed.

Lemma add_file_files t file gs g' f :
  g' ∈ add_file t file gs -> f ∈ files g' ->
  (f = file /\ timestamp g' = t)
  \/ (exists g, g ∈ gs /\ timestamp g = timestamp g' /\ f ∈ files g).
Proof.
  induction gs as [|g gs IH]; cbn [add_file].
  - intros ->%list_elem_of_singleton ->%list_elem_of_singleton. by left.
  - destruct (String.eqb_spec (timestamp g) t) as [Heq | Hne].
    + intros [-> | Hin]%elem_of_cons Hf; cbn [files timestamp] in *.
      * apply elem_of_app in Hf as [Hf | ->%list_elem_of_singleton].
        -- right. exists g. split; [by left|done].
        -- by left.
      * right. exists g'. split; [by right|done].
    + intros [-> | Hin]%elem_of_cons Hf.
      * right. exists g. split; [by left|done].
      * destruct (IH Hin Hf) as [? | (g0 & Hg0 & ? & ?)]; [by left|].
        right. exists g0. split; [by right|done].
Qed.

Lemma add_file_keeps t file gs g f :
  g ∈ gs -> f ∈ files g ->
  exists g', g' ∈ add_file t file gs
             /\ timestamp g' = timestamp g /\ f ∈ files g'.
Proof.
  induction gs as [|g0 gs IH]; [by intros ?%elem_of_nil|].
  cbn [add_file]. intros Hin Hf.
  destruct (String.eqb_spec (timestamp g0) t) as [Heq | Hne].
  - apply elem_of_cons in Hin as [-> | Hin].
    + eexists. split; [by left|]. split; [done|].
      cbn [files]. apply elem_of_app. by left.
    + exists g. split; [by right|done].
  - apply elem_of_cons in Hin as [-> | Hin].
    + exists g0. split; [by left|done].
    + destruct (IH Hin Hf) as (g' & ? & ? & ?).
      exists g'. split; [by right|done].
Qed.

Lemma add_file_has t file gs :
  exists g', g' ∈ add_file t file gs /\ timestamp g' = t /\ file ∈ files g'.
Proof.
  induction gs as [|g gs IH]; cbn [add_file].
  - eexists. split; [by left|]. split; [done|]. by left.
  - destruct (String.eqb_spec (timestamp g) t) as [Heq | Hne].
    + eexists. split; [by left|]. split; [done|].
      cbn [files]. apply elem_of_app. right. by left.
    + destruct IH as (g' & ? & ? & ?). exists g'. split; [by right|done].
Qed.

Lemma add_file_nonempty t file gs g' :
  (forall g, g ∈ gs -> files g <> []) ->
  g' ∈ add_file t file gs -> files g' <> [].
Proof.
  induction gs as [|g gs IH]; cbn [add_file]; intros Hne.
  - by intros ->%list_elem_of_singleton.
  - destruct (String.eqb (timestamp g) t).
    + intros [-> | Hin]%elem_of_cons.
      * cbn [files]. by destruct (files g).
      * apply Hne. by right.
    + intros [-> | Hin]%elem_of_cons.
      * apply Hne. by left.
      * apply IH; [|done]. intros g0 Hg0. apply Hne. by right.
Qed.

Lemma visit_groups seen gs file :
  groups_of seen gs -> groups_of (seen ++ [file]) (visit gs file).
Proof.
  intros (Hnd & Hsound & Hcomplete & Hfull). unfold visit.
  destruct (backup_token file) as [t|] eqn:Et.
  - split; [|split; [|split; [|intros g; by apply add_file_nonempty]]].
    + rewrite add_file_timestamps. case_bool_decide; [done|].
      apply NoDup_app. split; [done|]. split; [|apply NoDup_singleton].
      by intros x Hx ->%list_elem_of_singleton.
    + intros g' f Hg' Hf.
      destruct (add_file_files _ _ _ _ _ Hg' Hf)
        as [[-> <-] | (g & Hg & Ht & Hfg)].
      * split; [|done]. apply elem_of_app. right. by left.
      * destruct (Hsound g f Hg Hfg) as [Hs Htok].
        split; [apply elem_of_app; by left|]. by rewrite <- Ht.
    + intros f t' [Hf | ->%list_elem_of_singleton]%elem_of_app Htok.
      * destruct (Hcomplete f t' Hf Htok) as (g & Hg & Ht & Hfg).
        destruct (add_file_keeps t file gs g f Hg Hfg) as (g' & ? & ? & ?).
        exists g'. split; [done|]. split; [congruence|done].
      * assert (t' = t) as -> by congruence. apply add_file_has.
  - split; [done|]. split; [|split; [|done]].
    + intros g f Hg Hf. destruct (Hsound g f Hg Hf).
      split; [apply elem_of_app; by left|done].
    + intros f t' [Hf | ->%list_elem_of_singleton]%elem_of_app Htok.
      * by apply Hcomplete.
      * congruence.
Qed.

Lemma fold_visit_groups entries : forall seen gs,
  groups_of seen gs ->
  groups_of (seen ++ entries) (fold_left visit entries gs).
Proof.
  induction entries as [|file entries IH]; intros seen gs H.
  - by rewrite app_nil_r.
  - cbn [fold_left].
    replace (seen ++ file :: entries) with ((seen ++ [file]) ++ entries)
      by (by rewrite <- app_assoc).
    by apply IH, visit_groups.
Qed.

(** *** Order *)

Section SortFacts.
Context {A : Type} (cmp : A -> A -> option Z).

Lemma insert_sorted_perm x l : Permutation (insert_sorted cmp x l) (x :: l).
Proof.
  induction l as [|y l IH]; [reflexivity|].
  cbn [insert_sorted]. destruct (goes_after cmp x y); [|reflexivity].
  rewrite IH. apply perm_swap.
Qed.

Lemma sort_perm l : Permutation (sort cmp l) l.
Proof.
  induction l as [|x l IH]; [reflexivity|].
  cbn [sort foldr]. fold (sort cmp l).
  rewrite insert_sorted_perm. by constructor.
Qed.

(** A comparison that never says "after" leaves the array as it is. *)
Lemma sort_unordered l :
  (forall x y, goes_after cmp x y = false) -> sort cmp l = l.
Proof.
  intros Hnan. induction l as [|x l IH]; [reflexivity|].
  cbn [sort foldr]. fold (sort cmp l). rewrite IH.
  destruct l as [|y l']; [reflexivity|].
  cbn [insert_sorted]. by rewrite Hnan.
Qed.
End SortFacts.

(** With tokens that are no dates, [listBackups] gives the groups in
    the order in which the directory gave their first files. *)
Lemma listBackups_unordered entries :
  listBackups invalid_date (Some entries) = fold_left visit entries [].
Proof. cbn [listBackups]. by apply sort_unordered. Qed.

Lemma no_groups : groups_of [] [].
Proof.
  split; [constructor|]. split; [|split]; intros; by apply elem_of_nil in H.
Qed.

(** What holds of C9: [listBackups] makes one group per time stamp
    token. A name of the directory is in the group of its token when it
    contains [backup-] followed by a token, and in no group otherwise,
    and a group holds nothing else. The database snapshot of either
    backend and the JSON export carry the token of their time stamp; the
    CSV mapping table and the report never match the pattern. *)
Lemma listBackups_by_token (date : string -> option Z) (entries : list string) :
  NoDup (map timestamp (listBackups date (Some entries)))
  /\ (forall file t,
        file ∈ entries -> backup_token file = Some t ->
        exists g, g ∈ listBackups date (Some entries)
                  /\ timestamp g = t /\ file ∈ files g)
  /\ (forall g file,
        g ∈ listBackups date (Some entries) -> file ∈ files g ->
        file ∈ entries /\ backup_token file = Some (timestamp g))
  /\ (forall ts t,
        match_classes token_pattern ts = Some t ->
        backup_token (sqlite_backup_name ts) = Some t
        /\ backup_token (postgres_backup_name ts) = Some t
        /\ backup_token (json_backup_name ts) = Some t)
  /\ (forall iso,
        has_char "b" iso = false ->
        backup_token (csv_mapping_name (getTimestamp iso)) = None
        /\ backup_token (report_name (getTimestamp iso)) = None).
Proof.
  pose proof (fold_visit_groups entries [] [] no_groups) as Hg.
  rewrite app_nil_l in Hg.
  destruct Hg as (Hnd & Hsound & Hcomplete & Hfull).
  cbn [listBackups].
  pose proof (sort_perm (newest_first date) (fold_left visit entries []))
    as Hperm.
  split; [by rewrite Hperm|].
  split.
  { intros file t Hin Htok.
    destruct (Hcomplete file t Hin Htok) as (g & Hg & Ht & Hf).
    exists g. by rewrite Hperm. }
  split; [intros g file Hg; rewrite Hperm in Hg; by apply Hsound|].
  split.
  { intros ts t H. split; [by apply sqlite_name_token|].
    split; [by apply postgres_name_token|by apply json_name_token]. }
  intros iso H%getTimestamp_no_b.
  split; [by apply csv_name_no_token|by apply report_name_no_token].
Qed.

(** C9. [listBackups] does not put the newest backup first. Its
    comparator subtracts [new Date(timestamp)] of two groups, and a
    token, of the form YYYY-MM-DD-HH-MM-SS, is no date for [new Date]:
    every difference is [NaN] and [sort] leaves the groups in the order
    in which the directory gave their first files. On a directory that
    holds the snapshot of 23 December before that of 24 December the
    group of 23 December comes first, and the restore script, which
    takes [backups[0]] for the most recent backup, puts the older
    snapshot in place of the database. Nor does [listBackups] group all
    the files of a backup: the CSV mapping table and the report are in no
    group, and two files written by one run of the backup script on
    either side of the turn of a second are in two groups, each helper
    reading the clock for itself. *)
Theorem listBackups_oldest_first :
  map timestamp (listBackups invalid_date (Some two_days))
  = ["2025-12-23-10-00-00"; "2025-12-24-09-00-00"]
  /\ (exists w',
        Restore.main [] sample_env (always all_well) None invalid_date
                     (Some two_days) "backups" "y" two_days_world
        = (Ok tt, w')
        /\ w_fs w' !! ".tmp/data.db" = Some "rows of 23 December")
  /\ listBackups invalid_date (Some sample_dir)
     = [mkBackupSet "2025-12-23-10-00-00"
          ["data.db.backup-2025-12-23-10-00-00-123Z";
           "cloudinary-backup-2025-12-23-10-00-00-123Z.json"]]
  /\ map timestamp
       (listBackups invalid_date
          (Some [sqlite_backup_name (getTimestamp "2025-12-23T10:00:00.998Z");
                 json_backup_name (getTimestamp "2025-12-23T10:00:01.004Z")]))
     = ["2025-12-23-10-00-00"; "2025-12-23-10-00-01"].
Proof.
  split; [vm_compute; reflexivity|].
  split; [eexists; split; vm_compute; reflexivity|].
  split; vm_compute; reflexivity.
Qed.

(** *** Restore *)

Lemma existsSync_run p w :
  existsSync p w
  = (Ok (match w_fs w !! p with Some _ => true | None => false end), w).
Proof. reflexivity. Qed.


Lemma length_append s r :
  String.length (s +:+ r) = (String.length s + String.length r)%nat.
Proof.
  induction s as [|a s IH]; [reflexivity|].
  spell. cbn [String.length]. by rewrite IH.
Qed.

Lemma pre_restore_differs dbPath : dbPath +:+ ".pre-restore" <> dbPath.
Proof.
  intros H. apply (f_equal String.length) in H.
  rewrite length_append in H. cbn in H. lia.
Qed.

(** What holds of C8: on the embedded backend the live database, when
    there is one, is copied to [dbPath + '.pre-restore'] before the
    backup is copied over it. *)
Lemma restoreSQLite_copies_first backupPath dbPath w backup live :
  w_fs w !! backupPath = Some backup ->
  w_fs w !! dbPath = Some live ->
  backupPath <> dbPath +:+ ".pre-restore" ->
  exists w',
    restoreSQLite backupPath dbPath w = (Ok tt, w')
    /\ w_trace w' =
         w_trace w ++ [EvCopyFile dbPath (dbPath +:+ ".pre-restore");
                       EvCopyFile backupPath dbPath]
    /\ w_fs w' !! (dbPath +:+ ".pre-restore") = Some live
    /\ w_fs w' !! dbPath = Some backup.
Proof.
  intros Hbackup Hlive Hne.
  unfold restoreSQLite, existsSync, copyFileSync, emit.
  files_run. rewrite Hbackup. files_run. rewrite Hlive. files_run.
  rewrite Hlive. files_run.
  rewrite lookup_insert_ne by done. rewrite Hbackup. files_run.
  eexists. split; [reflexivity|].
  split; [cbn; by rewrite <- app_assoc|].
  cbn. split.
  - rewrite lookup_insert_ne by (apply not_eq_sym, pre_restore_differs).
    by rewrite lookup_insert_eq.
  - by rewrite lookup_insert_eq.
Qed.

(** C8 on the client/server backend. The restore of a PostgreSQL
    database feeds the dump to [psql] and nothing else: the live
    database is replaced, no file is written, and no copy of what the
    database held is left anywhere; the embedded backend, on the same
    request, leaves its copy. *)
Theorem postgres_restore_without_copy :
  let dump := "backups/backup-2025-12-23-10-00-00-123Z.sql" in
  let run := Restore.restore_database pg_env None dump pg_world in
  let lite :=
    Restore.restore_database sample_env None
      "backups/data.db.backup-2025-12-23-10-00-00-123Z" sqlite_world in
  run.1 = Ok tt
  /\ w_pg pg_world = "live rows"
  /\ w_pg run.2 = "rows of 23 December"
  /\ w_fs run.2 = w_fs pg_world
  /\ existsb is_copy (w_trace run.2) = false
  /\ lite.1 = Ok tt
  /\ w_fs lite.2 !! ".tmp/data.db.pre-restore" = Some "live rows".
Proof. by_computation. Qed.

(** The same on every world: [restorePostgreSQL] leaves the files as
    they are and copies nothing. *)
Lemma restorePostgreSQL_keeps_files fault backupPath conn w :
  exists evs,
    w_trace (restorePostgreSQL fault backupPath conn w).2 = w_trace w ++ evs
    /\ forallb (fun e => negb (is_copy e)) evs = true
    /\ w_fs (restorePostgreSQL fault backupPath conn w).2 = w_fs w.
Proof.
  unfold restorePostgreSQL, existsSync, emit. files_run.
  destruct (w_fs w !! backupPath) as [dump|] eqn:E; files_run.
  - destruct fault; files_run; rewrite ?E; files_run;
      eexists; (split; [reflexivity|]); done.
  - exists []. by rewrite app_nil_r.
Qed.

(* ================================================================= *)
(** * Further properties of the scripts *)

(** The statements below cover the functions around those of the
    specification: the download loop for any number of attempts, the
    results of [migrateFile], the database helper, the uploader, the
    backup helper, the restore script and the progress bar. *)

(* ================================================================= *)
(** ** [downloadFromCloudinary] for any number of attempts *)

Lemma pauses_from_S url i k :
  pauses_from url i (S k)
  = [EvGet url 60000 (100 * 1024 * 1024); EvSleep (1000 * (Z.of_nat i + 1))]
    ++ pauses_from url (S i) k.
Proof. reflexivity. Qed.

Lemma get_settles url answers i w :
  axios.get url 60000 (100 * 1024 * 1024) (answers i) w
  = (settles answers i, log [EvGet url 60000 (100 * 1024 * 1024)] w).
Proof. reflexivity. Qed.

Lemma download_loop_S url answers retries i n w :
  Migrate.download_loop url answers retries i (S n) w
  = match settles answers i with
    | Ok b => (Ok (Some b), log [EvGet url 60000 (100 * 1024 * 1024)] w)
    | Throw e =>
        if Nat.eqb i (retries - 1)
        then (Throw (JS.new_Error
                       ("Download failed after " +:+ JS.nat_to_string retries
                        +:+ " retries: " +:+ JS.message e)),
              log [EvGet url 60000 (100 * 1024 * 1024)] w)
        else Migrate.download_loop url answers retries (S i) n
               (log [EvGet url 60000 (100 * 1024 * 1024);
                     EvSleep (1000 * (Z.of_nat i + 1))] w)
    end.
Proof.
  cbn [Migrate.download_loop]. unfold try_catch, bind at 1.
  rewrite get_settles. destruct (settles answers i); [reflexivity|].
  destruct (Nat.eqb i (retries - 1)); [reflexivity|].
  unfold bind. rewrite emit_run. by autorewrite with world.
Qed.

Lemma download_loop_answer url answers retries b w :
  forall k n i,
    (i + n = retries)%nat ->
    (k < n)%nat ->
    (forall j, (j < k)%nat -> exists e, settles answers (i + j) = Throw e) ->
    settles answers (i + k) = Ok b ->
    Migrate.download_loop url answers retries i n w
    = (Ok (Some b),
       log (pauses_from url i k ++ [EvGet url 60000 (100 * 1024 * 1024)]) w).
Proof.
  intros k. revert w. induction k as [|k IH]; intros w n i Hn Hk Hfail Hok.
  - destruct n as [|n]; [lia|].
    rewrite download_loop_S. rewrite Nat.add_0_r in Hok. rewrite Hok.
    reflexivity.
  - destruct n as [|n]; [lia|].
    rewrite download_loop_S.
    destruct (Hfail 0%nat ltac:(lia)) as [e He]. rewrite Nat.add_0_r in He.
    rewrite He.
    replace (Nat.eqb i (retries - 1)) with false
      by (symmetry; apply Nat.eqb_neq; lia).
    rewrite (IH _ n (S i)); try lia.
    + rewrite pauses_from_S. autorewrite with world.
      rewrite <- !app_assoc. reflexivity.
    + intros j Hj. replace (S i + j)%nat with (i + S j)%nat by lia.
      apply Hfail. lia.
    + replace (S i + k)%nat with (i + S k)%nat by lia. exact Hok.
Qed.

Lemma download_loop_refused url answers retries e w :
  forall n i,
    (i + S n = retries)%nat ->
    (forall j, (j < n)%nat -> exists e, settles answers (i + j) = Throw e) ->
    settles answers (i + n) = Throw e ->
    Migrate.download_loop url answers retries i (S n) w
    = (Throw (JS.new_Error
                ("Download failed after " +:+ JS.nat_to_string retries
                 +:+ " retries: " +:+ JS.message e)),
       log (pauses_from url i n ++ [EvGet url 60000 (100 * 1024 * 1024)]) w).
Proof.
  intros n. revert w. induction n as [|n IH]; intros w i Hn Hfail Hlast.
  - rewrite download_loop_S. rewrite Nat.add_0_r in Hlast. rewrite Hlast.
    replace (Nat.eqb i (retries - 1)) with true
      by (symmetry; apply Nat.eqb_eq; lia).
    reflexivity.
  - rewrite download_loop_S.
    destruct (Hfail 0%nat ltac:(lia)) as [e0 He]. rewrite Nat.add_0_r in He.
    rewrite He.
    replace (Nat.eqb i (retries - 1)) with false
      by (symmetry; apply Nat.eqb_neq; lia).
    rewrite (IH _ (S i)); try lia.
    + rewrite pauses_from_S. autorewrite with world.
      rewrite <- !app_assoc. reflexivity.
    + intros j Hj. replace (S i + j)%nat with (i + S j)%nat by lia.
      apply Hfail. lia.
    + replace (S i + n)%nat with (i + S n)%nat by lia. exact Hlast.
Qed.

(** X1. [downloadFromCloudinary] stops at the first request that is
    answered: when the requests before the rank [k] are rejected and the
    one of rank [k] is answered, with [k] below the number of attempts,
    it returns the body of that answer after [k + 1] requests, the
    rejected request of rank [j] being followed by a pause of
    [1000 * (j + 1)] ms; no later request is made. *)
Theorem download_stops_at_first_answer
    (url : string) (answers : nat -> http_response) (retries k : nat)
    (b : Buffer) (w : world) :
  (k < retries)%nat ->
  (forall j, (j < k)%nat -> exists e, settles answers j = Throw e) ->
  settles answers k = Ok b ->
  Migrate.downloadFromCloudinary url answers retries w
  = (Ok (Some b), log (backoff url k) w).
Proof.
  intros Hk Hfail Hok. unfold Migrate.downloadFromCloudinary, backoff.
  apply download_loop_answer; [reflexivity|exact Hk|exact Hfail|exact Hok].
Qed.

Lemma download_stops_at_first_answer_witness :
  Migrate.downloadFromCloudinary "http://src/abc.png"
    (fun i => if (i <? 2)%nat then refused else Responds 10 5) 5
    (new_world [])
  = (Ok (Some (mkBuffer 10)), log (backoff "http://src/abc.png" 2) (new_world [])).
Proof.
  apply (download_stops_at_first_answer _ _ 5 2).
  - lia.
  - intros j Hj. assert (j = 0 \/ j = 1)%nat as [-> | ->] by lia; eexists; reflexivity.
  - reflexivity.
Defined.

(** X2. When every request is rejected, [downloadFromCloudinary] with
    [retries] attempts makes [retries] requests and [retries - 1] pauses,
    none after the last request, and throws "Download failed after
    [retries] retries: " followed by the message of the last rejection.
    With no attempt at all it makes no request and returns
    [undefined]. *)
Theorem download_gives_up
    (url : string) (answers : nat -> http_response) (retries : nat)
    (w : world) :
  (forall j, (j < retries)%nat -> exists e, settles answers j = Throw e) ->
  match retries with
  | O => Migrate.downloadFromCloudinary url answers retries w = (Ok None, w)
  | S n =>
      exists e,
        settles answers n = Throw e
        /\ Migrate.downloadFromCloudinary url answers retries w
           = (Throw (JS.new_Error
                       ("Download failed after " +:+ JS.nat_to_string retries
                        +:+ " retries: " +:+ JS.message e)),
              log (backoff url n) w)
  end.
Proof.
  intros Hfail. destruct retries as [|n]; [reflexivity|].
  destruct (Hfail n ltac:(lia)) as [e He]. exists e. split; [exact He|].
  unfold Migrate.downloadFromCloudinary, backoff.
  apply download_loop_refused; [reflexivity| |exact He].
  intros j Hj. apply Hfail. lia.
Qed.

Lemma download_gives_up_witness :
  exists e,
    settles (fun _ => refused) 1 = Throw e
    /\ Migrate.downloadFromCloudinary "http://src/abc.png" (fun _ => refused)
         2 (new_world [])
       = (Throw (JS.new_Error
                   ("Download failed after " +:+ JS.nat_to_string 2
                    +:+ " retries: " +:+ JS.message e)),
          log (backoff "http://src/abc.png" 1) (new_world [])).
Proof.
  apply (download_gives_up "http://src/abc.png" (fun _ => refused) 2
                           (new_world [])).
  intros j _. eexists. reflexivity.
Defined.

(* ================================================================= *)
(** ** The results of [migrateFile] *)

(** X3. [migrateFile] never throws: it always returns a result. A
    [success] carries the source URL and the size of the record, and its
    new URL is the public URL of the destination key, behind the prefix
    "[DRY-RUN] " only on a dry run; a [failed] result always carries the
    retry count 3, whatever step failed; a [skipped] result is always the
    one of a source probe that answered 404. *)
Theorem migrateFile_always_answers
    (file : File) (u : R2Uploader.t) (fl : record_faults) (dryRun : bool)
    (w : world) :
  exists r w',
    Migrate.migrateFile file u fl dryRun w = (Ok r, w')
    /\ match r with
       | Success original nu sz =>
           original = url file /\ sz = size file
           /\ exists public,
                R2Uploader.getPublicUrl u (key_of file) = Ok public
                /\ (nu = public \/
                    dryRun = true /\ nu = "[DRY-RUN] " +:+ public)
       | Failed _ retry_count => retry_count = Some 3%nat
       | Skipped reason =>
           reason = "File not found on Cloudinary (404)"
           /\ source_missing fl = true
       end.
Proof.
  unfold Migrate.migrateFile, source_missing, probe, key_of.
  step. use_leaf. step.
  destruct (axios.respond 10000 None (src_head fl)) as [?|e] eqn:Eh; step.
  2: destruct (R2Uploader.is_404 (JS.response_status e)) eqn:E404; step.
  all: try (use_leaf; step).
  all: destruct dryRun; step.
  all: try (destruct (R2Uploader.getPublicUrl u (hash file +:+ ext file)) eqn:Eg; step).
  all: repeat (use_leaf; step).
  all: try match goal with
         | H : forall url, Ok ?x = Ok url -> _ |- _ =>
             destruct (H x eq_refl); clear H
         end.
  all: do 2 eexists; (split; [reflexivity|]).
  all: cbn; try reflexivity; try (split; reflexivity).
  all: try match goal with
         | Eg : ?g = _, H : ?g = Ok _ |- _ =>
             rewrite Eg in H; first [discriminate H | injection H as ->]
         end.
  all: split; [reflexivity|]; split; [reflexivity|].
  all: eexists; split; [reflexivity|]; auto.
Qed.

(** X4. On a real run a record whose object is already in the bucket is
    neither downloaded nor uploaded: after the two probes the only call
    is the [UPDATE] of its row with the public URL of the key. When that
    [UPDATE] fails the record is [failed] with the message of the
    database and the table is as it was. *)
Theorem present_object_is_not_transferred
    (file : File) (u : R2Uploader.t) (fl : record_faults) (w : world)
    (public : string) :
  source_missing fl = false ->
  r2_head_fault fl = None ->
  is_Some (w_bucket w !! key_of file) ->
  R2Uploader.getPublicUrl u (key_of file) = Ok public ->
  Migrate.migrateFile file u fl false w
  = match db_update_fault fl with
    | None =>
        (Ok (Success (url file) public (size file)),
         touch (map (DBHelper.to_r2 (id file) public) (w_rows w))
               (w_bucket w)
               [EvHead (url file) 10000; EvHeadObject (key_of file);
                EvUpdate (id file) public] w)
    | Some e =>
        (Ok (Failed (JS.message e) (Some 3%nat)),
         log [EvHead (url file) 10000; EvHeadObject (key_of file);
              EvUpdate (id file) public] w)
    end.
Proof.
  intros Hsrc Hfault [o Ho] Hurl.
  revert Hsrc Ho Hurl.
  unfold Migrate.migrateFile, source_missing, probe, key_of.
  intros Hsrc Ho Hurl.
  step. use_leaf. step.
  destruct (axios.respond 10000 None (src_head fl)) as [?|e] eqn:Eh; step.
  2: rewrite Hsrc; step.
  all: use_leaf; step;
    match goal with
    | H : r2_head_fault _ = None -> _ |- _ =>
        specialize (H Hfault); autorewrite with world in H;
        rewrite Ho in H; try discriminate H
    end.
  all: rewrite Hurl; step.
  all: use_leaf; step; reflexivity.
Qed.

Lemma present_object_is_not_transferred_witness :
  let w := set_bucket (<["abc.png" := mkObject 10 "image/png"]> ∅)
                      (new_world [photo]) in
  Migrate.migrateFile photo (R2Uploader.fromEnv sample_env) all_well false w
  = (Ok (Success "http://src/abc.png"
                 "https://media.acct.r2.cloudflarestorage.com/abc.png" 10),
     touch (map (DBHelper.to_r2 1
                   "https://media.acct.r2.cloudflarestorage.com/abc.png")
                [photo])
           (w_bucket w)
           [EvHead "http://src/abc.png" 10000; EvHeadObject "abc.png";
            EvUpdate 1 "https://media.acct.r2.cloudflarestorage.com/abc.png"]
           w).
Proof.
  intros w.
  apply (present_object_is_not_transferred photo
           (R2Uploader.fromEnv sample_env) all_well w
           "https://media.acct.r2.cloudflarestorage.com/abc.png").
  - reflexivity.
  - reflexivity.
  - exists (mkObject 10 "image/png"). reflexivity.
  - reflexivity.
Defined.

(** X5. On a dry run a record that passes the source probe is a
    [success] after the two probes alone. Its new URL is the public URL
    of the key when the object is already in the bucket, and that URL
    behind the prefix "[DRY-RUN] " when it is not. *)
Theorem dry_run_placeholder
    (file : File) (u : R2Uploader.t) (fl : record_faults) (w : world)
    (public : string) :
  source_missing fl = false ->
  r2_head_fault fl = None ->
  R2Uploader.getPublicUrl u (key_of file) = Ok public ->
  Migrate.migrateFile file u fl true w
  = (Ok (Success (url file)
                 (if bool_decide (is_Some (w_bucket w !! key_of file))
                  then public else "[DRY-RUN] " +:+ public)
                 (size file)),
     log [EvHead (url file) 10000; EvHeadObject (key_of file)] w).
Proof.
  intros Hsrc Hfault Hurl.
  revert Hsrc Hurl.
  unfold Migrate.migrateFile, source_missing, probe, key_of.
  intros Hsrc Hurl.
  step. use_leaf. step.
  destruct (axios.respond 10000 None (src_head fl)) as [?|e] eqn:Eh; step.
  2: rewrite Hsrc; step.
  all: use_leaf; step;
    match goal with
    | H : r2_head_fault _ = None -> _ |- _ =>
        specialize (H Hfault); autorewrite with world in H
    end.
  all: destruct (w_bucket w !! (hash file +:+ ext file)) eqn:Eb;
    try discriminate.
  all: rewrite Hurl; step.
  all: reflexivity.
Qed.

Lemma dry_run_placeholder_witness :
  Migrate.migrateFile photo (R2Uploader.fromEnv sample_env) all_well true
                      (new_world [photo])
  = (Ok (Success "http://src/abc.png"
           "[DRY-RUN] https://media.acct.r2.cloudflarestorage.com/abc.png"
           10),
     log [EvHead "http://src/abc.png" 10000; EvHeadObject "abc.png"]
         (new_world [photo])).
Proof.
  apply (dry_run_placeholder photo (R2Uploader.fromEnv sample_env) all_well
           (new_world [photo])
           "https://media.acct.r2.cloudflarestorage.com/abc.png");
    reflexivity.
Defined.

(* ================================================================= *)
(** ** The task of a record *)

(** X6. The task of a record rejects only on a real run, when [BEGIN] or
    [COMMIT] failed and the [ROLLBACK] sent for it failed too; the error
    is that of the [ROLLBACK], which is the last call made. The record is
    then in no collection: the state, the counter of [main] and the state
    file are as before the task. *)
Theorem task_rejects_only_after_failed_rollback
    (u : R2Uploader.t) (O : oracle) (d : bool) (file : File) (w w' : world)
    (e : JS.error) :
  Migrate.task u O d file w = (Throw e, w') ->
  d = false
  /\ db_rollback_fault (faults_of O file) = Some e
  /\ (is_Some (db_begin_fault (faults_of O file))
      \/ is_Some (db_commit_fault (faults_of O file)))
  /\ w_state w' = w_state w
  /\ w_processed w' = w_processed w
  /\ w_state_file w' = w_state_file w
  /\ last (w_trace w') = Some EvRollback.
Proof.
  destruct d.
  { destruct (task_dry u O file w) as (r & evs & _ & _ & _ & _ & ->).
    discriminate. }
  destruct (task_real u O file w)
    as (r & rows & bucket & evs & _ & _ & _ & _ & _ & _ & _ & ->).
  destruct (db_begin_fault (faults_of O file)) as [e0|].
  - destruct (db_rollback_fault (faults_of O file)) as [e'|]; [|discriminate].
    intros [= <- <-]. split; [reflexivity|]. split; [reflexivity|].
    split; [left; eauto|]. repeat split.
    cbn. by rewrite last_app.
  - cbv zeta. destruct (db_commit_fault (faults_of O file)) as [e0|];
      [|discriminate].
    destruct (db_rollback_fault (faults_of O file)) as [e'|]; [|discriminate].
    intros [= <- <-]. split; [reflexivity|]. split; [reflexivity|].
    split; [right; eauto|]. repeat split.
    cbn. by rewrite last_app.
Qed.

Lemma task_rejects_only_after_failed_rollback_witness :
  db_rollback_fault (faults_of lost_at_second poster) = Some connection_lost
  /\ w_state (Migrate.task (R2Uploader.fromEnv sample_env) lost_at_second
                           false poster (new_world [poster])).2
     = Migrate.fresh_state.
Proof.
  destruct (task_rejects_only_after_failed_rollback
              (R2Uploader.fromEnv sample_env) lost_at_second false poster
              (new_world [poster])
              (Migrate.task (R2Uploader.fromEnv sample_env) lost_at_second
                            false poster (new_world [poster])).2
              connection_lost)
    as (_ & Hrb & _ & Hs & _).
  - vm_compute. reflexivity.
  - split; [exact Hrb|exact Hs].
Defined.

(* ================================================================= *)
(** ** Runs of [main] *)

(** *** Failures at startup *)

Lemma init_outcome env O w :
  DBHelper.init env O w
  = (if known_client env then
       match db_connect_fault O with
       | Some e => Throw e
       | None =>
           Ok (DBHelper.mk
                 (if String.eqb (DBHelper.or_else (DBHelper.DATABASE_CLIENT env)
                                                  "sqlite") "sqlite"
                  then DBHelper.sqlite else DBHelper.postgres))
       end
     else Throw (JS.new_Error
                   ("Unsupported database client: "
                    +:+ DBHelper.or_else (DBHelper.DATABASE_CLIENT env)
                                         "sqlite")),
     w).
Proof.
  unfold DBHelper.init, known_client.
  destruct (String.eqb _ "sqlite") eqn:E1;
    [|destruct (String.eqb _ "postgres") eqn:E2].
  all: run.
  1,2: destruct (db_connect_fault O); reflexivity.
  reflexivity.
Qed.

(** X7. A run that cannot open the database, because the backend named
    by [DATABASE_CLIENT] is unknown or because the connection fails,
    leaves the process with the code 1 and has made no other call: the
    table, the bucket and the state file are untouched and nothing is
    probed. A run whose [SELECT] of the records fails exits with the code
    1 right after it, with the table, the bucket and the state file as
    they were. *)
Theorem startup_failure_touches_nothing
    (args : list string) (env : DBHelper.Env) (O : oracle) (w : world) :
  (known_client env = false \/ (exists e, db_connect_fault O = Some e) ->
   Migrate.main args env O w = (Ok tt, log [EvExit 1] w))
  /\ (known_client env = true -> db_connect_fault O = None ->
      (exists e, db_select_fault O = Some e) ->
      exists w',
        Migrate.main args env O w = (Ok tt, w')
        /\ w_trace w' = w_trace w ++ [EvSelect; EvExit 1]
        /\ w_state_file w' = w_state_file w
        /\ w_rows w' = w_rows w
        /\ w_bucket w' = w_bucket w).
Proof.
  split.
  - intros H. unfold Migrate.main.
    unfold try_catch at 1. unfold bind at 1. rewrite init_outcome.
    destruct (known_client env).
    + destruct H as [H | [e He]]; [discriminate|]. rewrite He. reflexivity.
    + reflexivity.
  - intros Hk Hc [e He]. unfold Migrate.main.
    unfold try_catch at 1. unfold bind at 1. rewrite init_outcome, Hk, Hc.
    unfold bind at 1. rewrite loadState_run.
    unfold bind at 1. unfold modify at 1.
    unfold bind at 1. rewrite select_run, He.
    eexists. split; [reflexivity|].
    cbn. rewrite <- app_assoc. repeat split.
Qed.

Lemma startup_failure_touches_nothing_witness :
  Migrate.main [] mongo_env (always all_well) (new_world [photo])
  = (Ok tt, log [EvExit 1] (new_world [photo])).
Proof.
  apply (startup_failure_touches_nothing [] mongo_env (always all_well)
                                         (new_world [photo])).
  left. reflexivity.
Defined.

(** *** Counters and collections *)

Lemma booked_counted file r n s : counted s -> counted (booked file r n s).
Proof.
  unfold counted. destruct r; cbn; rewrite ?length_app; cbn; lia.
Qed.

Lemma booked_total_files file r n s :
  total_files (statistics (booked file r n s)) = total_files (statistics s).
Proof. destruct r; reflexivity. Qed.

Lemma replays_counted rs : forall n s0 s,
  s ∈ replays rs n s0 ->
  total_files (statistics s) = total_files (statistics s0)
  /\ (counted s0 -> counted s)
  /\ (outcomes (statistics s0) = n ->
      processed (statistics s) = outcomes (statistics s)).
Proof.
  induction rs as [|[file r] rs IH]; intros n s0 s Hin; cbn [replays] in Hin.
  - by apply elem_of_nil in Hin.
  - apply elem_of_cons in Hin as [-> | Hin].
    + split; [apply booked_total_files|].
      split; [apply booked_counted|].
      intros <-. by rewrite booked_processed, booked_outcomes.
    + destruct (IH _ _ _ Hin) as (Ht & Hc & Hp).
      split; [by rewrite Ht, booked_total_files|].
      split; [intros H0; by apply Hc, booked_counted|].
      intros H0. apply Hp. rewrite booked_outcomes. lia.
Qed.

Lemma replay_counted rs : forall n s0,
  total_files (statistics (replay rs n s0)) = total_files (statistics s0)
  /\ (counted s0 -> counted (replay rs n s0)).
Proof.
  induction rs as [|[file r] rs IH]; intros n s0; cbn [replay]; [done|].
  destruct (IH (S n) (booked file r n s0)) as [Ht Hc].
  split; [by rewrite Ht, booked_total_files|].
  intros H0. by apply Hc, booked_counted.
Qed.

Lemma started_counted w :
  total_files (statistics (started w)) = length (cloudinary_files w)
  /\ (counted (loaded w) -> counted (started w))
  /\ outcomes (statistics (started w)) = outcomes (statistics (loaded w)).
Proof. done. Qed.

Lemma outstanding_fresh all :
  Migrate.outstanding Migrate.fresh_state all = all.
Proof.
  unfold Migrate.outstanding. cbn [processed_files Migrate.fresh_state map].
  induction all as [|f l IHl]; [done|].
  change (f :: List.filter (fun f => negb (JS.includes [] (id f))) l = f :: l).
  by rewrite IHl.
Qed.

(** X8. In every state a run writes, [total_files] is the number of
    records the table held at the source when the run started. When the
    outcome counters of the state the run starts from are the lengths of
    its collections, they are so in every state written. On a first run
    (no state file) every state written has [processed] equal to the sum
    of the outcome counters, and a run that is not aborted ends with
    [processed] equal to [total_files]. *)
Theorem counters_match_collections
    (args : list string) (env : DBHelper.Env) (O : oracle) (w : world) :
  exists w' evs,
    Migrate.main args env O w = (Ok tt, w')
    /\ w_trace w' = w_trace w ++ evs
    /\ (forall s, s ∈ saved evs ->
          total_files (statistics s) = length (cloudinary_files w))
    /\ (counted (loaded w) -> forall s, s ∈ saved evs -> counted s)
    /\ (w_state_file w = None ->
        (forall s, s ∈ saved evs ->
           counted s /\ processed (statistics s) = outcomes (statistics s))
        /\ (forallb (fun e => negb (is_exit e)) evs = true ->
            forall sf, w_state_file w' = Some sf ->
              processed (statistics sf) = total_files (statistics sf))).
Proof.
  destruct (main_run args env O w)
    as (w' & evs & rs & Hrun & Htr & _ & Hpre & _ & _ & Hcases).
  exists w', evs. split; [exact Hrun|]. split; [exact Htr|].
  destruct (started_counted w) as (Ht0 & Hc0 & Ho0).
  assert (Hsaved : forall s, s ∈ saved evs ->
            s ∈ replays rs 0 (started w)
            \/ (s = finished (replay rs 0 (started w)) /\ rs <> []
                /\ map fst rs
                   ≡ₚ Migrate.outstanding (loaded w) (cloudinary_files w))).
  { intros s Hs.
    destruct Hcases as [(_ & Hsv & _) | [(_ & -> & _) | (Hne & Hall & _ & Hsv & _)]].
    - left. by rewrite <- Hsv.
    - by apply elem_of_nil in Hs.
    - rewrite Hsv in Hs. apply elem_of_app in Hs as [Hs | Hs]; [by left|].
      apply list_elem_of_singleton in Hs. right. split; [exact Hs|].
      split; [|exact Hall]. intros ->. cbn in Hall.
      by apply Permutation_nil in Hall. }
  assert (Hfresh : w_state_file w = None ->
            outcomes (statistics (started w)) = 0%nat
            /\ counted (loaded w)
            /\ Migrate.outstanding (loaded w) (cloudinary_files w)
               = cloudinary_files w).
  { intros Hnone. unfold loaded in *. rewrite Hnone in *.
    split; [exact Ho0|]. split; [done|].
    apply outstanding_fresh. }
  split; [|split; [|intros Hnone; split]].
  - intros s [Hs | (-> & _)]%Hsaved.
    + destruct (replays_counted _ _ _ _ Hs) as (-> & _). exact Ht0.
    + rewrite finished_statistics.
      destruct (replay_counted rs 0 (started w)) as [-> _]. exact Ht0.
  - intros Hc s [Hs | (-> & _)]%Hsaved.
    + destruct (replays_counted _ _ _ _ Hs) as (_ & Hk & _). auto.
    + destruct (replay_counted rs 0 (started w)) as [_ Hk].
      apply Hc0, Hk in Hc. exact Hc.
  - intros s Hs. destruct (Hfresh Hnone) as (Hz & Hc & _).
    apply Hsaved in Hs as [Hs | (-> & Hne & _)].
    + destruct (replays_counted _ _ _ _ Hs) as (_ & Hk & Hp). auto.
    + destruct (replay_counted rs 0 (started w)) as [_ Hk].
      split; [apply Hk, Hc0, Hc|].
      rewrite finished_statistics, replay_processed, replay_outcomes by done.
      lia.
  - intros Hnoexit sf Hsf. destruct (Hfresh Hnone) as (_ & _ & Hout).
    destruct Hcases as [([evs0 ->] & _) | [(_ & _ & Hsame & _) | (Hne & Hall & _ & _ & Hfile)]].
    + rewrite forallb_app in Hnoexit. cbn in Hnoexit.
      rewrite andb_false_r in Hnoexit. discriminate.
    + rewrite Hsame, Hnone in Hsf. discriminate.
    + rewrite Hfile in Hsf. injection Hsf as <-.
      assert (rs <> []) as Hrs
        by (intros ->; cbn in Hall; by apply Permutation_nil in Hall).
      rewrite finished_statistics, replay_processed by done.
      destruct (replay_counted rs 0 (started w)) as [-> _]. rewrite Ht0.
      rewrite <- Hout, <- (Permutation_length Hall), length_map. lia.
Qed.

Lemma counters_match_collections_witness :
  exists sf,
    w_state_file (Migrate.main ["--dry-run"] sample_env (always all_well)
                               (new_world [photo; poster])).2 = Some sf
    /\ processed (statistics sf) = total_files (statistics sf)
    /\ total_files (statistics sf) = 2%nat.
Proof.
  destruct (counters_match_collections ["--dry-run"] sample_env
              (always all_well) (new_world [photo; poster]))
    as (w' & evs & Hmain & Htr & Htotal & _ & Hfresh).
  rewrite Hmain. cbn [snd].
  assert (Hevs : evs = drop (length (w_trace (new_world [photo; poster])))
                            (w_trace w'))
    by (rewrite Htr; by rewrite drop_app_length).
  assert (Hw' : w' = (Migrate.main ["--dry-run"] sample_env (always all_well)
                                   (new_world [photo; poster])).2)
    by (by rewrite Hmain).
  destruct (Hfresh eq_refl) as [_ Hend].
  assert (Hsf : exists sf, w_state_file w' = Some sf).
  { rewrite Hw'. vm_compute. eexists. reflexivity. }
  destruct Hsf as [sf Hsf]. exists sf. split; [exact Hsf|].
  assert (Hp : processed (statistics sf) = total_files (statistics sf)).
  { apply Hend; [|exact Hsf]. rewrite Hevs, Hw'. vm_compute. reflexivity. }
  split; [exact Hp|].
  rewrite Hw' in Hsf. vm_compute in Hsf. injection Hsf as <-. reflexivity.
Defined.

(** *** Aborted runs *)

Lemma last_replays rs : forall n s,
  rs <> [] -> last (replays rs n s) = Some (replay rs n s).
Proof.
  induction rs as [|[f r] rs IH]; intros n s Hne; [done|].
  cbn [replays replay]. destruct rs as [|y rs]; [reflexivity|].
  rewrite <- (IH (S n) (booked f r n s)) by done.
  destruct y. reflexivity.
Qed.

(** X9. A run that leaves the process with an exit code never writes
    its final status. Either it wrote nothing and the state file is as it
    was, or the state file holds the state saved after the last record
    that was booked: its status is the one the run started from
    ([in_progress] on a first run) and its collections extend those the
    run started from, so that the next run resumes after the processed
    records. *)
Theorem aborted_run_keeps_status
    (args : list string) (env : DBHelper.Env) (O : oracle) (w : world) :
  exists w' evs,
    Migrate.main args env O w = (Ok tt, w')
    /\ w_trace w' = w_trace w ++ evs
    /\ (existsb is_exit evs = true ->
        w_state_file w' = w_state_file w
        \/ exists sf,
             w_state_file w' = Some sf
             /\ last (saved evs) = Some sf
             /\ run_state sf = run_state (loaded w)
             /\ extends (loaded w) sf).
Proof.
  destruct (main_run args env O w)
    as (w' & evs & rs & Hrun & Htr & _ & _ & _ & _ & Hcases).
  exists w', evs. split; [exact Hrun|]. split; [exact Htr|].
  intros Hexit.
  destruct Hcases as [(_ & Hsv & Hnil & Hcons) | [(_ & -> & _) | (_ & _ & Hno & _)]].
  - destruct rs as [|x rs']; [left; by apply Hnil|].
    right. exists (replay (x :: rs') 0 (started w)).
    split; [by apply Hcons|].
    assert (Hin : replay (x :: rs') 0 (started w)
                  ∈ replays (x :: rs') 0 (started w))
      by (by apply replay_in_replays).
    split; [|split].
    + rewrite Hsv. by apply last_replays.
    + by rewrite (replays_run_state _ _ _ _ Hin).
    + eapply extends_trans; [apply started_extends|].
      by apply (replays_extends (x :: rs') 0).
  - discriminate.
  - exfalso. clear -Hexit Hno. induction evs as [|e evs IH]; [discriminate|].
    cbn in *. destruct (is_exit e); cbn in *; [discriminate|by apply IH].
Qed.

Lemma aborted_run_keeps_status_witness :
  exists sf,
    w_state_file (Migrate.main [] sample_env one_connection
                               (new_world [photo; poster])).2 = Some sf
    /\ run_state sf = in_progress
    /\ ids (failed_files sf) = [2]
    /\ ids (processed_files sf) = [].
Proof.
  destruct (aborted_run_keeps_status [] sample_env one_connection
              (new_world [photo; poster]))
    as (w' & evs & Hmain & Htr & H).
  rewrite Hmain. cbn [snd].
  assert (Hevs : evs = drop (length (w_trace (new_world [photo; poster])))
                            (w_trace w'))
    by (rewrite Htr; by rewrite drop_app_length).
  assert (Hw' : w' = (Migrate.main [] sample_env one_connection
                                   (new_world [photo; poster])).2)
    by (by rewrite Hmain).
  destruct H as [Hsame | (sf & Hsf & _ & Hstatus & _)].
  - rewrite Hevs, Hw'. vm_compute. reflexivity.
  - exfalso. rewrite Hw' in Hsame. vm_compute in Hsame. discriminate.
  - exists sf. split; [exact Hsf|]. split; [exact Hstatus|].
    rewrite Hw' in Hsf. vm_compute in Hsf. injection Hsf as <-.
    split; reflexivity.
Defined.

(** *** The stores behind a run *)

(** X10. A dry run leaves the table and the bucket exactly as they
    were, and opens no transaction, whatever the outside world answers
    and whatever state it starts from. *)
Theorem dry_run_leaves_stores
    (args : list string) (env : DBHelper.Env) (O : oracle) (w : world) :
  JS.includes_str args "--dry-run" = true ->
  exists w',
    Migrate.main args env O w = (Ok tt, w')
    /\ w_rows w' = w_rows w
    /\ w_bucket w' = w_bucket w
    /\ w_tx w' = w_tx w.
Proof.
  intros Hd.
  destruct (main_run args env O w) as (w' & evs & rs & Hrun & _ & Hq & _).
  exists w'. split; [exact Hrun|]. by destruct (Hq Hd) as (_ & ? & ? & ?).
Qed.

Lemma dry_run_leaves_stores_witness :
  w_rows after_dry_run = [photo] /\ w_bucket after_dry_run = ∅.
Proof.
  destruct (dry_run_leaves_stores ["--dry-run"] sample_env (always all_well)
              (new_world [photo]) eq_refl) as (w' & Hrun & Hr & Hb & _).
  unfold after_dry_run. rewrite Hrun. cbn [snd]. split; [exact Hr|exact Hb].
Defined.

(* ================================================================= *)
(** ** The database helper *)

(** *** The order of the selection *)

Lemma insert_by_id_first f l :
  Forall (fun g => id f <= id g) l -> DBHelper.insert_by_id f l = f :: l.
Proof.
  destruct l as [|g l]; [reflexivity|].
  intros [H _]%Forall_cons. cbn.
  by apply Z.leb_le in H as ->.
Qed.

Lemma insert_by_id_sorted f l : by_id l -> by_id (DBHelper.insert_by_id f l).
Proof.
  unfold by_id. induction l as [|g l IH]; intros Hs; cbn.
  - constructor; constructor.
  - apply StronglySorted_inv in Hs as [Hs Hall].
    destruct (id f <=? id g) eqn:E.
    + apply Z.leb_le in E. constructor; [by constructor|].
      constructor; [exact E|].
      eapply List.Forall_impl; [|exact Hall]. cbn. intros; lia.
    + apply Z.leb_gt in E. constructor; [by apply IH|].
      assert (Hin : forall x, In x (DBHelper.insert_by_id f l) -> x = f \/ In x l).
      { clear. induction l as [|h l IHl]; cbn.
        - intros x [<- | []]. by left.
        - destruct (id f <=? id h); cbn.
          + intros x [<- | Hx]; [by left|by right].
          + intros x [<- | Hx]; [right; by left|].
            destruct (IHl x Hx); [by left|right; by right]. }
      apply List.Forall_forall. intros x [-> | Hx]%Hin; [lia|].
      rewrite List.Forall_forall in Hall. by apply Hall.
Qed.

Lemma order_by_id_sorted l : by_id (DBHelper.order_by_id l).
Proof.
  induction l as [|f l IH]; cbn; [constructor|].
  by apply insert_by_id_sorted.
Qed.

Lemma filter_insert_by_id (p : File -> bool) f l :
  by_id l ->
  List.filter p (DBHelper.insert_by_id f l)
  = if p f then DBHelper.insert_by_id f (List.filter p l)
    else List.filter p l.
Proof.
  unfold by_id. induction l as [|g l IH]; intros Hs.
  - cbn. by destruct (p f).
  - apply StronglySorted_inv in Hs as [Hs Hall].
    cbn [DBHelper.insert_by_id]. destruct (id f <=? id g) eqn:E.
    + apply Z.leb_le in E. cbn [List.filter]. destruct (p f); [|done].
      rewrite insert_by_id_first; [done|].
      assert (Hge : Forall (fun x => id f <= id x) (g :: l)).
      { apply Forall_cons. split; [exact E|].
        apply Forall_forall. intros x Hx%list_elem_of_In.
        rewrite List.Forall_forall in Hall. specialize (Hall x Hx). lia. }
      apply Forall_forall. intros x Hx%list_elem_of_In.
      change (In x (List.filter p (g :: l))) in Hx.
      apply filter_In in Hx as [Hx _].
      rewrite Forall_forall in Hge. apply Hge. by apply list_elem_of_In.
    + cbn [List.filter]. rewrite (IH Hs).
      destruct (p g), (p f); try done.
      cbn [DBHelper.insert_by_id]. by rewrite E.
Qed.

Lemma order_by_id_filter (p : File -> bool) l :
  DBHelper.order_by_id (List.filter p l)
  = List.filter p (DBHelper.order_by_id l).
Proof.
  induction l as [|f l IH]; [reflexivity|].
  cbn [List.filter DBHelper.order_by_id foldr].
  rewrite filter_insert_by_id by apply order_by_id_sorted.
  destruct (p f); [|exact IH].
  cbn [DBHelper.order_by_id foldr]. f_equal. exact IH.
Qed.

Lemma cloudinary_after_update i u rows :
  List.filter (fun f => String.eqb (provider f) "cloudinary")
              (map (DBHelper.to_r2 i u) rows)
  = List.filter (other_than i)
      (List.filter (fun f => String.eqb (provider f) "cloudinary") rows).
Proof.
  induction rows as [|f rows IH]; [reflexivity|].
  cbn [map List.filter]. unfold DBHelper.to_r2 at 1.
  destruct (id f =? i) eqn:E.
  - cbn [provider]. change (String.eqb "aws-s3" "cloudinary") with false.
    cbv iota. rewrite IH.
    destruct (String.eqb (provider f) "cloudinary"); [|reflexivity].
    cbn [List.filter]. change (other_than i f) with (negb (id f =? i)).
    by rewrite E.
  - rewrite IH.
    destruct (String.eqb (provider f) "cloudinary"); [|reflexivity].
    cbn [List.filter]. change (other_than i f) with (negb (id f =? i)).
    unfold DBHelper.to_r2. by rewrite E.
Qed.

(** X12. [getCloudinaryFiles] returns the records in the order of
    their ids. After [updateFileToR2] of an id, it returns the same
    records in the same order without those of that id: a migrated
    record is never selected again, and no other record leaves or enters
    the selection. *)
Theorem updated_record_leaves_selection
    (fl : record_faults) (O : oracle) (fileId : Z) (r2Url : string)
    (w : world) :
  db_update_fault fl = None ->
  db_select_fault O = None ->
  DBHelper.getCloudinaryFiles O w = (Ok (cloudinary_files w), log [EvSelect] w)
  /\ by_id (cloudinary_files w)
  /\ (DBHelper.updateFileToR2 fl fileId r2Url ;;
      DBHelper.getCloudinaryFiles O) w
     = (Ok (List.filter (other_than fileId) (cloudinary_files w)),
        touch (map (DBHelper.to_r2 fileId r2Url) (w_rows w)) (w_bucket w)
              [EvUpdate fileId r2Url; EvSelect] w).
Proof.
  intros Hu Hs. split; [|split].
  - by rewrite select_run, Hs.
  - apply order_by_id_sorted.
  - unfold bind. rewrite update_run, Hu, select_run, Hs.
    unfold cloudinary_files. autorewrite with world. cbn [app].
    by rewrite cloudinary_after_update, order_by_id_filter.
Qed.

Lemma updated_record_leaves_selection_witness :
  (DBHelper.updateFileToR2 all_well 1 "https://cdn/abc.png" ;;
   DBHelper.getCloudinaryFiles (always all_well)) (new_world [poster; photo])
  = (Ok [poster],
     touch (map (DBHelper.to_r2 1 "https://cdn/abc.png") [poster; photo]) ∅
           [EvUpdate 1 "https://cdn/abc.png"; EvSelect]
           (new_world [poster; photo])).
Proof.
  destruct (updated_record_leaves_selection all_well (always all_well) 1
              "https://cdn/abc.png" (new_world [poster; photo])
              eq_refl eq_refl) as (_ & _ & H).
  exact H.
Defined.

(** *** Reading a record back *)

Lemma to_r2_id i u f : id (DBHelper.to_r2 i u f) = id f.
Proof. unfold DBHelper.to_r2. by destruct (id f =? i). Qed.

Lemma find_after_update i u j rows :
  List.find (fun f => id f =? j) (map (DBHelper.to_r2 i u) rows)
  = DBHelper.to_r2 i u <$> List.find (fun f => id f =? j) rows.
Proof.
  induction rows as [|f rows IH]; [reflexivity|].
  cbn [map List.find]. rewrite to_r2_id.
  destruct (id f =? j); [reflexivity|exact IH].
Qed.

(** X13. After [updateFileToR2] of an id with a URL, [getFileById] of
    that id gives the row with that URL, the provider "aws-s3" and no
    provider metadata or formats, its name, hash, extension, type and
    size being kept; [getFileById] of any other id gives what it gave
    before; and the table has as many rows as before. *)
Theorem updated_record_is_read_back
    (fl : record_faults) (fileId other : Z) (r2Url : string) (w : world) :
  db_update_fault fl = None ->
  (DBHelper.updateFileToR2 fl fileId r2Url ;; DBHelper.getFileById fileId) w
  = (Ok ((fun f => mkFile fileId (name f) (hash f) (ext f) (mime f) (size f)
                          r2Url "aws-s3" None None)
         <$> row_of fileId w),
     touch (map (DBHelper.to_r2 fileId r2Url) (w_rows w)) (w_bucket w)
           [EvUpdate fileId r2Url] w)
  /\ (other <> fileId ->
      (DBHelper.updateFileToR2 fl fileId r2Url ;; DBHelper.getFileById other) w
      = (Ok (row_of other w),
         touch (map (DBHelper.to_r2 fileId r2Url) (w_rows w)) (w_bucket w)
               [EvUpdate fileId r2Url] w))
  /\ length (map (DBHelper.to_r2 fileId r2Url) (w_rows w))
     = length (w_rows w).
Proof.
  intros Hu. unfold bind. rewrite update_run, Hu.
  unfold DBHelper.getFileById, bind, gets, ret. autorewrite with world.
  rewrite !find_after_update. unfold row_of.
  split; [|split].
  - f_equal. f_equal.
    destruct (List.find _ (w_rows w)) as [f|] eqn:E; [|reflexivity].
    apply find_some in E as [_ E]. cbn. unfold DBHelper.to_r2. rewrite E.
    apply Z.eqb_eq in E. by rewrite E.
  - intros Hne. f_equal. f_equal.
    destruct (List.find _ (w_rows w)) as [f|] eqn:E; [|reflexivity].
    apply find_some in E as [_ E]. cbn. unfold DBHelper.to_r2.
    apply Z.eqb_eq in E. rewrite E.
    by replace (other =? fileId) with false by (symmetry; apply Z.eqb_neq; lia).
  - apply length_map.
Qed.

Lemma updated_record_is_read_back_witness :
  (DBHelper.updateFileToR2 all_well 1 "https://cdn/abc.png" ;;
   DBHelper.getFileById 1) (new_world [poster; photo])
  = (Ok (Some (mkFile 1 "a.png" "abc" ".png" "image/png" 10
                      "https://cdn/abc.png" "aws-s3" None None)),
     touch (map (DBHelper.to_r2 1 "https://cdn/abc.png") [poster; photo]) ∅
           [EvUpdate 1 "https://cdn/abc.png"] (new_world [poster; photo])).
Proof.
  destruct (updated_record_is_read_back all_well 1 2 "https://cdn/abc.png"
              (new_world [poster; photo]) eq_refl) as (H & _).
  exact H.
Defined.

(** *** Counting by provider *)

Lemma count_after_update p i u rows f :
  NoDup (map id rows) ->
  f ∈ rows -> id f = i ->
  count_of p (map (DBHelper.to_r2 i u) rows)
  = (count_of p rows
     + (if String.eqb "aws-s3" p then 1 else 0)
     - (if String.eqb (provider f) p then 1 else 0))%nat.
Proof.
  unfold count_of.
  induction rows as [|g rows IH]; intros Hnd Hin Hid.
  - by apply elem_of_nil in Hin.
  - cbn [map] in Hnd. apply NoDup_cons in Hnd as [Hg Hnd].
    apply elem_of_cons in Hin as [-> | Hin].
    + assert (Hrest : map (DBHelper.to_r2 i u) rows = rows).
      { clear IH. induction rows as [|h rows IHr]; [reflexivity|].
        cbn [map] in *. apply NoDup_cons in Hnd as [Hh Hnd].
        rewrite IHr; [|intros Hc; apply Hg; by right|exact Hnd].
        unfold DBHelper.to_r2.
        destruct (id h =? i) eqn:E; [|reflexivity].
        apply Z.eqb_eq in E. exfalso. apply Hg. rewrite Hid, <- E. by left. }
      cbn [map List.filter]. rewrite Hrest.
      unfold DBHelper.to_r2. rewrite Hid, Z.eqb_refl. cbn [provider].
      destruct (String.eqb "aws-s3" p), (String.eqb (provider g) p);
        cbn [length]; lia.
    + assert (id g <> i).
      { intros Hc. apply Hg. rewrite Hc, <- Hid.
        apply list_elem_of_fmap. by exists f. }
      cbn [map List.filter]. unfold DBHelper.to_r2 at 1.
      replace (id g =? i) with false by (symmetry; by apply Z.eqb_neq).
      specialize (IH Hnd Hin Hid).
      assert (Hpos : String.eqb (provider f) p = true ->
                (0 < length (List.filter (fun f => String.eqb (provider f) p)
                                         rows))%nat).
      { intros Hp. clear -Hin Hp. induction rows as [|h rows IHr].
        - by apply elem_of_nil in Hin.
        - cbn [List.filter]. apply elem_of_cons in Hin as [<- | Hin].
          + rewrite Hp. cbn. lia.
          + destruct (String.eqb (provider h) p); cbn; [lia|by apply IHr]. }
      destruct (String.eqb (provider g) p); cbn [length]; [|exact IH].
      rewrite IH.
      destruct (String.eqb "aws-s3" p), (String.eqb (provider f) p);
        try lia.
      all: specialize (Hpos eq_refl); lia.
Qed.

(** X14. On a table with distinct ids, [updateFileToR2] of a record of
    the source moves exactly one record: [getFileCountByProvider] gives
    one less for "cloudinary" and one more for "aws-s3". *)
Theorem update_moves_one_record
    (fl : record_faults) (f : File) (r2Url : string) (w : world) :
  db_update_fault fl = None ->
  NoDup (map id (w_rows w)) ->
  f ∈ w_rows w ->
  provider f = "cloudinary" ->
  exists w' before_c before_r after_c after_r,
    DBHelper.getFileCountByProvider "cloudinary" w = (Ok before_c, w)
    /\ DBHelper.getFileCountByProvider "aws-s3" w = (Ok before_r, w)
    /\ DBHelper.updateFileToR2 fl (id f) r2Url w = (Ok tt, w')
    /\ DBHelper.getFileCountByProvider "cloudinary" w' = (Ok after_c, w')
    /\ DBHelper.getFileCountByProvider "aws-s3" w' = (Ok after_r, w')
    /\ S after_c = before_c
    /\ after_r = S before_r.
Proof.
  intros Hu Hnd Hin Hp.
  eexists _, (count_of "cloudinary" (w_rows w)),
             (count_of "aws-s3" (w_rows w)),
             (count_of "cloudinary"
                (map (DBHelper.to_r2 (id f) r2Url) (w_rows w))),
             (count_of "aws-s3"
                (map (DBHelper.to_r2 (id f) r2Url) (w_rows w))).
  split; [reflexivity|]. split; [reflexivity|].
  split; [by rewrite update_run, Hu|].
  split; [reflexivity|]. split; [reflexivity|].
  rewrite !(count_after_update _ _ _ _ f Hnd Hin eq_refl), Hp.
  change (String.eqb "aws-s3" "cloudinary") with false.
  change (String.eqb "cloudinary" "cloudinary") with true.
  change (String.eqb "aws-s3" "aws-s3") with true.
  change (String.eqb "cloudinary" "aws-s3") with false.
  assert (0 < count_of "cloudinary" (w_rows w))%nat; [|split; lia].
  unfold count_of. clear -Hin Hp.
  induction (w_rows w) as [|h rows IHr].
  - by apply elem_of_nil in Hin.
  - cbn [List.filter]. apply elem_of_cons in Hin as [<- | Hin].
    + rewrite Hp. cbn. lia.
    + destruct (String.eqb (provider h) "cloudinary"); cbn; [lia|by apply IHr].
Qed.

Lemma update_moves_one_record_witness :
  exists w',
    DBHelper.updateFileToR2 all_well 1 "https://cdn/abc.png"
                            (new_world [poster; photo]) = (Ok tt, w')
    /\ DBHelper.getFileCountByProvider "cloudinary" w' = (Ok 1%nat, w')
    /\ DBHelper.getFileCountByProvider "aws-s3" w' = (Ok 1%nat, w').
Proof.
  destruct (update_moves_one_record all_well photo "https://cdn/abc.png"
              (new_world [poster; photo]) eq_refl)
    as (w' & bc & br & ac & ar & Hbc & Hbr & Hup & Hac & Har & Hc & Hr).
  - apply (bool_decide_unpack _). vm_compute. reflexivity.
  - right. by left.
  - reflexivity.
  - exists w'. split; [exact Hup|].
    vm_compute in Hbc. injection Hbc as <-.
    vm_compute in Hbr. injection Hbr as <-.
    assert (ac = 1%nat) as -> by lia. subst ar.
    split; [exact Hac|exact Har].
Defined.

(* ================================================================= *)
(** ** The uploader *)

(** *** The account id of the endpoint *)

Lemma strip_prefix_app p r : JS.strip_prefix p (p +:+ r) = Some r.
Proof.
  induction p as [|a p IH]; [reflexivity|].
  rewrite append_cons. cbn [JS.strip_prefix]. by rewrite Ascii.eqb_refl.
Qed.

Lemma strip_prefix_inv p : forall s r,
  JS.strip_prefix p s = Some r -> s = p +:+ r.
Proof.
  induction p as [|a p IH]; intros s r H.
  - destruct s; cbn in H; injection H as <-; reflexivity.
  - destruct s as [|b s]; [discriminate|]. cbn [JS.strip_prefix] in H.
    destruct (Ascii.eqb a b) eqn:E; [|discriminate].
    apply Ascii.eqb_eq in E as ->. rewrite append_cons. f_equal. by apply IH.
Qed.

Lemma startsWith_inv s p :
  JS.startsWith s p = true -> exists r, s = p +:+ r.
Proof.
  unfold JS.startsWith. destruct (JS.strip_prefix p s) as [r|] eqn:E; [|done].
  intros _. exists r. by apply strip_prefix_inv.
Qed.

Lemma span_not_dot_app a r :
  has_char "." a = false ->
  R2Uploader.span_not_dot (a +:+ String "."%char r) = (a, String "."%char r).
Proof.
  induction a as [|c a IH]; intros H.
  - reflexivity.
  - rewrite append_cons. cbn [has_char] in H.
    apply orb_false_elim in H as [Hc Ha].
    cbn [R2Uploader.span_not_dot]. rewrite Hc, (IH Ha). reflexivity.
Qed.

Lemma span_not_dot_inv s : forall a r,
  R2Uploader.span_not_dot s = (a, r) ->
  s = a +:+ r /\ has_char "." a = false.
Proof.
  induction s as [|c s IH]; intros a r H; cbn [R2Uploader.span_not_dot] in H.
  - by injection H as <- <-.
  - destruct (Ascii.eqb c ".") eqn:E.
    + by injection H as <- <-.
    + destruct (R2Uploader.span_not_dot s) as [a' r'].
      injection H as <- <-. destruct (IH _ _ eq_refl) as [-> Ha].
      split; [reflexivity|]. cbn [has_char]. by rewrite E, Ha.
Qed.

Lemma append_assoc a b c : (a +:+ b) +:+ c = a +:+ (b +:+ c).
Proof.
  induction a as [|x a IH]; [reflexivity|].
  rewrite !append_cons. by rewrite IH.
Qed.

Lemma account_match_inv s : forall a,
  R2Uploader.account_match s = Some a ->
  exists pre post,
    s = pre +:+ "https://" +:+ a +:+ ".r2.cloudflarestorage.com" +:+ post
    /\ a <> EmptyString /\ has_char "." a = false.
Proof.
  induction s as [|c s IH]; intros a H.
  - discriminate.
  - cbn [R2Uploader.account_match] in H.
    destruct (R2Uploader.account_here (String c s)) as [a'|] eqn:E.
    + injection H as ->. exists EmptyString.
      unfold R2Uploader.account_here in E.
      destruct (JS.strip_prefix "https://" (String c s)) as [r|] eqn:Ep;
        [|discriminate].
      apply strip_prefix_inv in Ep.
      destruct (R2Uploader.span_not_dot r) as [x rest] eqn:Es.
      apply span_not_dot_inv in Es as [-> Hx].
      destruct (String.eqb x EmptyString) eqn:Ee; [discriminate|].
      destruct (JS.startsWith rest ".r2.cloudflarestorage.com") eqn:Er;
        [|discriminate].
      injection E as ->. apply startsWith_inv in Er as [post ->].
      exists post. rewrite append_nil. split; [exact Ep|]. split; [|exact Hx].
      intros ->. discriminate.
    + destruct (IH _ H) as (pre & post & -> & Ha).
      exists (String c pre), post. split; [reflexivity|exact Ha].
Qed.

(** X15. For an endpoint of the form
    [https://ACCOUNT.r2.cloudflarestorage.com], with or without anything
    after it, where ACCOUNT is not empty and holds no dot,
    [extractAccountId] returns ACCOUNT; and when no public domain is
    configured [getPublicUrl] of a key is
    [https://BUCKET.ACCOUNT.r2.cloudflarestorage.com/KEY]. *)
Theorem account_id_is_read_back (u : R2Uploader.t) (acct rest : string) :
  acct <> EmptyString ->
  has_char "." acct = false ->
  R2Uploader.endpoint u
  = Some ("https://" +:+ acct +:+ ".r2.cloudflarestorage.com" +:+ rest) ->
  R2Uploader.extractAccountId u = Ok acct
  /\ (JS.truthy (R2Uploader.publicUrl u) = false ->
      forall key,
        R2Uploader.getPublicUrl u key
        = Ok ("https://" +:+ JS.to_string (R2Uploader.bucket u) +:+ "."
              +:+ acct +:+ ".r2.cloudflarestorage.com/" +:+ key)).
Proof.
  intros Hne Hdot He.
  assert (Hx : R2Uploader.extractAccountId u = Ok acct).
  { unfold R2Uploader.extractAccountId. rewrite He.
    assert (R2Uploader.account_here
              ("https://" +:+ acct +:+ ".r2.cloudflarestorage.com" +:+ rest)
            = Some acct) as Hh.
    { unfold R2Uploader.account_here. rewrite strip_prefix_app.
      change (".r2.cloudflarestorage.com" +:+ rest)
        with (String "."%char ("r2.cloudflarestorage.com" +:+ rest)).
      rewrite (span_not_dot_app _ _ Hdot).
      destruct (String.eqb acct EmptyString) eqn:E.
      - apply String.eqb_eq in E. contradiction.
      - change (String "."%char ("r2.cloudflarestorage.com" +:+ rest))
          with (".r2.cloudflarestorage.com" +:+ rest).
        unfold JS.startsWith. by rewrite strip_prefix_app. }
    destruct ("https://" +:+ acct +:+ ".r2.cloudflarestorage.com" +:+ rest)
      eqn:Es; cbn [R2Uploader.account_match]; by rewrite Hh. }
  split; [exact Hx|].
  intros Hp key. unfold R2Uploader.getPublicUrl. by rewrite Hp, Hx.
Qed.

Lemma account_id_is_read_back_witness :
  R2Uploader.extractAccountId (R2Uploader.fromEnv sample_env) = Ok "acct"
  /\ R2Uploader.getPublicUrl (R2Uploader.fromEnv sample_env) "abc.png"
     = Ok "https://media.acct.r2.cloudflarestorage.com/abc.png".
Proof.
  destruct (account_id_is_read_back (R2Uploader.fromEnv sample_env)
              "acct" EmptyString) as [Hx Hu].
  - discriminate.
  - reflexivity.
  - reflexivity.
  - split; [exact Hx|]. exact (Hu eq_refl "abc.png").
Defined.

(** X16. Whatever [extractAccountId] returns is read from the
    endpoint: the endpoint is defined and holds, somewhere,
    [https://] followed by the account id and
    [.r2.cloudflarestorage.com], and the account id is not empty and
    holds no dot. *)
Theorem account_id_comes_from_endpoint (u : R2Uploader.t) (acct : string) :
  R2Uploader.extractAccountId u = Ok acct ->
  exists e pre post,
    R2Uploader.endpoint u = Some e
    /\ e = pre +:+ "https://" +:+ acct +:+ ".r2.cloudflarestorage.com"
           +:+ post
    /\ acct <> EmptyString
    /\ has_char "." acct = false.
Proof.
  unfold R2Uploader.extractAccountId.
  destruct (R2Uploader.endpoint u) as [e|]; [|discriminate].
  destruct (R2Uploader.account_match e) as [a|] eqn:E; [|discriminate].
  intros [= ->]. destruct (account_match_inv _ _ E) as (pre & post & H).
  exists e, pre, post. split; [reflexivity|exact H].
Qed.

Lemma account_id_comes_from_endpoint_witness :
  exists e pre post,
    R2Uploader.endpoint (R2Uploader.fromEnv sample_env) = Some e
    /\ e = pre +:+ "https://" +:+ "acct" +:+ ".r2.cloudflarestorage.com"
           +:+ post
    /\ "acct" <> EmptyString
    /\ has_char "." "acct" = false.
Proof.
  apply (account_id_comes_from_endpoint (R2Uploader.fromEnv sample_env)
                                        "acct").
  reflexivity.
Defined.

(** *** Uploads *)

(** X17. [upload] makes exactly one call, chosen by the size of the
    buffer: a multipart upload with parts of 5 MiB and a queue of 4 above
    5 MiB, a simple put up to and including 5 MiB. When the call fails
    the bucket is unchanged and the error is "Failed to upload to R2: "
    followed by the cause, itself behind "Failed multipart upload to
    R2: " for a multipart upload. When the call goes through the object
    is in the bucket under the key, with the length of the buffer and
    the content type, also when the public URL cannot be built and
    [upload] throws for it. *)
Theorem upload_by_size
    (u : R2Uploader.t) (fl : record_faults) (buffer : Buffer)
    (key contentType : string) (w : world) :
  R2Uploader.upload u fl buffer key contentType w
  = match r2_put_fault fl with
    | Some e =>
        (Throw (upload_failure buffer e),
         log [upload_call buffer key contentType] w)
    | None =>
        (match R2Uploader.getPublicUrl u key with
         | Ok publicUrl => Ok publicUrl
         | Throw e => Throw (upload_failure buffer e)
         end,
         touch (w_rows w)
               (<[key := mkObject (buffer_length buffer) contentType]>
                  (w_bucket w))
               [upload_call buffer key contentType] w)
    end.
Proof.
  unfold R2Uploader.upload, R2Uploader.multipartUpload, upload_call,
    upload_failure.
  run.
  destruct (_ <? buffer_length buffer); run.
  all: destruct (r2_put_fault fl); run; try reflexivity.
  all: destruct (R2Uploader.getPublicUrl u key); run; reflexivity.
Qed.

(** What a store that works leaves behind an upload. *)
Lemma upload_stores u fl buffer key contentType w :
  r2_put_fault fl = None ->
  (R2Uploader.upload u fl buffer key contentType w).2
  = touch (w_rows w)
          (<[key := mkObject (buffer_length buffer) contentType]>
             (w_bucket w))
          [upload_call buffer key contentType] w.
Proof.
  intros Hput.
  unfold R2Uploader.upload, R2Uploader.multipartUpload, upload_call.
  run.
  destruct (_ <? buffer_length buffer); run.
  all: rewrite Hput; run.
  all: destruct (R2Uploader.getPublicUrl u key); run; reflexivity.
Qed.

(** X18. After an upload that the store accepted, [fileExists] of the
    key answers [true] and the bucket holds under the key an object with
    the length of the buffer and the content type; for every other key
    the bucket holds what it held and [fileExists] answers as it would
    have before the upload. *)
Theorem uploaded_object_is_found
    (u : R2Uploader.t) (fl : record_faults) (buffer : Buffer)
    (key contentType : string) (w w1 : world) (res : result string) :
  r2_put_fault fl = None ->
  r2_head_fault fl = None ->
  R2Uploader.upload u fl buffer key contentType w = (res, w1) ->
  R2Uploader.fileExists fl key w1 = (Ok true, log [EvHeadObject key] w1)
  /\ w_bucket w1 !! key = Some (mkObject (buffer_length buffer) contentType)
  /\ (forall other, other <> key ->
        w_bucket w1 !! other = w_bucket w !! other
        /\ R2Uploader.fileExists fl other w1
           = (Ok (bool_decide (is_Some (w_bucket w !! other))),
              log [EvHeadObject other] w1)).
Proof.
  intros Hput Hhead Hup.
  assert (w1 = (R2Uploader.upload u fl buffer key contentType w).2) as ->
    by (by rewrite Hup).
  rewrite (upload_stores _ _ _ _ _ _ Hput).
  assert (Hexists : forall k,
    R2Uploader.fileExists fl k
      (touch (w_rows w)
             (<[key := mkObject (buffer_length buffer) contentType]>
                (w_bucket w))
             [upload_call buffer key contentType] w)
    = (Ok (bool_decide
             (is_Some ((<[key := mkObject (buffer_length buffer) contentType]>
                          (w_bucket w)) !! k))),
       log [EvHeadObject k]
           (touch (w_rows w)
                  (<[key := mkObject (buffer_length buffer) contentType]>
                     (w_bucket w))
                  [upload_call buffer key contentType] w))).
  { intros k. destruct (fileExists_run fl k
      (touch (w_rows w)
             (<[key := mkObject (buffer_length buffer) contentType]>
                (w_bucket w))
             [upload_call buffer key contentType] w)) as (r & -> & _ & Hr).
    rewrite (Hr Hhead). autorewrite with world. f_equal. f_equal.
    destruct (_ !! k).
    - rewrite bool_decide_eq_true_2 by eauto. reflexivity.
    - rewrite bool_decide_eq_false_2 by (by intros [? [=]]). reflexivity. }
  split; [|split].
  - rewrite Hexists, lookup_insert_eq.
    rewrite bool_decide_eq_true_2 by eauto. reflexivity.
  - rewrite bucket_touch. apply lookup_insert_eq.
  - intros other Hne. rewrite Hexists, bucket_touch.
    rewrite lookup_insert_ne by done. split; reflexivity.
Qed.

Lemma uploaded_object_is_found_witness :
  let w1 := (R2Uploader.upload (R2Uploader.fromEnv sample_env) all_well
                               (mkBuffer 10) "abc.png" "image/png"
                               (new_world [photo])).2 in
  R2Uploader.fileExists all_well "abc.png" w1
  = (Ok true, log [EvHeadObject "abc.png"] w1)
  /\ w_bucket w1 !! "abc.png" = Some (mkObject 10 "image/png").
Proof.
  intros w1.
  destruct (uploaded_object_is_found (R2Uploader.fromEnv sample_env) all_well
              (mkBuffer 10) "abc.png" "image/png" (new_world [photo]) w1
              (R2Uploader.upload (R2Uploader.fromEnv sample_env) all_well
                 (mkBuffer 10) "abc.png" "image/png" (new_world [photo])).1
              eq_refl eq_refl) as (H1 & H2 & _).
  - subst w1. by destruct (R2Uploader.upload _ _ _ _ _ _).
  - split; [exact H1|exact H2].
Defined.

(* ================================================================= *)
(** ** The backup helper *)

(** *** Time stamps *)

Lemma split_not_nil c s : split c s <> [].
Proof.
  destruct s as [|a s]; cbn [split]; [discriminate|].
  destruct (Ascii.eqb a c); [discriminate|]. by destruct (split c s).
Qed.

Lemma join_split c d s :
  join (String d EmptyString) (split c s)
  = map_chars (fun a => if Ascii.eqb a c then d else a) s.
Proof.
  unfold join. induction s as [|a s IH]; [reflexivity|].
  cbn [split map_chars]. pose proof (split_not_nil c s) as Hne.
  destruct (Ascii.eqb a c).
  - cbn [String.concat]. destruct (split c s) as [|h t]; [done|].
    rewrite <- IH. reflexivity.
  - destruct (split c s) as [|h t]; [done|].
    rewrite <- IH. cbn [String.concat]. destruct t; reflexivity.
Qed.

Lemma split_absent c s : has_char c s = false -> split c s = [s].
Proof.
  induction s as [|a s IH]; [reflexivity|].
  cbn [has_char split]. intros [Ha Hs]%orb_false_elim.
  rewrite Ha, (IH Hs). reflexivity.
Qed.

Lemma length_map_chars f s :
  String.length (map_chars f s) = String.length s.
Proof. induction s as [|a s IH]; [reflexivity|]. cbn. by rewrite IH. Qed.

Lemma dashed_is_not c a :
  Ascii.eqb c ":" || Ascii.eqb c "." || Ascii.eqb c "T" = true ->
  Ascii.eqb (dashed a) c = false.
Proof.
  intros Hc. unfold dashed.
  destruct (Ascii.eqb a ":" || Ascii.eqb a "." || Ascii.eqb a "T") eqn:Ea.
  - apply Ascii.eqb_neq. intros <-. discriminate.
  - apply Ascii.eqb_neq. intros ->. congruence.
Qed.

Lemma map_chars_dashed_free c s :
  Ascii.eqb c ":" || Ascii.eqb c "." || Ascii.eqb c "T" = true ->
  has_char c (map_chars dashed s) = false.
Proof.
  intros Hc. induction s as [|a s IH]; [reflexivity|].
  cbn [map_chars has_char]. by rewrite IH, (dashed_is_not _ _ Hc).
Qed.

(** X19. [getTimestamp] respells the clock reading character by
    character: every colon, dot and [T] becomes a dash and every other
    character stays, so the time stamp is as long as the reading, keeps
    its milliseconds and its final [Z], and holds no colon, dot or [T].
    The last step of the script, [.split('.')[0]], never cuts
    anything. *)
Theorem getTimestamp_respells (iso : string) :
  getTimestamp iso = map_chars dashed iso
  /\ String.length (getTimestamp iso) = String.length iso
  /\ has_char ":" (getTimestamp iso) = false
  /\ has_char "." (getTimestamp iso) = false
  /\ has_char "T" (getTimestamp iso) = false.
Proof.
  assert (Hmap : getTimestamp iso = map_chars dashed iso).
  { unfold getTimestamp. rewrite (join_split "T" "-").
    assert (Hnd : has_char "."
              (map_chars (fun a => if Ascii.eqb a "T" then "-"%char else a)
                         (replace_colon_dot iso)) = false).
    { induction iso as [|a s IH]; [reflexivity|].
      cbn [replace_colon_dot map_chars has_char]. rewrite IH.
      destruct (Ascii.eqb_spec a ":") as [-> | _]; [reflexivity|].
      destruct (Ascii.eqb_spec a ".") as [-> | Hne]; [reflexivity|].
      cbn [orb]. destruct (Ascii.eqb a "T"); [reflexivity|].
      rewrite orb_false_r. by apply Ascii.eqb_neq. }
    rewrite (split_absent _ _ Hnd). cbn [hd].
    clear Hnd. induction iso as [|a s IH]; [reflexivity|].
    cbn [replace_colon_dot map_chars]. rewrite IH. f_equal. unfold dashed.
    destruct (Ascii.eqb_spec a ":") as [-> | _]; [reflexivity|].
    destruct (Ascii.eqb_spec a ".") as [-> | _]; reflexivity. }
  rewrite Hmap. split; [reflexivity|].
  split; [apply length_map_chars|].
  repeat split; by apply map_chars_dashed_free.
Qed.

(** *** Tokens *)

Lemma match_classes_inv p : forall s m,
  match_classes p s = Some m ->
  exists rest,
    s = m +:+ rest
    /\ String.length m = length p
    /\ match_classes p m = Some m.
Proof.
  induction p as [|cl p IH]; intros s m H; cbn [match_classes] in H.
  - injection H as <-. exists s. done.
  - destruct s as [|c s]; [discriminate|].
    destruct (cl c) eqn:Ec; [|discriminate].
    destruct (match_classes p s) as [m'|] eqn:Em; [|discriminate].
    injection H as <-. destruct (IH _ _ Em) as (rest & -> & Hlen & Hm).
    exists rest. split; [reflexivity|]. split; [cbn; by rewrite Hlen|].
    cbn [match_classes]. by rewrite Ec, Hm.
Qed.

(** X20. The token [listBackups] reads from a name is in the name:
    the name holds [backup-] followed by the token, and the token is 19
    characters of the form of a date and a time to the second, digits
    and dashes. *)
Theorem backup_token_is_in_the_name (file t : string) :
  backup_token file = Some t ->
  exists pre post,
    file = pre +:+ "backup-" +:+ t +:+ post
    /\ String.length t = 19%nat
    /\ match_classes token_pattern t = Some t.
Proof.
  revert t. induction file as [|c file IH]; intros t H.
  - discriminate.
  - cbn [backup_token] in H.
    destruct (token_here (String c file)) as [t'|] eqn:E.
    + injection H as ->. unfold token_here in E.
      destruct (JS.strip_prefix "backup-" (String c file)) as [r|] eqn:Ep;
        [|discriminate].
      apply strip_prefix_inv in Ep.
      destruct (match_classes_inv _ _ _ E) as (post & -> & Hlen & Hm).
      exists EmptyString, post. split; [exact Ep|]. split; [exact Hlen|exact Hm].
    + destruct (IH _ H) as (pre & post & -> & Hrest).
      exists (String c pre), post. split; [reflexivity|exact Hrest].
Qed.

Lemma backup_token_is_in_the_name_witness :
  exists pre post,
    "data.db.backup-2025-12-23-10-00-00-123Z"
    = pre +:+ "backup-" +:+ "2025-12-23-10-00-00" +:+ post
    /\ String.length "2025-12-23-10-00-00" = 19%nat
    /\ match_classes token_pattern "2025-12-23-10-00-00"
       = Some "2025-12-23-10-00-00".
Proof.
  apply (backup_token_is_in_the_name
           "data.db.backup-2025-12-23-10-00-00-123Z" "2025-12-23-10-00-00").
  vm_compute. reflexivity.
Defined.

(** *** The files of a group *)

Lemma filter_snoc {A} (p : A -> bool) l x :
  List.filter p (l ++ [x]) = List.filter p l ++ (if p x then [x] else []).
Proof. rewrite List.filter_app. reflexivity. Qed.

Lemma add_file_filed seen t file : forall gs,
  backup_token file = Some t ->
  NoDup (map timestamp gs) ->
  Forall (filed seen) gs ->
  List.filter (carries t) seen = [] \/ t ∈ map timestamp gs ->
  Forall (filed (seen ++ [file])) (add_file t file gs).
Proof.
  intros gs Htok. 
  assert (Hself : carries t file = true).
  { unfold carries. rewrite Htok. apply String.eqb_refl. }
  assert (Hother : forall t', t' <> t -> carries t' file = false).
  { intros t' Hne. unfold carries. rewrite Htok.
    apply String.eqb_neq. congruence. }
  induction gs as [|g gs IH]; intros Hnd Hall Hcase; cbn [add_file].
  - destruct Hcase as [Hnone | Hin]; [|by apply elem_of_nil in Hin].
    constructor; [|constructor]. unfold filed. cbn [files timestamp].
    by rewrite filter_snoc, Hnone, Hself.
  - cbn [map] in Hnd. apply NoDup_cons in Hnd as [Hg Hnd].
    apply Forall_cons in Hall as [Hfg Hall].
    destruct (String.eqb_spec (timestamp g) t) as [Heq | Hne].
    + constructor.
      * unfold filed in *. cbn [files timestamp].
        rewrite filter_snoc, Heq, Hself, <- Heq. by rewrite Hfg.
      * apply Forall_forall. intros g' Hg'.
        rewrite Forall_forall in Hall. specialize (Hall g' Hg').
        unfold filed in *. rewrite filter_snoc, Hother, app_nil_r; [done|].
        intros Hc. apply Hg. rewrite Heq, <- Hc.
        apply list_elem_of_fmap. by exists g'.
    + constructor.
      * unfold filed in *. by rewrite filter_snoc, (Hother _ Hne), app_nil_r.
      * apply IH; [done|done|].
        destruct Hcase as [Hnone | Hin]; [by left|].
        right. cbn [map] in Hin.
        apply elem_of_cons in Hin as [Heq | Hin]; [by symmetry in Heq|done].
Qed.

Lemma visit_filed seen gs file :
  groups_of seen gs ->
  Forall (filed seen) gs ->
  Forall (filed (seen ++ [file])) (visit gs file).
Proof.
  intros (Hnd & _ & Hcomplete & _) Hall. unfold visit.
  destruct (backup_token file) as [t|] eqn:Et.
  - apply add_file_filed; [done|done|done|].
    destruct (decide (t ∈ map timestamp gs)) as [Hin | Hnin]; [by right|].
    left. destruct (List.filter (carries t) seen) as [|f l] eqn:Ef; [done|].
    exfalso. apply Hnin.
    assert (Hf : In f (List.filter (carries t) seen)) by (rewrite Ef; by left).
    apply filter_In in Hf as [Hf Hc]. unfold carries in Hc.
    destruct (backup_token f) as [t'|] eqn:Etf; [|discriminate].
    apply String.eqb_eq in Hc as ->.
    destruct (Hcomplete f t (proj2 (list_elem_of_In _ _) Hf) Etf)
      as (g & Hg & <- & _).
    apply list_elem_of_fmap. by exists g.
  - apply Forall_forall. intros g Hg.
    rewrite Forall_forall in Hall. specialize (Hall g Hg).
    unfold filed in *. rewrite filter_snoc.
    unfold carries at 2. by rewrite Et, app_nil_r.
Qed.

Lemma fold_visit_filed entries : forall seen gs,
  groups_of seen gs ->
  Forall (filed seen) gs ->
  Forall (filed (seen ++ entries)) (fold_left visit entries gs).
Proof.
  induction entries as [|file entries IH]; intros seen gs Hg Hall.
  - by rewrite app_nil_r.
  - cbn [fold_left].
    replace (seen ++ file :: entries) with ((seen ++ [file]) ++ entries)
      by (by rewrite <- app_assoc).
    apply IH; [by apply visit_groups|by apply visit_filed].
Qed.

Lemma listBackups_filed date entries g :
  g ∈ listBackups date (Some entries) -> filed entries g.
Proof.
  unfold listBackups. rewrite (sort_perm (newest_first date)).
  intros Hg.
  pose proof (fold_visit_filed entries [] [] no_groups (Forall_nil_2 _)) as H.
  rewrite Forall_forall in H. exact (H g Hg).
Qed.

(** X21. The files of a group of [listBackups] are exactly the names of
    the directory that carry the token of the group, each once and in
    the order of the directory; the order of the groups does not change
    that. *)
Theorem listBackups_keeps_directory_order
    (date : string -> option Z) (entries : list string) (g : BackupSet) :
  g ∈ listBackups date (Some entries) ->
  files g = List.filter (carries (timestamp g)) entries.
Proof. apply listBackups_filed. Qed.

Lemma listBackups_keeps_directory_order_witness :
  files (mkBackupSet "2025-12-23-10-00-00"
           ["cloudinary-backup-2025-12-23-10-00-00-123Z.json";
            "data.db.backup-2025-12-23-10-00-00-123Z";
            "backup-2025-12-23-10-00-00-950Z.sql"])
  = List.filter (carries "2025-12-23-10-00-00") crowded_dir.
Proof.
  apply (listBackups_keeps_directory_order invalid_date crowded_dir
           (mkBackupSet "2025-12-23-10-00-00"
              ["cloudinary-backup-2025-12-23-10-00-00-123Z.json";
               "data.db.backup-2025-12-23-10-00-00-123Z";
               "backup-2025-12-23-10-00-00-950Z.sql"])).
  vm_compute. left.
Defined.

(** *** The mapping table *)

Lemma split_app c a b :
  has_char c a = false ->
  split c (a +:+ String c b) = a :: split c b.
Proof.
  induction a as [|x a IH]; intros H.
  - rewrite append_nil. cbn [split]. by rewrite Ascii.eqb_refl.
  - cbn [has_char] in H. apply orb_false_elim in H as [Hx Ha].
    rewrite append_cons. cbn [split]. rewrite Hx, (IH Ha). reflexivity.
Qed.

Lemma split_join c rows :
  rows <> [] ->
  Forall (fun r => has_char c r = false) rows ->
  split c (join (String c EmptyString) rows) = rows.
Proof.
  unfold join. induction rows as [|r rows IH]; [done|].
  intros _ [Hr Hrows]%Forall_cons. cbn [String.concat].
  destruct rows as [|r' rows].
  - by apply split_absent.
  - rewrite append_cons, append_nil.
    rewrite (split_app _ _ _ Hr). f_equal. by apply IH.
Qed.

Lemma uint_no_LF d : has_char LF (NilEmpty.string_of_uint d) = false.
Proof. induction d; cbn; auto. Qed.

Lemma Z_to_string_no_LF z : has_char LF (Z_to_string z) = false.
Proof.
  unfold Z_to_string, NilZero.string_of_int.
  destruct (Z.to_int z) as [d|d]; unfold NilZero.string_of_uint.
  - destruct d; try reflexivity; apply (uint_no_LF (_ _)).
  - cbn [has_char]. destruct d; try reflexivity; apply (uint_no_LF (_ _)).
Qed.

Lemma csv_row_one_line f : one_line f -> has_char LF (csv_row f) = false.
Proof.
  intros (Hn & Hh & Hu). unfold csv_row, join, quoted. cbn [String.concat].
  rewrite !has_char_app, Z_to_string_no_LF, Hh, Hu. cbn [has_char].
  rewrite Hn. reflexivity.
Qed.

(** X22. [exportToCSV] writes the mapping table under
    [migration-mapping-TIMESTAMP.csv] and returns that path. When no
    name, hash or URL holds a line feed, the lines of the table are the
    header and then one row per record of the source, in the order of
    the ids; the table has no final line feed, except that with no
    record it is the header and a line feed. *)
Theorem exportToCSV_lines
    (iso : string) (O : oracle) (backupDir : string) (w : world) :
  db_select_fault O = None ->
  Forall one_line (cloudinary_files w) ->
  exists csv,
    exportToCSV iso O backupDir w
    = (Ok (path_join backupDir (csv_mapping_name (getTimestamp iso))),
       set_fs (<[path_join backupDir (csv_mapping_name (getTimestamp iso))
                 := csv]> (w_fs w))
              (log [EvSelect] w))
    /\ split LF csv
       = csv_header
         :: match cloudinary_files w with
            | [] => [EmptyString]
            | files => map csv_row files
            end.
Proof.
  intros Hs Hrows. unfold exportToCSV. unfold bind at 1.
  rewrite select_run, Hs. unfold bind, writeFileSync, modify, ret.
  eexists. split; [reflexivity|].
  unfold newline. fold LF. fold csv_header.
  rewrite append_assoc, append_cons, append_nil.
  rewrite split_app by reflexivity. f_equal.
  destruct (cloudinary_files w) as [|f files] eqn:E; [reflexivity|].
  apply split_join; [done|].
  apply Forall_forall. intros r (g & -> & Hg)%list_elem_of_fmap.
  apply csv_row_one_line. rewrite Forall_forall in Hrows. by apply Hrows.
Qed.

Lemma exportToCSV_lines_witness :
  exists csv,
    exportToCSV sample_iso (always all_well) "backups" (new_world [photo])
    = (Ok "backups/migration-mapping-2025-12-23-10-00-00-123Z.csv",
       set_fs (<["backups/migration-mapping-2025-12-23-10-00-00-123Z.csv"
                 := csv]> ∅)
              (log [EvSelect] (new_world [photo])))
    /\ split LF csv = [csv_header; csv_row photo].
Proof.
  apply (exportToCSV_lines sample_iso (always all_well) "backups"
                           (new_world [photo])).
  - reflexivity.
  - repeat constructor.
Defined.

(** *** Snapshots of the embedded database *)

(** X23. A snapshot made by [backupSQLite] restores what it saved:
    when the database file is changed after the backup,
    [restoreSQLite] of the snapshot puts the saved content back in the
    database file, keeps the snapshot, and leaves the changed content in
    the [.pre-restore] copy. The path of the snapshot must differ from
    the database file and from its [.pre-restore] copy. *)
Theorem sqlite_backup_round_trip
    (iso dbPath backupDir content changed : string) (w : world) :
  let backupPath :=
    path_join backupDir (sqlite_backup_name (getTimestamp iso)) in
  w_fs w !! dbPath = Some content ->
  backupPath <> dbPath ->
  backupPath <> dbPath +:+ ".pre-restore" ->
  exists w1,
    backupSQLite iso dbPath backupDir w = (Ok backupPath, w1)
    /\ w_fs w1 = <[backupPath := content]> (w_fs w)
    /\ forall w2,
         w_fs w2 = <[dbPath := changed]> (w_fs w1) ->
         exists w3,
           restoreSQLite backupPath dbPath w2 = (Ok tt, w3)
           /\ w_fs w3 !! dbPath = Some content
           /\ w_fs w3 !! backupPath = Some content
           /\ w_fs w3 !! (dbPath +:+ ".pre-restore") = Some changed.
Proof.
  intros backupPath Hdb Hne Hpre.
  unfold backupSQLite, copyFileSync, emit. fold backupPath.
  files_run. rewrite Hdb. files_run.
  eexists. split; [reflexivity|]. split; [reflexivity|].
  intros w2 Hfs.
  assert (Hb : w_fs w2 !! backupPath = Some content).
  { rewrite Hfs, lookup_insert_ne by done. apply lookup_insert_eq. }
  assert (Hl : w_fs w2 !! dbPath = Some changed).
  { rewrite Hfs. apply lookup_insert_eq. }
  unfold restoreSQLite, existsSync, copyFileSync, emit.
  files_run. rewrite Hb. files_run. rewrite Hl. files_run.
  rewrite Hl. files_run.
  rewrite lookup_insert_ne by done. rewrite Hb. files_run.
  eexists. split; [reflexivity|]. cbn.
  split; [apply lookup_insert_eq|].
  split.
  - rewrite lookup_insert_ne by done. rewrite lookup_insert_ne by done.
    exact Hb.
  - rewrite lookup_insert_ne by (apply not_eq_sym, pre_restore_differs).
    apply lookup_insert_eq.
Qed.

Lemma sqlite_backup_round_trip_witness :
  exists w1,
    backupSQLite sample_iso ".tmp/data.db" "backups" sqlite_world
    = (Ok "backups/data.db.backup-2025-12-23-10-00-00-123Z", w1)
    /\ forall w2,
         w_fs w2 = <[".tmp/data.db" := "rows after the migration"]> (w_fs w1) ->
         exists w3,
           restoreSQLite "backups/data.db.backup-2025-12-23-10-00-00-123Z"
                         ".tmp/data.db" w2 = (Ok tt, w3)
           /\ w_fs w3 !! ".tmp/data.db" = Some "live rows".
Proof.
  destruct (sqlite_backup_round_trip sample_iso ".tmp/data.db" "backups"
              "live rows" "rows after the migration" sqlite_world)
    as (w1 & Hb & _ & Hr).
  - reflexivity.
  - discriminate.
  - discriminate.
  - exists w1. split; [exact Hb|].
    intros w2 Hw2. destruct (Hr w2 Hw2) as (w3 & H3 & Hdb & _).
    exists w3. split; [exact H3|exact Hdb].
Defined.

(** X24. [restoreSQLite] at its edges. When the backup file does not
    exist it throws "Backup file not found: " with the path and changes
    nothing. When there is no database file it makes no [.pre-restore]
    copy and creates the database file from the backup. When the backup
    is the [.pre-restore] copy itself, the copy is overwritten with the
    live database before it is read, so the database file is left as it
    was and the content of the copy is gone. *)
Theorem restoreSQLite_edges (backupPath dbPath : string) (w : world) :
  (w_fs w !! backupPath = None ->
   restoreSQLite backupPath dbPath w
   = (Throw (JS.new_Error ("Backup file not found: " +:+ backupPath)), w))
  /\ (forall backup,
        w_fs w !! backupPath = Some backup ->
        w_fs w !! dbPath = None ->
        restoreSQLite backupPath dbPath w
        = (Ok tt,
           set_fs (<[dbPath := backup]> (w_fs w))
                  (log [EvCopyFile backupPath dbPath] w)))
  /\ (forall live old,
        backupPath = dbPath +:+ ".pre-restore" ->
        w_fs w !! backupPath = Some old ->
        w_fs w !! dbPath = Some live ->
        exists w',
          restoreSQLite backupPath dbPath w = (Ok tt, w')
          /\ w_fs w' !! dbPath = Some live
          /\ w_fs w' !! backupPath = Some live).
Proof.
  split; [|split].
  - intros Hb. unfold restoreSQLite, existsSync. files_run.
    rewrite Hb. reflexivity.
  - intros backup Hb Hl.
    unfold restoreSQLite, existsSync, copyFileSync, emit.
    files_run. rewrite Hb. files_run. rewrite Hl. files_run.
    rewrite Hb. files_run. reflexivity.
  - intros live old -> Hb Hl.
    unfold restoreSQLite, existsSync, copyFileSync, emit.
    files_run. rewrite Hb. files_run. rewrite Hl. files_run.
    rewrite Hl. files_run. rewrite lookup_insert_eq. files_run.
    eexists. split; [reflexivity|]. cbn.
    split; [apply lookup_insert_eq|].
    rewrite lookup_insert_ne by (apply not_eq_sym, pre_restore_differs).
    apply lookup_insert_eq.
Qed.

Lemma restoreSQLite_edges_witness :
  restoreSQLite "backups/none" ".tmp/data.db" sqlite_world
  = (Throw (JS.new_Error "Backup file not found: backups/none"), sqlite_world).
Proof.
  destruct (restoreSQLite_edges "backups/none" ".tmp/data.db" sqlite_world)
    as (H & _).
  apply H. reflexivity.
Defined.

(* ================================================================= *)
(** ** The restore script *)

(** X25. Without the consent of the user the restore script changes
    nothing: when the line typed at the prompt is not [y] or [yes], in
    any letter case, [main] only leaves the process, with the code 0 or
    1; no file is copied, no command is run and the database is not
    opened. *)
Theorem restore_needs_consent
    (args : list string) (env : DBHelper.Env) (O : oracle)
    (exec_fault : option JS.error) (date : string -> option Z)
    (entries : option (list string)) (BACKUP_DIR answer : string)
    (w : world) :
  Restore.prompt answer = false ->
  exists code,
    Restore.main args env O exec_fault date entries BACKUP_DIR answer w
    = (Ok tt, log [EvExit code] w)
    /\ (code = 0 \/ code = 1).
Proof.
  intros Hno. unfold Restore.main, try_catch.
  assert (Hsel : forall g,
    exists code,
      Restore.restore_selected env O exec_fault BACKUP_DIR answer g w
      = (Ok tt, log [EvExit code] w) /\ (code = 0 \/ code = 1)).
  { intros g. unfold Restore.restore_selected.
    destruct (List.find _ _); rewrite ?Hno; cbn [negb];
      eexists; (split; [apply emit_run|]); auto. }
  destruct (Nat.eqb _ 0).
  { exists 1. split; [reflexivity|auto]. }
  destruct (JS.truthy _).
  - destruct (List.find _ _) as [g|].
    + destruct (Hsel g) as (code & -> & Hc). by exists code.
    + exists 1. split; [reflexivity|auto].
  - destruct (listBackups date entries) as [|g l].
    + exists 1. split; [reflexivity|auto].
    + destruct (Hsel g) as (code & -> & Hc). by exists code.
Qed.

Lemma restore_needs_consent_witness :
  exists code,
    Restore.main [] sample_env (always all_well) None invalid_date
                 (Some sample_dir) "backups" EmptyString sqlite_world
    = (Ok tt, log [EvExit code] sqlite_world)
    /\ (code = 0 \/ code = 1).
Proof.
  apply (restore_needs_consent [] sample_env (always all_well) None
           invalid_date (Some sample_dir) "backups" EmptyString sqlite_world).
  reflexivity.
Defined.

(** *** The backup that is restored *)

Lemma listBackups_of_token date entries t :
  (exists f, f ∈ entries /\ carries t f = true) ->
  exists g,
    List.find (fun b => String.eqb (timestamp b) t)
              (listBackups date (Some entries)) = Some g
    /\ timestamp g = t
    /\ files g = List.filter (carries t) entries.
Proof.
  intros (f & Hf & Hc).
  pose proof (fold_visit_groups entries [] [] no_groups)
    as (_ & _ & Hcomplete & _).
  rewrite app_nil_l in Hcomplete.
  unfold carries in Hc. destruct (backup_token f) as [t'|] eqn:Et; [|done].
  apply String.eqb_eq in Hc as ->.
  destruct (Hcomplete f t Hf Et) as (g0 & Hg0 & Ht0 & _).
  destruct (List.find (fun b => String.eqb (timestamp b) t)
                      (listBackups date (Some entries))) as [g|] eqn:Efind.
  - apply find_some in Efind as [Hin Heq]. apply String.eqb_eq in Heq.
    exists g. split; [reflexivity|]. split; [exact Heq|].
    rewrite <- Heq. apply (listBackups_filed date).
    by apply list_elem_of_In.
  - exfalso.
    assert (Hin : In g0 (listBackups date (Some entries))).
    { apply list_elem_of_In. unfold listBackups.
      by rewrite (sort_perm (newest_first date)). }
    pose proof (find_none _ _ Efind g0 Hin) as Hno. cbn in Hno.
    rewrite Ht0, String.eqb_refl in Hno. discriminate.
Qed.

Lemma listBackups_no_token date entries t :
  (forall f, f ∈ entries -> carries t f = false) ->
  List.find (fun b => String.eqb (timestamp b) t)
            (listBackups date (Some entries)) = None.
Proof.
  intros Hnone.
  destruct (List.find _ _) as [g|] eqn:Efind; [|reflexivity].
  exfalso. apply find_some in Efind as [Hin Heq]. apply String.eqb_eq in Heq.
  apply list_elem_of_In in Hin.
  unfold listBackups in Hin. rewrite (sort_perm (newest_first date)) in Hin.
  pose proof (fold_visit_groups entries [] [] no_groups)
    as (_ & Hsound & _ & Hfull).
  rewrite app_nil_l in Hsound.
  destruct (files g) as [|f l] eqn:Ef; [by apply (Hfull g Hin)|].
  destruct (Hsound g f Hin) as [Hf Ht]; [rewrite Ef; by left|].
  specialize (Hnone f Hf). unfold carries in Hnone.
  rewrite Ht, Heq, String.eqb_refl in Hnone. discriminate.
Qed.

Lemma listBackups_nil date entries :
  (forall f, f ∈ entries -> backup_token f = None) ->
  listBackups date (Some entries) = [].
Proof.
  intros Hnone.
  destruct (listBackups date (Some entries)) as [|g l] eqn:E; [reflexivity|].
  exfalso.
  assert (Hin : g ∈ fold_left visit entries []).
  { rewrite <- (sort_perm (newest_first date)).
    unfold listBackups in E. rewrite E. by left. }
  pose proof (fold_visit_groups entries [] [] no_groups)
    as (_ & Hsound & _ & Hfull).
  rewrite app_nil_l in Hsound.
  destruct (files g) as [|f fs] eqn:Ef; [by apply (Hfull g Hin)|].
  destruct (Hsound g f Hin) as [Hf Ht]; [rewrite Ef; by left|].
  rewrite (Hnone f Hf) in Ht. discriminate.
Qed.

(** X26. With [--backup=TOKEN], a consenting user and the embedded
    backend, the restore script restores the first database backup among
    the names of the directory that carry the token: when that file
    exists, the database file ends with its content, the database file
    that was there is kept in the [.pre-restore] copy, and the script
    copies, opens the database, closes it and does not exit. The path of
    the backup must differ from the [.pre-restore] copy. *)
Theorem restore_of_requested_backup
    (args : list string) (env : DBHelper.Env) (O : oracle)
    (exec_fault : option JS.error) (date : string -> option Z)
    (entries : list string) (BACKUP_DIR answer : string) (w : world)
    (t dbBackup content : string) :
  let dbPath :=
    DBHelper.or_else (DBHelper.DATABASE_FILENAME env) ".tmp/data.db" in
  let dbBackupPath := path_join BACKUP_DIR dbBackup in
  Restore.requested_backup args = Some t ->
  t <> EmptyString ->
  List.find Restore.is_db_backup (List.filter (carries t) entries)
  = Some dbBackup ->
  Restore.prompt answer = true ->
  DBHelper.or_else (DBHelper.DATABASE_CLIENT env) "sqlite" = "sqlite" ->
  db_connect_fault O = None ->
  w_fs w !! dbBackupPath = Some content ->
  dbBackupPath <> dbPath +:+ ".pre-restore" ->
  exists w',
    Restore.main args env O exec_fault date (Some entries) BACKUP_DIR answer w
    = (Ok tt, w')
    /\ w_fs w' !! dbPath = Some content
    /\ (forall live, w_fs w !! dbPath = Some live ->
          w_fs w' !! (dbPath +:+ ".pre-restore") = Some live)
    /\ w_trace w'
       = w_trace w
         ++ match w_fs w !! dbPath with
            | Some _ => [EvCopyFile dbPath (dbPath +:+ ".pre-restore")]
            | None => []
            end
         ++ [EvCopyFile dbBackupPath dbPath; EvClose].
Proof.
  intros dbPath dbBackupPath Hreq Hne Hfind Hyes Hclient Hconn Hfile Hpre.
  assert (Hsome : exists f, f ∈ entries /\ carries t f = true).
  { apply find_some in Hfind as [Hin _]. apply filter_In in Hin as [Hin Hc].
    exists dbBackup. split; [by apply list_elem_of_In|exact Hc]. }
  destruct (listBackups_of_token date entries t Hsome)
    as (g & Hg & Htg & Hfiles).
  unfold Restore.main, try_catch. rewrite Hreq.
  assert (Htruthy : JS.truthy (Some t) = true).
  { cbn. destruct (String.eqb_spec t EmptyString); [contradiction|done]. }
  rewrite Htruthy. cbn [JS.to_string]. rewrite Hg.
  destruct (listBackups date (Some entries)) as [|g0 l] eqn:El;
    [discriminate|]. cbn [length Nat.eqb].
  unfold Restore.restore_selected. rewrite Hfiles, Hfind, Hyes. cbn [negb].
  fold dbBackupPath.
  unfold Restore.restore_database. rewrite Hclient.
  change (String.eqb "sqlite" "sqlite") with true. cbv iota. fold dbPath.
  unfold DBHelper.init. rewrite Hclient.
  change (String.eqb "sqlite" "sqlite") with true. cbv iota. rewrite Hconn.
  unfold restoreSQLite, existsSync, copyFileSync, emit,
    DBHelper.getFileCountByProvider, DBHelper.close, emit.
  files_run. rewrite Hfile. files_run.
  destruct (w_fs w !! dbPath) as [live|] eqn:Elive; files_run.
  - rewrite Elive. files_run.
    rewrite lookup_insert_ne by done. rewrite Hfile. files_run.
    eexists. split; [reflexivity|]. cbn.
    split; [apply lookup_insert_eq|].
    split.
    + intros ? [= <-].
      rewrite lookup_insert_ne by (apply not_eq_sym, pre_restore_differs).
      apply lookup_insert_eq.
    + by rewrite <- !app_assoc.
  - rewrite Hfile. files_run.
    eexists. split; [reflexivity|]. cbn.
    split; [apply lookup_insert_eq|].
    split; [intros ? [=]|].
    by rewrite <- !app_assoc.
Qed.

Lemma restore_of_requested_backup_witness :
  exists w',
    Restore.main ["--backup=2025-12-23-10-00-00"] sample_env
                 (always all_well) None invalid_date (Some two_backups)
                 "backups" "Y" sqlite_world
    = (Ok tt, w')
    /\ w_fs w' !! ".tmp/data.db" = Some "rows of 23 December".
Proof.
  destruct (restore_of_requested_backup ["--backup=2025-12-23-10-00-00"]
              sample_env (always all_well) None invalid_date two_backups
              "backups" "Y" sqlite_world "2025-12-23-10-00-00"
              "data.db.backup-2025-12-23-10-00-00-123Z"
              "rows of 23 December")
    as (w' & Hrun & Hdb & _).
  - reflexivity.
  - discriminate.
  - reflexivity.
  - reflexivity.
  - reflexivity.
  - reflexivity.
  - reflexivity.
  - discriminate.
  - exists w'. split; [exact Hrun|exact Hdb].
Defined.

(** X27. The restore script leaves the process with the code 1,
    before it asks anything and whatever the user would answer, when the
    directory of the backups does not exist or holds no name with a
    token; when [--backup=TOKEN] names a token that no name of the
    directory carries; and when the names that carry the requested token
    hold no database backup. Nothing is changed. *)
Theorem restore_exits_before_asking
    (args : list string) (env : DBHelper.Env) (O : oracle)
    (exec_fault : option JS.error) (date : string -> option Z)
    (entries : option (list string)) (BACKUP_DIR answer : string)
    (w : world) :
  (match entries with
   | None => True
   | Some names => forall f, f ∈ names -> backup_token f = None
   end ->
   Restore.main args env O exec_fault date entries BACKUP_DIR answer w
   = (Ok tt, log [EvExit 1] w))
  /\ (forall names t,
        entries = Some names ->
        Restore.requested_backup args = Some t ->
        t <> EmptyString ->
        (forall f, f ∈ names -> carries t f = false) ->
        Restore.main args env O exec_fault date entries BACKUP_DIR answer w
        = (Ok tt, log [EvExit 1] w))
  /\ (forall names t,
        entries = Some names ->
        Restore.requested_backup args = Some t ->
        t <> EmptyString ->
        (exists f, f ∈ names /\ carries t f = true) ->
        List.find Restore.is_db_backup (List.filter (carries t) names) = None ->
        Restore.main args env O exec_fault date entries BACKUP_DIR answer w
        = (Ok tt, log [EvExit 1] w)).
Proof.
  split; [|split].
  - intros Hnone. unfold Restore.main, try_catch.
    assert (listBackups date entries = []) as ->; [|reflexivity].
    destruct entries as [names|]; [|reflexivity].
    by apply listBackups_nil.
  - intros names t -> Hreq Hne Hnone. unfold Restore.main, try_catch.
    rewrite Hreq.
    assert (Htruthy : JS.truthy (Some t) = true).
    { cbn. destruct (String.eqb_spec t EmptyString); [contradiction|done]. }
    rewrite Htruthy. cbn [JS.to_string].
    rewrite (listBackups_no_token date names t Hnone).
    by destruct (Nat.eqb _ 0).
  - intros names t -> Hreq Hne Hsome Hfind. unfold Restore.main, try_catch.
    rewrite Hreq.
    assert (Htruthy : JS.truthy (Some t) = true).
    { cbn. destruct (String.eqb_spec t EmptyString); [contradiction|done]. }
    rewrite Htruthy. cbn [JS.to_string].
    destruct (listBackups_of_token date names t Hsome)
      as (g & -> & Htg & Hfiles).
    unfold Restore.restore_selected. rewrite Hfiles, Hfind.
    by destruct (Nat.eqb _ 0).
Qed.

Lemma restore_exits_before_asking_witness :
  Restore.main ["--backup=2025-01-01-00-00-00"] sample_env (always all_well)
               None invalid_date (Some two_backups) "backups" "y"
               sqlite_world
  = (Ok tt, log [EvExit 1] sqlite_world).
Proof.
  destruct (restore_exits_before_asking ["--backup=2025-01-01-00-00-00"]
              sample_env (always all_well) None invalid_date
              (Some two_backups) "backups" "y" sqlite_world)
    as (_ & H & _).
  apply (H two_backups "2025-01-01-00-00-00"); try reflexivity.
  - discriminate.
  - intros f Hf. unfold two_backups in Hf.
    repeat (apply elem_of_cons in Hf as [-> | Hf]; [vm_compute; reflexivity|]).
    by apply elem_of_nil in Hf.
Defined.


(** X28. The restore script takes every backend other than [sqlite]
    for PostgreSQL. With a value of [DATABASE_CLIENT] that the database
    helper does not know, a consenting user and a working [psql], the
    dump is fed to [psql] and replaces the database before the helper
    rejects the backend; the script then exits with the code 1. *)
Theorem unknown_client_is_restored_as_postgres
    (args : list string) (env : DBHelper.Env) (O : oracle)
    (date : string -> option Z) (entries : list string)
    (BACKUP_DIR answer : string) (w : world) (t dbBackup dump : string) :
  let dbBackupPath := path_join BACKUP_DIR dbBackup in
  let connectionString :=
    JS.to_string
      (if JS.truthy (DBHelper.DATABASE_PRIVATE_URL env)
       then DBHelper.DATABASE_PRIVATE_URL env
       else DBHelper.DATABASE_URL env) in
  Restore.requested_backup args = Some t ->
  t <> EmptyString ->
  List.find Restore.is_db_backup (List.filter (carries t) entries)
  = Some dbBackup ->
  Restore.prompt answer = true ->
  known_client env = false ->
  w_fs w !! dbBackupPath = Some dump ->
  exists w',
    Restore.main args env O None date (Some entries) BACKUP_DIR answer w
    = (Ok tt, w')
    /\ w_pg w' = dump
    /\ w_trace w'
       = w_trace w
         ++ [EvExec ("psql " +:+ quoted connectionString +:+ " < "
                     +:+ quoted dbBackupPath);
             EvExit 1].
Proof.
  intros dbBackupPath connectionString Hreq Hne Hfind Hyes Hclient Hfile.
  assert (Hsome : exists f, f ∈ entries /\ carries t f = true).
  { apply find_some in Hfind as [Hin _]. apply filter_In in Hin as [Hin Hc].
    exists dbBackup. split; [by apply list_elem_of_In|exact Hc]. }
  destruct (listBackups_of_token date entries t Hsome)
    as (g & Hg & Htg & Hfiles).
  unfold Restore.main, try_catch. rewrite Hreq.
  assert (Htruthy : JS.truthy (Some t) = true).
  { cbn. destruct (String.eqb_spec t EmptyString); [contradiction|done]. }
  rewrite Htruthy. cbn [JS.to_string]. rewrite Hg.
  destruct (listBackups date (Some entries)) as [|g0 l] eqn:El;
    [discriminate|]. cbn [length Nat.eqb].
  unfold Restore.restore_selected. rewrite Hfiles, Hfind, Hyes. cbn [negb].
  fold dbBackupPath.
  unfold known_client in Hclient. apply orb_false_elim in Hclient as [Hs Hp].
  unfold Restore.restore_database. rewrite Hs. fold connectionString.
  unfold DBHelper.init. rewrite Hs, Hp.
  unfold restorePostgreSQL, existsSync, emit.
  files_run. rewrite Hfile. files_run. rewrite Hfile. files_run.
  eexists. split; [reflexivity|]. cbn.
  split; [reflexivity|]. by rewrite <- !app_assoc.
Qed.

Lemma unknown_client_is_restored_as_postgres_witness :
  exists w',
    Restore.main ["--backup=2025-12-23-10-00-00"] mongo_env
                 (always all_well) None invalid_date
                 (Some ["backup-2025-12-23-10-00-00-123Z.sql"])
                 "backups" "yes" pg_world
    = (Ok tt, w')
    /\ w_pg w' = "rows of 23 December".
Proof.
  destruct (unknown_client_is_restored_as_postgres
              ["--backup=2025-12-23-10-00-00"] mongo_env (always all_well)
              invalid_date ["backup-2025-12-23-10-00-00-123Z.sql"]
              "backups" "yes" pg_world "2025-12-23-10-00-00"
              "backup-2025-12-23-10-00-00-123Z.sql" "rows of 23 December")
    as (w' & Hrun & Hpg & _); try reflexivity.
  - discriminate.
  - exists w'. split; [exact Hrun|exact Hpg].
Defined.


(* ================================================================= *)
(** ** The progress bar *)

(** X29. For an integer percentage from -2 to 102, so for every
    percentage from 0 to 100, [createProgressBar] returns a bar of
    exactly twenty cells between brackets, the filled cells first; their
    number is the percentage divided by 5 and rounded to the nearest
    integer. Below -2 and above 102 it throws a [RangeError]. *)
Theorem progress_bar_has_twenty_cells (percentage : Z) :
  (-2 <= percentage <= 102 ->
   exists filled,
     0 <= filled <= 20
     /\ 5 * filled - 2 <= percentage <= 5 * filled + 2
     /\ Logger.createProgressBar percentage
        = Ok ("[" +:+ cells Logger.block filled
              +:+ cells " " (20 - filled) +:+ "]"))
  /\ (percentage < -2 \/ 102 < percentage ->
      exists e,
        Logger.createProgressBar percentage = Throw e
        /\ JS.name e = "RangeError").
Proof.
  unfold Logger.createProgressBar, Logger.repeat, Logger.round_div.
  pose proof (Z.div_mod (2 * percentage + 5) (2 * 5) ltac:(lia)) as Hdm.
  pose proof (Z.mod_pos_bound (2 * percentage + 5) (2 * 5) ltac:(lia)) as Hm.
  split.
  - intros Hp. exists ((2 * percentage + 5) / (2 * 5)).
    split; [lia|]. split; [lia|].
    destruct (Z.ltb_spec ((2 * percentage + 5) / (2 * 5)) 0); [lia|].
    destruct (Z.ltb_spec (20 - (2 * percentage + 5) / (2 * 5)) 0); [lia|].
    reflexivity.
  - intros Hp.
    destruct (Z.ltb_spec ((2 * percentage + 5) / (2 * 5)) 0).
    + eexists. split; reflexivity.
    + destruct (Z.ltb_spec (20 - (2 * percentage + 5) / (2 * 5)) 0); [|lia].
      eexists. split; reflexivity.
Qed.

Lemma progress_bar_has_twenty_cells_witness :
  exists filled,
    0 <= filled <= 20
    /\ 5 * filled - 2 <= 50 <= 5 * filled + 2
    /\ Logger.createProgressBar 50
       = Ok ("[" +:+ cells Logger.block filled
             +:+ cells " " (20 - filled) +:+ "]").
Proof.
  destruct (progress_bar_has_twenty_cells 50) as [H _].
  apply H. lia.
Defined.
